(** * The validation-combinator engine (ts-validator), embedded in Rocq

    The development follows the TypeScript sources of the library:

    - [types.ts]               the result and error records;
    - [base-validator.ts]      [BaseValidator.validate], [optional], [withMessage];
    - [validators/*.ts]        the string, number, boolean, date, array and
                               object validators;
    - [schema.ts]              the factory and the combinators [any],
                               [nullable] and [union].

    What the model covers.

    - Values are the values a validator can be handed: the JSON data model,
      [undefined] and [Date] objects.  An object is the list of its own
      properties in the order [Object.keys] gives them, with Object.prototype
      as its prototype, as an object literal and [JSON.parse] give it; an
      object whose prototype was set to another object or to null holds that
      prototype beside its own properties (a date as prototype is outside
      the model).  A read of a property finds the own properties of the
      object and of the objects it has as prototypes.  What the built-in
      prototypes hold (constructor, toString, ...) has no value in the model
      and a read does not find it: [builtin_prototype_keys] lists these
      names, and the statements on the fields of an object are about the
      other keys.  The one property of Object.prototype that the model has
      is the accessor [__proto__], on assignment.
    - A string is a sequence of ASCII code units.
    - A number is an exact rational, an infinity or NaN; the rounding of
      floating point arithmetic is not modelled.
    - A regular expression handed to [pattern] is its [test] function, a
      function of the string alone: a regular expression without the flags
      g and y, whose [test] keeps no position from one call to the next.
    - What the host language computes and the sources only call (date
      parsing, the printing of dates and numbers, URL parsing) is gathered in
      the class [Host]; every result below holds for every host.
    - The methods that configure a validator are given twice: on validators
      as values, and on instances whose option objects live in a store, where
      two instances can hold the same object.

    The file has the model first, then the vocabulary of the statements, then
    the proofs. *)

From Stdlib Require Import Bool Arith ZArith QArith Lia List Ascii String.
Import ListNotations.

Open Scope string_scope.
Open Scope list_scope.

(* ================================================================== *)
(** * Strings *)
(* ================================================================== *)

(** A string is a sequence of code units; the model covers ASCII text. *)

Module Str.

Definition chars (s : string) : list ascii := list_ascii_of_string s.
Definition of_chars (l : list ascii) : string := string_of_list_ascii l.

Definition code (c : ascii) : nat := nat_of_ascii c.

Definition in_range (lo hi : nat) (c : ascii) : bool :=
  (lo <=? code c)%nat && (code c <=? hi)%nat.

Definition is_digit (c : ascii) : bool := in_range 48 57 c.
Definition is_upper (c : ascii) : bool := in_range 65 90 c.
Definition is_lower (c : ascii) : bool := in_range 97 122 c.
Definition is_alpha (c : ascii) : bool := is_upper c || is_lower c.
(** White space as [trim] and the class [\s] see it (tab, line feed, vertical
    tab, form feed, carriage return, space). *)
Definition is_space (c : ascii) : bool := in_range 9 13 c || (code c =? 32)%nat.
Definition is_char (k : nat) (c : ascii) : bool := (code c =? k)%nat.

(** The double quote, a backslash, and the one-character strings of them. *)
Definition dquote_char : ascii := ascii_of_nat 34.
Definition backslash_char : ascii := ascii_of_nat 92.
Definition dquote : string := String dquote_char EmptyString.

Fixpoint drop_while (p : ascii -> bool) (l : list ascii) : list ascii :=
  match l with
  | [] => []
  | c :: l' => if p c then drop_while p l' else l
  end.

Fixpoint take_while (p : ascii -> bool) (l : list ascii) : list ascii :=
  match l with
  | [] => []
  | c :: l' => if p c then c :: take_while p l' else []
  end.

(** [String.prototype.trim] *)
Definition trim (s : string) : string :=
  of_chars (rev (drop_while is_space (rev (drop_while is_space (chars s))))).

Definition lower_char (c : ascii) : ascii :=
  if is_upper c then ascii_of_nat (code c + 32) else c.

(** [String.prototype.toLowerCase] *)
Definition toLowerCase (s : string) : string :=
  of_chars (map lower_char (chars s)).

Fixpoint starts_with (p l : list ascii) : bool :=
  match p, l with
  | [], _ => true
  | _ :: _, [] => false
  | a :: p', b :: l' => Ascii.eqb a b && starts_with p' l'
  end.

Fixpoint contains (p l : list ascii) : bool :=
  starts_with p l ||
  match l with
  | [] => false
  | _ :: l' => contains p l'
  end.

(** [startsWith], [endsWith], [includes] *)
Definition startsWith (s p : string) : bool := starts_with (chars p) (chars s).
Definition endsWith (s p : string) : bool :=
  starts_with (rev (chars p)) (rev (chars s)).
Definition includes (s p : string) : bool := contains (chars p) (chars s).

(** [s.split(c)] for a one-character separator: the pieces between the
    occurrences of [c], at least one piece. *)
Fixpoint split_chars (sep : ascii) (l : list ascii) : list (list ascii) :=
  match l with
  | [] => [[]]
  | c :: l' =>
      if Ascii.eqb c sep then [] :: split_chars sep l'
      else match split_chars sep l' with
           | [] => [[c]]
           | piece :: pieces => (c :: piece) :: pieces
           end
  end.

Definition split (s : string) (sep : ascii) : list string :=
  map of_chars (split_chars sep (chars s)).

(** Decimal digits of a natural number (array indices in paths). *)
Definition digit_char (d : nat) : ascii := ascii_of_nat (48 + d).

Fixpoint digits_fuel (fuel n : nat) (acc : list ascii) : list ascii :=
  match fuel with
  | O => acc
  | S fuel' =>
      let acc' := digit_char (n mod 10) :: acc in
      if (n <? 10)%nat then acc' else digits_fuel fuel' (n / 10) acc'
  end.

Definition of_nat (n : nat) : string := of_chars (digits_fuel (S n) n []).

(** The value of a digit in a radix up to 36, as [parseInt] reads it. *)
Definition digit_value (radix : Z) (c : ascii) : option Z :=
  let v :=
    if is_digit c then Some (Z.of_nat (code c - 48))
    else if is_lower c then Some (Z.of_nat (code c - 97 + 10))
    else if is_upper c then Some (Z.of_nat (code c - 65 + 10))
    else None in
  match v with
  | Some d => if (d <? radix)%Z then Some d else None
  | None => None
  end.

(** The longest prefix of digits, read in the radix; [None] when it is empty. *)
Fixpoint read_digits (radix : Z) (l : list ascii) (acc : option Z) : option Z :=
  match l with
  | [] => acc
  | c :: l' =>
      match digit_value radix c with
      | Some d =>
          read_digits radix l'
            (Some (match acc with Some a => a * radix + d | None => d end)%Z)
      | None => acc
      end
  end.

End Str.

(* ================================================================== *)
(** * Regular expressions *)
(* ================================================================== *)

(** The fixed patterns of the sources are anchored at both ends; they are
    written as regular expressions and matched with derivatives. *)

Module Regex.

Inductive t :=
| Empty                       (* matches nothing *)
| Eps                         (* matches the empty string *)
| Class (p : ascii -> bool)   (* one character of a class *)
| Seq (a b : t)
| Alt (a b : t)
| Star (a : t).

Fixpoint nullable (r : t) : bool :=
  match r with
  | Empty => false
  | Eps => true
  | Class _ => false
  | Seq a b => nullable a && nullable b
  | Alt a b => nullable a || nullable b
  | Star _ => true
  end.

Definition seq (a b : t) : t :=
  match a, b with
  | Empty, _ => Empty
  | _, Empty => Empty
  | Eps, _ => b
  | _, Eps => a
  | _, _ => Seq a b
  end.

Definition alt (a b : t) : t :=
  match a, b with
  | Empty, _ => b
  | _, Empty => a
  | _, _ => Alt a b
  end.

Fixpoint deriv (c : ascii) (r : t) : t :=
  match r with
  | Empty => Empty
  | Eps => Empty
  | Class p => if p c then Eps else Empty
  | Seq a b =>
      if nullable a then alt (seq (deriv c a) b) (deriv c b)
      else seq (deriv c a) b
  | Alt a b => alt (deriv c a) (deriv c b)
  | Star a => seq (deriv c a) (Star a)
  end.

Fixpoint matches_chars (r : t) (l : list ascii) : bool :=
  match l with
  | [] => nullable r
  | c :: l' => matches_chars (deriv c r) l'
  end.

(** [/^r$/.test(s)] *)
Definition test (r : t) (s : string) : bool := matches_chars r (Str.chars s).

Fixpoint times (n : nat) (r : t) : t :=
  match n with
  | O => Eps
  | S n' => Seq r (times n' r)
  end.

Definition plus (r : t) : t := Seq r (Star r).
Definition opt (r : t) : t := Alt r Eps.
Definition chr (k : nat) : t := Class (Str.is_char k).
Definition digit : t := Class Str.is_digit.

Definition any_of (ps : list (ascii -> bool)) : t :=
  Class (fun c => existsb (fun p => p c) ps).

End Regex.

(* ================================================================== *)
(** * Numbers, dates and values *)
(* ================================================================== *)

(** A number is a rational, one of the two infinities, or NaN: the
    comparisons and the remainder are the ones of the language, computed
    exactly. *)

Module Num.

Inductive t :=
| NaN
| Infinity (negative : bool)
| Finite (q : Q).

Definition of_Z (z : Z) : t := Finite (inject_Z z).
Definition of_nat (n : nat) : t := of_Z (Z.of_nat n).

Definition Qlt_bool (x y : Q) : bool := negb (Qle_bool y x).

(** [a < b] *)
Definition lt (a b : t) : bool :=
  match a, b with
  | NaN, _ | _, NaN => false
  | Infinity true, Infinity true => false
  | Infinity true, _ => true
  | _, Infinity true => false
  | Infinity false, _ => false
  | Finite _, Infinity false => true
  | Finite x, Finite y => Qlt_bool x y
  end.

(** [a === b] *)
Definition eq (a b : t) : bool :=
  match a, b with
  | Infinity s, Infinity s' => Bool.eqb s s'
  | Finite x, Finite y => Qeq_bool x y
  | _, _ => false
  end.

Definition gt (a b : t) : bool := lt b a.
Definition le (a b : t) : bool := lt a b || eq a b.
Definition ge (a b : t) : bool := le b a.

Definition isNaN (a : t) : bool := match a with NaN => true | _ => false end.
Definition isFinite (a : t) : bool := match a with Finite _ => true | _ => false end.

(** The integer part, towards zero. *)
Definition trunc (q : Q) : Z := Z.quot (Qnum q) (Zpos (Qden q)).

(** [Number.isInteger] *)
Definition isInteger (a : t) : bool :=
  match a with
  | Finite q => Z.eqb (Z.rem (Qnum q) (Zpos (Qden q))) 0
  | _ => false
  end.

(** [a % b]: the remainder has the sign of the dividend. *)
Definition rem (a b : t) : t :=
  match a, b with
  | Finite x, Finite y =>
      if Qeq_bool y 0 then NaN
      else Finite (Qred (x - y * inject_Z (trunc (x / y))))
  | Finite x, Infinity _ => Finite x
  | _, _ => NaN
  end.

(** Equality of the keys of a [Set] (SameValueZero): NaN is equal to itself. *)
Definition same (a b : t) : bool :=
  match a, b with
  | NaN, NaN => true
  | _, _ => eq a b
  end.

Definition zero : t := of_Z 0.
Definition one : t := of_Z 1.

End Num.

Close Scope Q_scope.

(** A [Date] object holds a time value: milliseconds since the epoch, or NaN
    for an invalid date. *)

Module JsDate.

Inductive t :=
| Invalid
| At (ms : Z).

Definition time (d : t) : Num.t :=
  match d with
  | Invalid => Num.NaN
  | At ms => Num.of_Z ms
  end.

(** [isNaN(d.getTime())] *)
Definition isInvalid (d : t) : bool := Num.isNaN (time d).

(** [new Date(n)] for a number: the time value clipped to the range of dates. *)
Definition of_number (n : Num.t) : t :=
  match n with
  | Num.Finite q =>
      if Qle_bool q (inject_Z 8640000000000000)
         && Qle_bool (inject_Z (- 8640000000000000)) q
      then At (Num.trunc q)
      else Invalid
  | _ => Invalid
  end.

(** [a < b] and [a > b] on dates compare the time values. *)
Definition lt (a b : t) : bool := Num.lt (time a) (time b).
Definition gt (a b : t) : bool := Num.gt (time a) (time b).

End JsDate.

Unset Elimination Schemes.
Inductive JsValue :=
| VUndefined
| VNull
| VBoolean (b : bool)
| VNumber (n : Num.t)
| VString (s : string)
| VDate (d : JsDate.t)
| VArray (items : list JsValue)
| VObject (props : list (string * JsValue))
| VObjectOver (proto : JsValue) (props : list (string * JsValue)).
Set Elimination Schemes.

(** [VObject props] is an object with the own properties [props] and the
    prototype Object.prototype.  [VObjectOver proto props] is an object with
    the own properties [props] whose prototype was set to [proto], an object
    or null.  What the validators do with an object that has a date on its
    prototype chain, which [instanceof Date] takes for a date, is outside
    the model. *)

(** [typeof value] *)
Definition typeof (value : JsValue) : string :=
  match value with
  | VUndefined => "undefined"
  | VBoolean _ => "boolean"
  | VNumber _ => "number"
  | VString _ => "string"
  | VNull | VDate _ | VArray _ | VObject _ | VObjectOver _ _ => "object"
  end.

(** [value === undefined || value === null]: the two absence sentinels. *)
Definition is_absent (value : JsValue) : bool :=
  match value with
  | VUndefined | VNull => true
  | _ => false
  end.

(** [!!value] *)
Definition truthy (value : JsValue) : bool :=
  match value with
  | VUndefined | VNull => false
  | VBoolean b => b
  | VNumber n => negb (Num.isNaN n || Num.eq n Num.zero)
  | VString s => negb (String.eqb s EmptyString)
  | VDate _ | VArray _ | VObject _ | VObjectOver _ _ => true
  end.

(** Own properties of an object, in the order [Object.keys] lists them. *)
Definition keys {A : Type} (props : list (string * A)) : list string :=
  map fst props.

Definition has_key (ks : list string) (key : string) : bool :=
  existsb (String.eqb key) ks.

Fixpoint lookup {A : Type} (props : list (string * A)) (key : string) : option A :=
  match props with
  | [] => None
  | (k, v) :: props' => if String.eqb key k then Some v else lookup props' key
  end.

(** [object[key]] among the properties [props] that the read can find:
    [undefined] when there is no such property.  The properties of the
    built-in prototypes are not among them. *)
Definition get (props : list (string * JsValue)) (key : string) : JsValue :=
  match lookup props key with
  | Some v => v
  | None => VUndefined
  end.

(** An array index: the decimal text, without sign and without leading
    zeros, of an integer from 0 to 2^32 - 2. *)
Definition array_index (key : string) : option N :=
  let l := Str.chars key in
  match l with
  | [] => None
  | c :: rest =>
      if forallb Str.is_digit l
         && (negb (Str.is_char 48 c) || match rest with [] => true | _ => false end)
      then
        let n :=
          fold_left (fun acc d => (acc * 10 + N.of_nat (Str.code d - 48))%N) l 0%N in
        if (n <=? 4294967294)%N then Some n else None
      else None
  end.

(** The order of the own keys of an object: the array indices first, in
    ascending order, then the other keys in the order of their creation.
    [comes_before key k]: a new key [key] is listed before the key [k]. *)
Definition comes_before (key k : string) : bool :=
  match array_index key, array_index k with
  | Some n, Some m => (n <? m)%N
  | Some _, None => true
  | None, _ => false
  end.

Fixpoint add_property {A : Type} (props : list (string * A)) (key : string) (v : A)
  : list (string * A) :=
  match props with
  | [] => [(key, v)]
  | (k, w) :: props' =>
      if comes_before key k then (key, v) :: props
      else (k, w) :: add_property props' key v
  end.

Fixpoint replace_property {A : Type} (props : list (string * A)) (key : string)
  (v : A) : list (string * A) :=
  match props with
  | [] => []
  | (k, w) :: props' =>
      if String.eqb key k then (k, v) :: props'
      else (k, w) :: replace_property props' key v
  end.

(** The own properties after a property is given the value [v]: an existing
    property keeps its place, a new one takes its place in the order of the
    keys. *)
Definition assign {A : Type} (props : list (string * A)) (key : string) (v : A)
  : list (string * A) :=
  match lookup props key with
  | Some _ => replace_property props key v
  | None => add_property props key v
  end.

(** The properties that a read finds on the chain of an object: its own,
    then those of its prototype.  An array has its items under their indices,
    and its length. *)
Fixpoint chain_properties (value : JsValue) : list (string * JsValue) :=
  match value with
  | VObject props => props
  | VObjectOver proto props => props ++ chain_properties proto
  | VArray items =>
      combine (map Str.of_nat (seq 0 (List.length items))) items
      ++ [("length", VNumber (Num.of_nat (List.length items)))]
  | _ => []
  end.

(** Whether a search for [__proto__] that starts at an object ends at the
    accessor of Object.prototype: no object on the way has a property of that
    name of its own, and the chain does not end at null. *)
Fixpoint inherits_proto_accessor (value : JsValue) : bool :=
  match value with
  | VObject props => negb (has_key (keys props) "__proto__")
  | VObjectOver proto props =>
      negb (has_key (keys props) "__proto__") && inherits_proto_accessor proto
  | VArray _ | VDate _ => true
  | _ => false
  end.

(** An object that the program builds, starting from [{}]: its prototype,
    [None] while it is Object.prototype, and its own properties. *)
Record JsObject := {
  prototype : option JsValue;
  properties : list (string * JsValue);
}.

Definition empty_object : JsObject := {| prototype := None; properties := [] |}.

(** The object as a value. *)
Definition object_value (object : JsObject) : JsValue :=
  match prototype object with
  | None => VObject (properties object)
  | Some proto => VObjectOver proto (properties object)
  end.

(** [object[key] = v] on such an object.  The assignment gives an own
    property its new value, or makes a new own property; but for the key
    [__proto__], when the object has no own property of that name, it
    finds the accessor of Object.prototype and calls its setter: the setter
    makes [v] the prototype of the object when [v] is an object or null, does
    nothing otherwise, and makes no own property in either case. *)
Definition set_property (object : JsObject) (key : string) (v : JsValue) : JsObject :=
  if String.eqb key "__proto__"
     && negb (has_key (keys (properties object)) key)
     && match prototype object with
        | None => true
        | Some proto => inherits_proto_accessor proto
        end
  then
    match v with
    | VNull | VDate _ | VArray _ | VObject _ | VObjectOver _ _ =>
        {| prototype := Some v; properties := properties object |}
    | _ => object
    end
  else
    {| prototype := prototype object;
       properties := assign (properties object) key v |}.

(** The schemas that [pick], [omit] and [extend] build.  A schema is the list
    of the own properties of the schema object, all of them validators; the
    model has no schema that declares a field under a key of a built-in
    prototype, and no call of [pick] with such a key.

    [for (const key of keys) if (this.schema[key]) pickedSchema[key] = this.schema[key]] *)
Definition pick_schema {V : Type} (schema : list (string * V)) (keys : list string)
  : list (string * V) :=
  fold_left
    (fun pickedSchema key =>
       match lookup schema key with
       | Some validator => assign pickedSchema key validator
       | None => pickedSchema
       end)
    keys [].

(** [if (!keysToOmit.has(key)) omittedSchema[key] = validator], for each entry *)
Definition omit_schema {V : Type} (schema : list (string * V)) (keys : list string)
  : list (string * V) :=
  filter (fun kv => negb (has_key keys (fst kv))) schema.

(** [{ ...this.schema, ...extension }] *)
Definition extend_schema {V : Type} (schema extension : list (string * V))
  : list (string * V) :=
  fold_left (fun acc kv => assign acc (fst kv) (snd kv)) extension schema.

(* ================================================================== *)
(** * The host *)
(* ================================================================== *)

(** [new URL(s)] either throws or gives a record of which the sources read
    the protocol and the host name. *)
Record URL := { protocol : string; hostname : string }.

Class Host := {
  (** the time value of [new Date(s)] for a string *)
  Date_parse : string -> JsDate.t;
  (** [toISOString] of a valid date *)
  Date_toISOString : Z -> string;
  (** [new URL(s)]; [None] when the constructor throws *)
  URL_parse : string -> option URL;
  (** a number printed in a template string or by [JSON.stringify] *)
  Number_toString : Num.t -> string;
}.

(** [parseInt(s, radix)]; the radix is [None] when the call gives none. *)
Definition parseInt (s : string) (radix : option Z) : Num.t :=
  let l := Str.drop_while Str.is_space (Str.chars s) in
  let '(negative, l) :=
    match l with
    | c :: l' =>
        if Str.is_char 45 c then (true, l')
        else if Str.is_char 43 c then (false, l')
        else (false, l)
    | [] => (false, l)
    end in
  let R := match radix with Some r => r | None => 0%Z end in
  if negb (R =? 0)%Z && ((R <? 2)%Z || (36 <? R)%Z) then Num.NaN
  else
    let strip := (R =? 0)%Z || (R =? 16)%Z in
    let R := if (R =? 0)%Z then 10%Z else R in
    let '(R, l) :=
      match l with
      | c0 :: c1 :: l' =>
          if strip && Str.is_char 48 c0 && (Str.is_char 120 c1 || Str.is_char 88 c1)
          then (16%Z, l')
          else (R, l)
      | _ => (R, l)
      end in
    match Str.read_digits R l None with
    | None => Num.NaN
    | Some n => Num.of_Z (if negative then - n else n)
    end.

(* ================================================================== *)
(** * types.ts: errors and results *)
(* ================================================================== *)

Module Types.

Record ValidationError := {
  path : string;
  message : string;
  value : JsValue;
}.

(** [data] is [None] when the result has no such property (a failure), and
    [Some VUndefined] when it has one that holds [undefined]. *)
Record ValidationResult := {
  isValid : bool;
  data : option JsValue;
  errors : list ValidationError;
}.

End Types.
Export Types.

(** What reading [result.data] gives. *)
Definition read_data (result : ValidationResult) : JsValue :=
  match data result with
  | Some d => d
  | None => VUndefined
  end.

(** [result.data !== undefined] *)
Definition has_data (result : ValidationResult) : bool :=
  match read_data result with
  | VUndefined => false
  | _ => true
  end.

(** [{ ...error, message }] *)
Definition with_message (m : string) (error : ValidationError) : ValidationError :=
  {| path := path error; message := m; value := value error |}.

(* ================================================================== *)
(** * JSON.stringify *)
(* ================================================================== *)

Module JSON.

Definition hex_digit (d : nat) : ascii :=
  if (d <? 10)%nat then ascii_of_nat (48 + d) else ascii_of_nat (87 + d).

(** The escape of one character inside a JSON string. *)
Definition escape_char (c : ascii) : list ascii :=
  let k := Str.code c in
  if (k =? 34)%nat then [Str.backslash_char; Str.dquote_char]
  else if (k =? 92)%nat then [Str.backslash_char; Str.backslash_char]
  else if (k =? 8)%nat then [Str.backslash_char; ascii_of_nat 98]
  else if (k =? 12)%nat then [Str.backslash_char; ascii_of_nat 102]
  else if (k =? 10)%nat then [Str.backslash_char; ascii_of_nat 110]
  else if (k =? 13)%nat then [Str.backslash_char; ascii_of_nat 114]
  else if (k =? 9)%nat then [Str.backslash_char; ascii_of_nat 116]
  else if (k <? 32)%nat then
    [Str.backslash_char; ascii_of_nat 117; ascii_of_nat 48; ascii_of_nat 48;
     hex_digit (k / 16); hex_digit (k mod 16)]
  else [c].

Definition quote (s : string) : string :=
  (Str.dquote ++ Str.of_chars (flat_map escape_char (Str.chars s)) ++ Str.dquote)%string.

Section Stringify.
Context {host : Host}.

(** [JSON.stringify(value)]; [None] stands for the result [undefined].  In an
    array an [undefined] item is printed as null, in an object a property that
    holds [undefined] is left out. *)
Fixpoint stringify (value : JsValue) : option string :=
  match value with
  | VUndefined => None
  | VNull => Some "null"
  | VBoolean b => Some (if b then "true" else "false")
  | VNumber n => Some (if Num.isFinite n then Number_toString n else "null")
  | VString s => Some (quote s)
  | VDate d =>
      Some (match d with
            | JsDate.Invalid => "null"
            | JsDate.At ms => quote (Date_toISOString ms)
            end)
  | VArray items =>
      let item v := match stringify v with Some s => s | None => "null" end in
      Some ("[" ++ String.concat "," (map item items) ++ "]")%string
  | VObject props | VObjectOver _ props =>
      let prop (kv : string * JsValue) :=
        match stringify (snd kv) with
        | Some s => [(quote (fst kv) ++ ":" ++ s)%string]
        | None => []
        end in
      Some ("{" ++ String.concat "," (flat_map prop props) ++ "}")%string
  end.

End Stringify.
End JSON.

(* ================================================================== *)
(** * base-validator.ts *)
(* ================================================================== *)

(** [ValidatorOptions] of types.ts.  A flag that is not set reads as [false];
    the sources test the flags for truthiness only. *)
Module ValidatorOptions.
Record t := { message : option string; optional : bool }.
End ValidatorOptions.

Module BaseValidator.

Definition createError (path message : string) (value : JsValue) : ValidationError :=
  {| path := path; message := message; value := value |}.

Definition createSuccess (data : JsValue) : ValidationResult :=
  {| isValid := true; data := Some data; errors := [] |}.

Definition createFailure (errors : list ValidationError) : ValidationResult :=
  {| isValid := false; data := None; errors := errors |}.

(** The result of an optional validator on an absence sentinel. *)
Definition absent_success : ValidationResult :=
  {| isValid := true; data := Some VUndefined; errors := [] |}.

(** [this.options.message] read as a condition: a message that is set and is
    not the empty string. *)
Definition custom_message (options : ValidatorOptions.t) : option string :=
  match ValidatorOptions.message options with
  | Some m => if String.eqb m EmptyString then None else Some m
  | None => None
  end.

(** [BaseValidator.validate]; [validateValue] is the check of the concrete
    class. *)
Definition validate (options : ValidatorOptions.t)
  (validateValue : JsValue -> string -> ValidationResult)
  (value : JsValue) (path : string) : ValidationResult :=
  if ValidatorOptions.optional options && is_absent value then absent_success
  else
    let result := validateValue value path in
    match custom_message options with
    | Some m =>
        if negb (isValid result)
        then {| isValid := isValid result;
                data := data result;
                errors := map (with_message m) (errors result) |}
        else result
    | None => result
    end.

(** [errors.push(e)] under a condition. *)
Definition push_if (cond : bool) (e : ValidationError)
  (errors : list ValidationError) : list ValidationError :=
  if cond then errors ++ [e] else errors.

(** [if (errors.length > 0) return createFailure(errors); return createSuccess(data)] *)
Definition finish (errors : list ValidationError) (data : JsValue) : ValidationResult :=
  match errors with
  | [] => createSuccess data
  | _ :: _ => createFailure errors
  end.

End BaseValidator.

Import BaseValidator.

(* ================================================================== *)
(** * The option records *)
(* ================================================================== *)

(** One record for each options interface of the sources.  A flag that is not
    set reads as [false] (the sources test flags for truthiness only); an
    option that is not set is [None]. *)

(** A [RegExp] given by the caller is its [test] function.  The model covers
    the regular expressions without the flags g and y: with one of them
    [test] starts at the position that the call before it left in
    [lastIndex], and is no function of the string. *)
Definition RegExp := string -> bool.

Module StringValidatorOptions.

Record t := {
  message : option string;
  optional : bool;
  minLength : option Num.t;
  maxLength : option Num.t;
  pattern : option RegExp;
  trim : bool;
  email : bool;
  url : bool;
  uuid : bool;
}.

Definition empty : t :=
  {| message := None; optional := false; minLength := None; maxLength := None;
     pattern := None; trim := false; email := false; url := false; uuid := false |}.

(** The object seen at the type [ValidatorOptions]. *)
Definition base (o : t) : ValidatorOptions.t :=
  {| ValidatorOptions.message := message o; ValidatorOptions.optional := optional o |}.

(** [{ ...o, field: v }], one definition for each field. *)
Definition set_message (o : t) (v : option string) : t :=
  {| message := v; optional := optional o; minLength := minLength o;
     maxLength := maxLength o; pattern := pattern o; trim := trim o;
     email := email o; url := url o; uuid := uuid o |}.
Definition set_optional (o : t) (v : bool) : t :=
  {| message := message o; optional := v; minLength := minLength o;
     maxLength := maxLength o; pattern := pattern o; trim := trim o;
     email := email o; url := url o; uuid := uuid o |}.
Definition set_minLength (o : t) (v : option Num.t) : t :=
  {| message := message o; optional := optional o; minLength := v;
     maxLength := maxLength o; pattern := pattern o; trim := trim o;
     email := email o; url := url o; uuid := uuid o |}.
Definition set_maxLength (o : t) (v : option Num.t) : t :=
  {| message := message o; optional := optional o; minLength := minLength o;
     maxLength := v; pattern := pattern o; trim := trim o;
     email := email o; url := url o; uuid := uuid o |}.
Definition set_pattern (o : t) (v : option RegExp) : t :=
  {| message := message o; optional := optional o; minLength := minLength o;
     maxLength := maxLength o; pattern := v; trim := trim o;
     email := email o; url := url o; uuid := uuid o |}.
Definition set_trim (o : t) (v : bool) : t :=
  {| message := message o; optional := optional o; minLength := minLength o;
     maxLength := maxLength o; pattern := pattern o; trim := v;
     email := email o; url := url o; uuid := uuid o |}.
Definition set_email (o : t) (v : bool) : t :=
  {| message := message o; optional := optional o; minLength := minLength o;
     maxLength := maxLength o; pattern := pattern o; trim := trim o;
     email := v; url := url o; uuid := uuid o |}.
Definition set_url (o : t) (v : bool) : t :=
  {| message := message o; optional := optional o; minLength := minLength o;
     maxLength := maxLength o; pattern := pattern o; trim := trim o;
     email := email o; url := v; uuid := uuid o |}.
Definition set_uuid (o : t) (v : bool) : t :=
  {| message := message o; optional := optional o; minLength := minLength o;
     maxLength := maxLength o; pattern := pattern o; trim := trim o;
     email := email o; url := url o; uuid := v |}.

End StringValidatorOptions.

Module NumberValidatorOptions.

Record t := {
  message : option string;
  optional : bool;
  min : option Num.t;
  max : option Num.t;
  integer : bool;
  positive : bool;
  negative : bool;
  finite : bool;
  multipleOf : option Num.t;
}.

Definition empty : t :=
  {| message := None; optional := false; min := None; max := None;
     integer := false; positive := false; negative := false; finite := false;
     multipleOf := None |}.

Definition base (o : t) : ValidatorOptions.t :=
  {| ValidatorOptions.message := message o; ValidatorOptions.optional := optional o |}.

Definition set_message (o : t) (v : option string) : t :=
  {| message := v; optional := optional o; min := min o; max := max o;
     integer := integer o; positive := positive o; negative := negative o;
     finite := finite o; multipleOf := multipleOf o |}.
Definition set_optional (o : t) (v : bool) : t :=
  {| message := message o; optional := v; min := min o; max := max o;
     integer := integer o; positive := positive o; negative := negative o;
     finite := finite o; multipleOf := multipleOf o |}.
Definition set_min (o : t) (v : option Num.t) : t :=
  {| message := message o; optional := optional o; min := v; max := max o;
     integer := integer o; positive := positive o; negative := negative o;
     finite := finite o; multipleOf := multipleOf o |}.
Definition set_max (o : t) (v : option Num.t) : t :=
  {| message := message o; optional := optional o; min := min o; max := v;
     integer := integer o; positive := positive o; negative := negative o;
     finite := finite o; multipleOf := multipleOf o |}.
Definition set_integer (o : t) (v : bool) : t :=
  {| message := message o; optional := optional o; min := min o; max := max o;
     integer := v; positive := positive o; negative := negative o;
     finite := finite o; multipleOf := multipleOf o |}.
Definition set_positive (o : t) (v : bool) : t :=
  {| message := message o; optional := optional o; min := min o; max := max o;
     integer := integer o; positive := v; negative := negative o;
     finite := finite o; multipleOf := multipleOf o |}.
Definition set_negative (o : t) (v : bool) : t :=
  {| message := message o; optional := optional o; min := min o; max := max o;
     integer := integer o; positive := positive o; negative := v;
     finite := finite o; multipleOf := multipleOf o |}.
Definition set_finite (o : t) (v : bool) : t :=
  {| message := message o; optional := optional o; min := min o; max := max o;
     integer := integer o; positive := positive o; negative := negative o;
     finite := v; multipleOf := multipleOf o |}.
Definition set_multipleOf (o : t) (v : option Num.t) : t :=
  {| message := message o; optional := optional o; min := min o; max := max o;
     integer := integer o; positive := positive o; negative := negative o;
     finite := finite o; multipleOf := v |}.

End NumberValidatorOptions.

Module BooleanValidatorOptions.

Record t := {
  message : option string;
  optional : bool;
  strict : bool;
  truthy : bool;
}.

Definition empty : t :=
  {| message := None; optional := false; strict := false; truthy := false |}.

Definition base (o : t) : ValidatorOptions.t :=
  {| ValidatorOptions.message := message o; ValidatorOptions.optional := optional o |}.

Definition set_message (o : t) (v : option string) : t :=
  {| message := v; optional := optional o; strict := strict o; truthy := truthy o |}.
Definition set_optional (o : t) (v : bool) : t :=
  {| message := message o; optional := v; strict := strict o; truthy := truthy o |}.
Definition set_strict (o : t) (v : bool) : t :=
  {| message := message o; optional := optional o; strict := v; truthy := truthy o |}.
Definition set_truthy (o : t) (v : bool) : t :=
  {| message := message o; optional := optional o; strict := strict o; truthy := v |}.

End BooleanValidatorOptions.

Module DateValidatorOptions.

Inductive Format := iso | timestamp | string_.

Record t := {
  message : option string;
  optional : bool;
  min : option JsDate.t;
  max : option JsDate.t;
  format : option Format;
}.

Definition empty : t :=
  {| message := None; optional := false; min := None; max := None; format := None |}.

Definition base (o : t) : ValidatorOptions.t :=
  {| ValidatorOptions.message := message o; ValidatorOptions.optional := optional o |}.

Definition set_message (o : t) (v : option string) : t :=
  {| message := v; optional := optional o; min := min o; max := max o;
     format := format o |}.
Definition set_optional (o : t) (v : bool) : t :=
  {| message := message o; optional := v; min := min o; max := max o;
     format := format o |}.
Definition set_min (o : t) (v : option JsDate.t) : t :=
  {| message := message o; optional := optional o; min := v; max := max o;
     format := format o |}.
Definition set_max (o : t) (v : option JsDate.t) : t :=
  {| message := message o; optional := optional o; min := min o; max := v;
     format := format o |}.
Definition set_format (o : t) (v : option Format) : t :=
  {| message := message o; optional := optional o; min := min o; max := max o;
     format := v |}.

End DateValidatorOptions.

Module ArrayValidatorOptions.

Record t := {
  message : option string;
  optional : bool;
  minLength : option Num.t;
  maxLength : option Num.t;
  unique : bool;
  noEmpty : bool;
}.

Definition empty : t :=
  {| message := None; optional := false; minLength := None; maxLength := None;
     unique := false; noEmpty := false |}.

Definition base (o : t) : ValidatorOptions.t :=
  {| ValidatorOptions.message := message o; ValidatorOptions.optional := optional o |}.

Definition set_message (o : t) (v : option string) : t :=
  {| message := v; optional := optional o; minLength := minLength o;
     maxLength := maxLength o; unique := unique o; noEmpty := noEmpty o |}.
Definition set_optional (o : t) (v : bool) : t :=
  {| message := message o; optional := v; minLength := minLength o;
     maxLength := maxLength o; unique := unique o; noEmpty := noEmpty o |}.
Definition set_minLength (o : t) (v : option Num.t) : t :=
  {| message := message o; optional := optional o; minLength := v;
     maxLength := maxLength o; unique := unique o; noEmpty := noEmpty o |}.
Definition set_maxLength (o : t) (v : option Num.t) : t :=
  {| message := message o; optional := optional o; minLength := minLength o;
     maxLength := v; unique := unique o; noEmpty := noEmpty o |}.
Definition set_unique (o : t) (v : bool) : t :=
  {| message := message o; optional := optional o; minLength := minLength o;
     maxLength := maxLength o; unique := v; noEmpty := noEmpty o |}.
Definition set_noEmpty (o : t) (v : bool) : t :=
  {| message := message o; optional := optional o; minLength := minLength o;
     maxLength := maxLength o; unique := unique o; noEmpty := v |}.

End ArrayValidatorOptions.

Module ObjectValidatorOptions.

Record t := {
  message : option string;
  optional : bool;
  strict : bool;
  partial : bool;
  allowNull : bool;
}.

Definition empty : t :=
  {| message := None; optional := false; strict := false; partial := false;
     allowNull := false |}.

Definition base (o : t) : ValidatorOptions.t :=
  {| ValidatorOptions.message := message o; ValidatorOptions.optional := optional o |}.

Definition set_message (o : t) (v : option string) : t :=
  {| message := v; optional := optional o; strict := strict o;
     partial := partial o; allowNull := allowNull o |}.
Definition set_optional (o : t) (v : bool) : t :=
  {| message := message o; optional := v; strict := strict o;
     partial := partial o; allowNull := allowNull o |}.
Definition set_strict (o : t) (v : bool) : t :=
  {| message := message o; optional := optional o; strict := v;
     partial := partial o; allowNull := allowNull o |}.
Definition set_partial (o : t) (v : bool) : t :=
  {| message := message o; optional := optional o; strict := strict o;
     partial := v; allowNull := allowNull o |}.
Definition set_allowNull (o : t) (v : bool) : t :=
  {| message := message o; optional := optional o; strict := strict o;
     partial := partial o; allowNull := v |}.

End ObjectValidatorOptions.

(* ================================================================== *)
(** * Validators *)
(* ================================================================== *)

(** A validator built by the library.  An instance of one of the six classes
    holds two references to options: [options], the copy that the constructor
    of [BaseValidator] makes ([this.options = { ...options }]), and the options
    of its class (for instance [this.stringOptions = options]); both are kept.
    The combinators of [Schema] are objects with three closures and no
    options: [union_with_message] is what [union(list).withMessage(m)]
    returns. *)
Unset Elimination Schemes.
Inductive Validator :=
| string_validator (options stringOptions : StringValidatorOptions.t)
| number_validator (options numberOptions : NumberValidatorOptions.t)
| boolean_validator (options booleanOptions : BooleanValidatorOptions.t)
| date_validator (options dateOptions : DateValidatorOptions.t)
| array_validator (itemValidator : Validator)
    (options arrayOptions : ArrayValidatorOptions.t)
| object_validator (schema : list (string * Validator))
    (options objectOptions : ObjectValidatorOptions.t)
| any_validator
| nullable_validator (validator : Validator)
| union_validator (validators : list Validator)
| union_with_message (validators : list Validator) (message : string).
Set Elimination Schemes.

(** Induction on a validator, with the hypothesis for every member of a
    schema and of a union. *)
Section ValidatorInduction.
Variable P : Validator -> Prop.
Hypothesis Hstring : forall o so, P (string_validator o so).
Hypothesis Hnumber : forall o no, P (number_validator o no).
Hypothesis Hboolean : forall o bo, P (boolean_validator o bo).
Hypothesis Hdate : forall o do, P (date_validator o do).
Hypothesis Harray : forall item o ao, P item -> P (array_validator item o ao).
Hypothesis Hobject : forall schema o oo,
  Forall (fun kv => P (snd kv)) schema -> P (object_validator schema o oo).
Hypothesis Hany : P any_validator.
Hypothesis Hnullable : forall v, P v -> P (nullable_validator v).
Hypothesis Hunion : forall l, Forall P l -> P (union_validator l).
Hypothesis Hunion_message : forall l m, Forall P l -> P (union_with_message l m).

Fixpoint Validator_ind (v : Validator) : P v :=
  let members :=
    fix members (l : list Validator) : Forall P l :=
      match l with
      | [] => Forall_nil P
      | w :: l' => Forall_cons w (Validator_ind w) (members l')
      end in
  match v with
  | string_validator o so => Hstring o so
  | number_validator o no => Hnumber o no
  | boolean_validator o bo => Hboolean o bo
  | date_validator o do => Hdate o do
  | array_validator item o ao => Harray item o ao (Validator_ind item)
  | object_validator schema o oo =>
      Hobject schema o oo
        ((fix fields (l : list (string * Validator))
            : Forall (fun kv => P (snd kv)) l :=
            match l with
            | [] => Forall_nil _
            | kv :: l' =>
                Forall_cons (P := fun kv => P (snd kv)) kv
                  (Validator_ind (snd kv)) (fields l')
            end) schema)
  | any_validator => Hany
  | nullable_validator w => Hnullable w (Validator_ind w)
  | union_validator l => Hunion l (members l)
  | union_with_message l m => Hunion_message l m (members l)
  end.

End ValidatorInduction.

(** ** The constructors of the classes

    [new C(options)] runs the constructor of [BaseValidator], which copies the
    options, and keeps the argument itself as the options of the class. *)

Definition new_StringValidator (options : StringValidatorOptions.t) : Validator :=
  string_validator options options.
Definition new_NumberValidator (options : NumberValidatorOptions.t) : Validator :=
  number_validator options options.
Definition new_BooleanValidator (options : BooleanValidatorOptions.t) : Validator :=
  boolean_validator options options.
Definition new_DateValidator (options : DateValidatorOptions.t) : Validator :=
  date_validator options options.
Definition new_ArrayValidator (itemValidator : Validator)
  (options : ArrayValidatorOptions.t) : Validator :=
  array_validator itemValidator options options.
Definition new_ObjectValidator (schema : list (string * Validator))
  (options : ObjectValidatorOptions.t) : Validator :=
  object_validator schema options options.

(** ** The two methods of the interface

    The string, number, boolean and date validators inherit both from
    [BaseValidator], which spreads [this.options]; the array and the object
    validator override them and spread the options of their class.  The
    combinators answer with a combinator built anew. *)

Definition optional (this : Validator) : Validator :=
  match this with
  | string_validator options _ =>
      new_StringValidator (StringValidatorOptions.set_optional options true)
  | number_validator options _ =>
      new_NumberValidator (NumberValidatorOptions.set_optional options true)
  | boolean_validator options _ =>
      new_BooleanValidator (BooleanValidatorOptions.set_optional options true)
  | date_validator options _ =>
      new_DateValidator (DateValidatorOptions.set_optional options true)
  | array_validator itemValidator _ arrayOptions =>
      new_ArrayValidator itemValidator
        (ArrayValidatorOptions.set_optional arrayOptions true)
  | object_validator schema _ objectOptions =>
      new_ObjectValidator schema
        (ObjectValidatorOptions.set_optional objectOptions true)
  | any_validator => any_validator
  | nullable_validator validator => nullable_validator validator
  | union_validator validators => union_validator validators
  | union_with_message validators _ => union_validator validators
  end.

Fixpoint withMessage (message : string) (this : Validator) : Validator :=
  match this with
  | string_validator options _ =>
      new_StringValidator (StringValidatorOptions.set_message options (Some message))
  | number_validator options _ =>
      new_NumberValidator (NumberValidatorOptions.set_message options (Some message))
  | boolean_validator options _ =>
      new_BooleanValidator (BooleanValidatorOptions.set_message options (Some message))
  | date_validator options _ =>
      new_DateValidator (DateValidatorOptions.set_message options (Some message))
  | array_validator itemValidator _ arrayOptions =>
      new_ArrayValidator itemValidator
        (ArrayValidatorOptions.set_message arrayOptions (Some message))
  | object_validator schema _ objectOptions =>
      new_ObjectValidator schema
        (ObjectValidatorOptions.set_message objectOptions (Some message))
  | any_validator => any_validator
  | nullable_validator validator => nullable_validator (withMessage message validator)
  | union_validator validators => union_with_message validators message
  | union_with_message validators _ => union_with_message validators message
  end.

(* ================================================================== *)
(** * validators/string-validator.ts *)
(* ================================================================== *)

Module StringValidator.
Module O := StringValidatorOptions.

(** [/^[a-zA-Z0-9._%+-]+@[a-zA-Z0-9.-]+\.[a-zA-Z]{2,}$/] *)
Definition emailRegex : Regex.t :=
  let local := Regex.any_of [Str.is_alpha; Str.is_digit; Str.is_char 46;
                             Str.is_char 95; Str.is_char 37; Str.is_char 43;
                             Str.is_char 45] in
  let domain := Regex.any_of [Str.is_alpha; Str.is_digit; Str.is_char 46;
                              Str.is_char 45] in
  let letter := Regex.Class Str.is_alpha in
  Regex.Seq (Regex.plus local)
    (Regex.Seq (Regex.chr 64)
       (Regex.Seq (Regex.plus domain)
          (Regex.Seq (Regex.chr 46)
             (Regex.Seq (Regex.times 2 letter) (Regex.Star letter))))).

(** [/^[0-9a-f]{8}-[0-9a-f]{4}-[1-5][0-9a-f]{3}-[89ab][0-9a-f]{3}-[0-9a-f]{12}$/i] *)
Definition uuidRegex : Regex.t :=
  let hex := Regex.any_of [Str.is_digit; Str.in_range 97 102; Str.in_range 65 70] in
  let version := Regex.Class (Str.in_range 49 53) in
  let variant := Regex.any_of [Str.in_range 56 57; Str.in_range 97 98;
                               Str.in_range 65 66] in
  let dash := Regex.chr 45 in
  Regex.Seq (Regex.times 8 hex)
    (Regex.Seq dash
       (Regex.Seq (Regex.times 4 hex)
          (Regex.Seq dash
             (Regex.Seq version
                (Regex.Seq (Regex.times 3 hex)
                   (Regex.Seq dash
                      (Regex.Seq variant
                         (Regex.Seq (Regex.times 3 hex)
                            (Regex.Seq dash (Regex.times 12 hex)))))))))).

Section Methods.
Context {host : Host}.

(** The URL check: the constructor must not throw, and the parsed URL must
    pass the test that follows it. *)
Definition invalid_url (stringValue : string) : bool :=
  match URL_parse stringValue with
  | None => true
  | Some url =>
      String.eqb (hostname url) EmptyString
      || String.eqb (protocol url) EmptyString
      || (negb (String.eqb (protocol url) "http:")
          && negb (String.eqb (protocol url) "https:"))
      || Str.endsWith (hostname url) "."
      || Str.startsWith (hostname url) "."
  end.

Definition invalid_email (stringValue : string) : bool :=
  negb (Regex.test emailRegex stringValue)
  || Str.includes stringValue ".."
  || Str.startsWith stringValue "."
  || Str.endsWith stringValue "."
  || Str.includes stringValue " ".

Definition validateValue (stringOptions : O.t) (value : JsValue) (path : string)
  : ValidationResult :=
  match value with
  | VString s =>
      let stringValue := if O.trim stringOptions then Str.trim s else s in
      let len := Num.of_nat (String.length stringValue) in
      let errors := [] in
      let errors :=
        match O.minLength stringOptions with
        | Some n =>
            push_if (Num.lt len n)
              (createError path
                 ("String must be at least " ++ Number_toString n
                  ++ " characters long")%string value) errors
        | None => errors
        end in
      let errors :=
        match O.maxLength stringOptions with
        | Some n =>
            push_if (Num.gt len n)
              (createError path
                 ("String must be at most " ++ Number_toString n
                  ++ " characters long")%string value) errors
        | None => errors
        end in
      let errors :=
        match O.pattern stringOptions with
        | Some test =>
            push_if (negb (test stringValue))
              (createError path "String does not match required pattern" value)
              errors
        | None => errors
        end in
      let errors :=
        push_if (O.email stringOptions && invalid_email stringValue)
          (createError path "Invalid email format" value) errors in
      let errors :=
        push_if (O.url stringOptions && invalid_url stringValue)
          (createError path "Invalid URL format" value) errors in
      let errors :=
        push_if (O.uuid stringOptions && negb (Regex.test uuidRegex stringValue))
          (createError path "Invalid UUID format" value) errors in
      finish errors (VString stringValue)
  | _ =>
      createFailure
        [createError path ("Expected string, received " ++ typeof value)%string value]
  end.

End Methods.
(** The configuration methods.  Each returns
    [new StringValidator({ ...this.stringOptions, ... })]; a method is called
    on a validator of its class only, and the definitions leave any other
    receiver as it is. *)

Definition minLength (length : Num.t) (this : Validator) : Validator :=
  match this with
  | string_validator _ stringOptions =>
      new_StringValidator (O.set_minLength stringOptions (Some length))
  | _ => this
  end.

Definition maxLength (length : Num.t) (this : Validator) : Validator :=
  match this with
  | string_validator _ stringOptions =>
      new_StringValidator (O.set_maxLength stringOptions (Some length))
  | _ => this
  end.

Definition length (min max : Num.t) (this : Validator) : Validator :=
  match this with
  | string_validator _ stringOptions =>
      new_StringValidator
        (O.set_maxLength (O.set_minLength stringOptions (Some min)) (Some max))
  | _ => this
  end.

Definition pattern (pattern : RegExp) (this : Validator) : Validator :=
  match this with
  | string_validator _ stringOptions =>
      new_StringValidator (O.set_pattern stringOptions (Some pattern))
  | _ => this
  end.

Definition trim (this : Validator) : Validator :=
  match this with
  | string_validator _ stringOptions =>
      new_StringValidator (O.set_trim stringOptions true)
  | _ => this
  end.

Definition email (this : Validator) : Validator :=
  match this with
  | string_validator _ stringOptions =>
      new_StringValidator (O.set_email stringOptions true)
  | _ => this
  end.

Definition url (this : Validator) : Validator :=
  match this with
  | string_validator _ stringOptions =>
      new_StringValidator (O.set_url stringOptions true)
  | _ => this
  end.

Definition uuid (this : Validator) : Validator :=
  match this with
  | string_validator _ stringOptions =>
      new_StringValidator (O.set_uuid stringOptions true)
  | _ => this
  end.

End StringValidator.

(* ================================================================== *)
(** * validators/number-validator.ts *)
(* ================================================================== *)

Module NumberValidator.
Module O := NumberValidatorOptions.

Section Methods.
Context {host : Host}.

Definition validateValue (numberOptions : O.t) (value : JsValue) (path : string)
  : ValidationResult :=
  match value with
  | VNumber n =>
      if Num.isNaN n then
        createFailure
          [createError path "Value must be a valid number (not NaN)" value]
      else
        let errors := [] in
        let errors :=
          push_if (O.finite numberOptions && negb (Num.isFinite n))
            (createError path "Number must be finite" value) errors in
        let errors :=
          match O.min numberOptions with
          | Some m =>
              push_if (Num.lt n m)
                (createError path
                   ("Number must be at least " ++ Number_toString m)%string value)
                errors
          | None => errors
          end in
        let errors :=
          match O.max numberOptions with
          | Some m =>
              push_if (Num.gt n m)
                (createError path
                   ("Number must be at most " ++ Number_toString m)%string value)
                errors
          | None => errors
          end in
        let errors :=
          push_if (O.integer numberOptions && negb (Num.isInteger n))
            (createError path "Number must be an integer" value) errors in
        let errors :=
          push_if (O.positive numberOptions && Num.le n Num.zero)
            (createError path "Number must be positive" value) errors in
        let errors :=
          push_if (O.negative numberOptions && Num.ge n Num.zero)
            (createError path "Number must be negative" value) errors in
        let errors :=
          match O.multipleOf numberOptions with
          | Some m =>
              push_if (negb (Num.eq (Num.rem n m) Num.zero))
                (createError path
                   ("Number must be a multiple of " ++ Number_toString m)%string
                   value) errors
          | None => errors
          end in
        finish errors value
  | _ =>
      createFailure
        [createError path ("Expected number, received " ++ typeof value)%string value]
  end.

End Methods.
(** The configuration methods: [new NumberValidator({ ...this.numberOptions, ... })]. *)

Definition min (min : Num.t) (this : Validator) : Validator :=
  match this with
  | number_validator _ numberOptions =>
      new_NumberValidator (O.set_min numberOptions (Some min))
  | _ => this
  end.

Definition max (max : Num.t) (this : Validator) : Validator :=
  match this with
  | number_validator _ numberOptions =>
      new_NumberValidator (O.set_max numberOptions (Some max))
  | _ => this
  end.

Definition range (min max : Num.t) (this : Validator) : Validator :=
  match this with
  | number_validator _ numberOptions =>
      new_NumberValidator (O.set_max (O.set_min numberOptions (Some min)) (Some max))
  | _ => this
  end.

Definition integer (this : Validator) : Validator :=
  match this with
  | number_validator _ numberOptions =>
      new_NumberValidator (O.set_integer numberOptions true)
  | _ => this
  end.

Definition positive (this : Validator) : Validator :=
  match this with
  | number_validator _ numberOptions =>
      new_NumberValidator (O.set_positive numberOptions true)
  | _ => this
  end.

Definition negative (this : Validator) : Validator :=
  match this with
  | number_validator _ numberOptions =>
      new_NumberValidator (O.set_negative numberOptions true)
  | _ => this
  end.

Definition finite (this : Validator) : Validator :=
  match this with
  | number_validator _ numberOptions =>
      new_NumberValidator (O.set_finite numberOptions true)
  | _ => this
  end.

Definition multipleOf (divisor : Num.t) (this : Validator) : Validator :=
  match this with
  | number_validator _ numberOptions =>
      new_NumberValidator (O.set_multipleOf numberOptions (Some divisor))
  | _ => this
  end.

End NumberValidator.

(* ================================================================== *)
(** * validators/boolean-validator.ts *)
(* ================================================================== *)

Module BooleanValidator.

(** The strings the default mode converts, after [toLowerCase] and [trim]. *)
Definition true_word (lowerValue : string) : bool :=
  String.eqb lowerValue "true" || String.eqb lowerValue "1"
  || String.eqb lowerValue "yes" || String.eqb lowerValue "on".

Definition false_word (lowerValue : string) : bool :=
  String.eqb lowerValue "false" || String.eqb lowerValue "0"
  || String.eqb lowerValue "no" || String.eqb lowerValue "off".

Definition cannot_convert (value : JsValue) (path : string) : ValidationResult :=
  createFailure
    [createError path ("Cannot convert " ++ typeof value ++ " to boolean")%string value].

Definition validateValue (booleanOptions : BooleanValidatorOptions.t)
  (value : JsValue) (path : string) : ValidationResult :=
  if BooleanValidatorOptions.strict booleanOptions then
    match value with
    | VBoolean _ => createSuccess value
    | _ =>
        createFailure
          [createError path
             ("Expected boolean, received " ++ typeof value)%string value]
    end
  else if BooleanValidatorOptions.truthy booleanOptions then
    createSuccess (VBoolean (truthy value))
  else
    match value with
    | VBoolean _ => createSuccess value
    | VString s =>
        let lowerValue := Str.trim (Str.toLowerCase s) in
        if true_word lowerValue then createSuccess (VBoolean true)
        else if false_word lowerValue then createSuccess (VBoolean false)
        else cannot_convert value path
    | VNumber n =>
        if Num.eq n Num.one then createSuccess (VBoolean true)
        else if Num.eq n Num.zero then createSuccess (VBoolean false)
        else cannot_convert value path
    | _ => cannot_convert value path
    end.

(** The configuration methods: [new BooleanValidator({ ...this.booleanOptions, ... })]. *)

Definition strict (this : Validator) : Validator :=
  match this with
  | boolean_validator _ booleanOptions =>
      new_BooleanValidator (BooleanValidatorOptions.set_strict booleanOptions true)
  | _ => this
  end.

Definition truthy (this : Validator) : Validator :=
  match this with
  | boolean_validator _ booleanOptions =>
      new_BooleanValidator (BooleanValidatorOptions.set_truthy booleanOptions true)
  | _ => this
  end.

End BooleanValidator.

(* ================================================================== *)
(** * validators/date-validator.ts *)
(* ================================================================== *)

Module DateValidator.
Module O := DateValidatorOptions.

(** [/^\d{4}-\d{2}-\d{2}T\d{2}:\d{2}:\d{2}(\.\d{3})?Z?$/] *)
Definition isoRegex : Regex.t :=
  let d2 := Regex.times 2 Regex.digit in
  Regex.Seq (Regex.times 4 Regex.digit)
    (Regex.Seq (Regex.chr 45)
       (Regex.Seq d2
          (Regex.Seq (Regex.chr 45)
             (Regex.Seq d2
                (Regex.Seq (Regex.chr 84)
                   (Regex.Seq d2
                      (Regex.Seq (Regex.chr 58)
                         (Regex.Seq d2
                            (Regex.Seq (Regex.chr 58)
                               (Regex.Seq d2
                                  (Regex.Seq
                                     (Regex.opt
                                        (Regex.Seq (Regex.chr 46)
                                           (Regex.times 3 Regex.digit)))
                                     (Regex.opt (Regex.chr 90))))))))))))).

(** [/^\d+$/] *)
Definition digitsRegex : Regex.t := Regex.plus Regex.digit.

(** [/^[a-zA-Z\s]+$/] *)
Definition wordsRegex : Regex.t :=
  Regex.plus (Regex.any_of [Str.is_alpha; Str.is_space]).

(** [/\d/.test(s)]: some character of [s] is a digit. *)
Definition has_digit (s : string) : bool := existsb Str.is_digit (Str.chars s).

Definition invalid_date (value : JsValue) (path : string) : ValidationResult :=
  createFailure [createError path "Invalid date" value].

(** The format check that runs first; [Some r] is its early return. *)
Definition check_format (dateOptions : O.t) (value : JsValue) (path : string)
  : option ValidationResult :=
  match O.format dateOptions with
  | Some O.iso =>
      let failure :=
        createFailure
          [createError path
             "Date must be in ISO format (YYYY-MM-DDTHH:mm:ss.sssZ)" value] in
      match value with
      | VString s => if negb (Regex.test isoRegex s) then Some failure else None
      | _ => Some failure
      end
  | Some O.timestamp =>
      match value with
      | VNumber _ => None
      | VString s =>
          if Regex.test digitsRegex s then None
          else Some (createFailure
                       [createError path "Date must be a valid timestamp" value])
      | _ => Some (createFailure
                     [createError path "Date must be a valid timestamp" value])
      end
  | Some O.string_ | None => None
  end.

(** The strings rejected before a date is constructed. *)
Definition clearly_invalid (s : string) : bool :=
  String.eqb (Str.trim s) EmptyString
  || String.eqb s "invalid"
  || String.eqb s "not-a-date"
  || String.eqb s "not a date"
  || String.eqb s "invalid-date"
  || Regex.test wordsRegex (Str.trim s).

(** The test on the month and the day of a string with dashes.  A comparison
    with NaN is false, as in the language. *)
Definition impossible_parts (originalString : string) : bool :=
  if Str.includes originalString "-" then
    match Str.split originalString (ascii_of_nat 45) with
    | _ :: part1 :: part2 :: _ =>
        let month := parseInt part1 None in
        let day := parseInt part2 None in
        (Num.gt month (Num.of_Z 12) || Num.lt month (Num.of_Z 1)
         || Num.gt day (Num.of_Z 31) || Num.lt day (Num.of_Z 1))
        || (Num.eq month (Num.of_Z 2) && Num.gt day (Num.of_Z 29))
    | _ => false
    end
  else false.

Section Methods.
Context {host : Host}.

(** The conversion of the value to a date; [inr r] is an early return. *)
Definition to_date (dateOptions : O.t) (value : JsValue) (path : string)
  : JsDate.t + ValidationResult :=
  match value with
  | VDate d => inl d
  | VString s =>
      match O.format dateOptions with
      | None =>
          if clearly_invalid s then inr (invalid_date value path)
          else inl (Date_parse s)
      | Some O.timestamp =>
          let numericValue := parseInt s (Some 10%Z) in
          inl (JsDate.of_number numericValue)
      | Some _ => inl (Date_parse s)
      end
  | VNumber n => inl (JsDate.of_number n)
  | _ =>
      inr (createFailure
             [createError path
                ("Expected Date, string, or number, received " ++ typeof value)%string
                value])
  end.

(** The checks on a string that gave a valid date, when no format is set. *)
Definition implausible_string (dateOptions : O.t) (value : JsValue) : bool :=
  match value, O.format dateOptions with
  | VString s, None =>
      if String.eqb (Str.trim s) EmptyString then false
      else
        let originalString := Str.trim s in
        ((String.length originalString <? 4)%nat
         || negb (has_digit originalString)
         || String.eqb originalString "Invalid Date")
        || impossible_parts originalString
  | _, _ => false
  end.

Definition validateValue (dateOptions : O.t) (value : JsValue) (path : string)
  : ValidationResult :=
  match check_format dateOptions value path with
  | Some failure => failure
  | None =>
      match to_date dateOptions value path with
      | inr failure => failure
      | inl dateValue =>
          if JsDate.isInvalid dateValue then invalid_date value path
          else if implausible_string dateOptions value then invalid_date value path
          else
            let errors := [] in
            let errors :=
              match O.min dateOptions with
              | Some m =>
                  push_if (JsDate.lt dateValue m)
                    (createError path
                       ("Date must be after "
                        ++ match m with
                           | JsDate.At ms => Date_toISOString ms
                           | JsDate.Invalid => EmptyString
                           end)%string value) errors
              | None => errors
              end in
            let errors :=
              match O.max dateOptions with
              | Some m =>
                  push_if (JsDate.gt dateValue m)
                    (createError path
                       ("Date must be before "
                        ++ match m with
                           | JsDate.At ms => Date_toISOString ms
                           | JsDate.Invalid => EmptyString
                           end)%string value) errors
              | None => errors
              end in
            finish errors (VDate dateValue)
      end
  end.

End Methods.
(** The configuration methods: [new DateValidator({ ...this.dateOptions, ... })].
    [past] and [future] read the clock ([new Date()]); the date they read is
    the argument [now]. *)

Definition min (min : JsDate.t) (this : Validator) : Validator :=
  match this with
  | date_validator _ dateOptions =>
      new_DateValidator (O.set_min dateOptions (Some min))
  | _ => this
  end.

Definition max (max : JsDate.t) (this : Validator) : Validator :=
  match this with
  | date_validator _ dateOptions =>
      new_DateValidator (O.set_max dateOptions (Some max))
  | _ => this
  end.

Definition range (min max : JsDate.t) (this : Validator) : Validator :=
  match this with
  | date_validator _ dateOptions =>
      new_DateValidator (O.set_max (O.set_min dateOptions (Some min)) (Some max))
  | _ => this
  end.

Definition past (now : JsDate.t) (this : Validator) : Validator :=
  match this with
  | date_validator _ dateOptions =>
      new_DateValidator (O.set_max dateOptions (Some now))
  | _ => this
  end.

Definition future (now : JsDate.t) (this : Validator) : Validator :=
  match this with
  | date_validator _ dateOptions =>
      new_DateValidator (O.set_min dateOptions (Some now))
  | _ => this
  end.

Definition iso (this : Validator) : Validator :=
  match this with
  | date_validator _ dateOptions =>
      new_DateValidator (O.set_format dateOptions (Some O.iso))
  | _ => this
  end.

Definition timestamp (this : Validator) : Validator :=
  match this with
  | date_validator _ dateOptions =>
      new_DateValidator (O.set_format dateOptions (Some O.timestamp))
  | _ => this
  end.

End DateValidator.

(* ================================================================== *)
(** * validators/array-validator.ts *)
(* ================================================================== *)

(** What a validator is to the code that holds one: its [validate] method. *)
Definition validate_fn := JsValue -> string -> ValidationResult.

Module ArrayValidator.
Module O := ArrayValidatorOptions.

(** [`${path}[${i}]`] *)
Definition itemPath (path : string) (i : nat) : string :=
  (path ++ "[" ++ Str.of_nat i ++ "]")%string.

(** The loop over the items: the errors of the items that fail, and the data
    of the items that pass with data, both in index order. *)
Fixpoint validate_items (itemValidator : validate_fn) (path : string) (i : nat)
  (items : list JsValue) (errors : list ValidationError)
  (validatedItems : list JsValue) : list ValidationError * list JsValue :=
  match items with
  | [] => (errors, validatedItems)
  | item :: rest =>
      let itemResult := itemValidator item (itemPath path i) in
      if negb (isValid itemResult) then
        validate_items itemValidator path (S i) rest
          (errors ++ Types.errors itemResult) validatedItems
      else if has_data itemResult then
        validate_items itemValidator path (S i) rest errors
          (validatedItems ++ [read_data itemResult])
      else
        validate_items itemValidator path (S i) rest errors validatedItems
  end.

(** Membership in a [Set] of keys; a key is never an object. *)
Definition same_key (a b : JsValue) : bool :=
  match a, b with
  | VUndefined, VUndefined => true
  | VNull, VNull => true
  | VBoolean x, VBoolean y => Bool.eqb x y
  | VNumber x, VNumber y => Num.same x y
  | VString x, VString y => String.eqb x y
  | _, _ => false
  end.

Definition set_has (seen : list JsValue) (key : JsValue) : bool :=
  existsb (same_key key) seen.

Section Methods.
Context {host : Host}.

(** [typeof item === "object" && item !== null ? JSON.stringify(item) : item] *)
Definition key_of (item : JsValue) : JsValue :=
  match item with
  | VDate _ | VArray _ | VObject _ | VObjectOver _ _ =>
      match JSON.stringify item with
      | Some s => VString s
      | None => VUndefined
      end
  | _ => item
  end.

(** The scan for duplicates: the indices, in [validatedItems], of the items
    whose key was seen before. *)
Fixpoint find_duplicates (i : nat) (validatedItems : list JsValue)
  (seen : list JsValue) (duplicates : list nat) : list nat :=
  match validatedItems with
  | [] => duplicates
  | item :: rest =>
      let key := key_of item in
      if set_has seen key
      then find_duplicates (S i) rest seen (duplicates ++ [i])
      else find_duplicates (S i) rest (seen ++ [key]) duplicates
  end.

Definition duplicate_error (path : string) (validatedItems : list JsValue)
  (indexNumber : nat) : ValidationError :=
  createError (itemPath path indexNumber) "Array items must be unique"
    (nth indexNumber validatedItems VUndefined).

(** The checks on the length of the array. *)
Definition length_errors (arrayOptions : O.t) (value : JsValue)
  (items : list JsValue) (path : string) : list ValidationError :=
  let len := Num.of_nat (List.length items) in
  let errors := [] in
  let errors :=
    match O.minLength arrayOptions with
    | Some n =>
        push_if (Num.lt len n)
          (createError path
             ("Array must have at least " ++ Number_toString n ++ " items")%string
             value) errors
    | None => errors
    end in
  let errors :=
    match O.maxLength arrayOptions with
    | Some n =>
        push_if (Num.gt len n)
          (createError path
             ("Array must have at most " ++ Number_toString n ++ " items")%string
             value) errors
    | None => errors
    end in
  push_if (O.noEmpty arrayOptions && (List.length items =? 0)%nat)
    (createError path "Array cannot be empty" value) errors.

Definition validateValue (itemValidator : validate_fn) (arrayOptions : O.t)
  (value : JsValue) (path : string) : ValidationResult :=
  match value with
  | VArray items =>
      let errors := length_errors arrayOptions value items path in
      let '(errors, validatedItems) :=
        validate_items itemValidator path 0 items errors [] in
      let errors :=
        if O.unique arrayOptions && negb (List.length validatedItems =? 0)%nat then
          let duplicates := find_duplicates 0 validatedItems [] [] in
          errors ++ map (duplicate_error path validatedItems) duplicates
        else errors in
      finish errors (VArray validatedItems)
  | _ =>
      createFailure
        [createError path ("Expected array, received " ++ typeof value)%string value]
  end.

End Methods.
(** The configuration methods:
    [new ArrayValidator(this.itemValidator, { ...this.arrayOptions, ... })]. *)

Definition minLength (length : Num.t) (this : Validator) : Validator :=
  match this with
  | array_validator itemValidator _ arrayOptions =>
      new_ArrayValidator itemValidator (O.set_minLength arrayOptions (Some length))
  | _ => this
  end.

Definition maxLength (length : Num.t) (this : Validator) : Validator :=
  match this with
  | array_validator itemValidator _ arrayOptions =>
      new_ArrayValidator itemValidator (O.set_maxLength arrayOptions (Some length))
  | _ => this
  end.

Definition length (min max : Num.t) (this : Validator) : Validator :=
  match this with
  | array_validator itemValidator _ arrayOptions =>
      new_ArrayValidator itemValidator
        (O.set_maxLength (O.set_minLength arrayOptions (Some min)) (Some max))
  | _ => this
  end.

Definition unique (this : Validator) : Validator :=
  match this with
  | array_validator itemValidator _ arrayOptions =>
      new_ArrayValidator itemValidator (O.set_unique arrayOptions true)
  | _ => this
  end.

Definition noEmpty (this : Validator) : Validator :=
  match this with
  | array_validator itemValidator _ arrayOptions =>
      new_ArrayValidator itemValidator (O.set_noEmpty arrayOptions true)
  | _ => this
  end.

End ArrayValidator.

(* ================================================================== *)
(** * validators/object-validator.ts *)
(* ================================================================== *)

Module ObjectValidator.
Module O := ObjectValidatorOptions.

(** [path === "root" ? key : `${path}.${key}`] *)
Definition fieldPath (path key : string) : string :=
  if String.eqb path "root" then key else (path ++ "." ++ key)%string.

(** The loop over the entries of the schema; [props] are the properties that
    a read of the value finds. *)
Fixpoint validate_fields (schema : list (string * validate_fn))
  (props : list (string * JsValue)) (path : string)
  (errors : list ValidationError) (validatedObject : JsObject)
  : list ValidationError * JsObject :=
  match schema with
  | [] => (errors, validatedObject)
  | (key, validator) :: rest =>
      let fieldValue := get props key in
      let fieldResult := validator fieldValue (fieldPath path key) in
      if negb (isValid fieldResult) then
        validate_fields rest props path
          (errors ++ Types.errors fieldResult) validatedObject
      else if has_data fieldResult then
        validate_fields rest props path errors
          (set_property validatedObject key (read_data fieldResult))
      else
        validate_fields rest props path errors validatedObject
  end.

(** The keys of the value that the schema does not declare, in the order of
    [Object.keys(value)]. *)
Definition extra_keys (schemaKeys : list string) (props : list (string * JsValue))
  : list string :=
  filter (fun key => negb (has_key schemaKeys key)) (keys props).

Definition unexpected (props : list (string * JsValue)) (path key : string)
  : ValidationError :=
  createError (fieldPath path key)
    ("Unexpected property " ++ Str.dquote ++ key ++ Str.dquote)%string
    (get props key).

(** The copy of the additional properties in non-strict mode:
    [validatedObject[key] = value[key]] for each of them. *)
Definition copy_extra (props : list (string * JsValue)) (extra : list string)
  (validatedObject : JsObject) : JsObject :=
  fold_left (fun acc key => set_property acc key (get props key)) extra
    validatedObject.

(** The body of [validateValue] for a value that is an object and not an
    array, given the properties [readable] that a read of the value finds
    and its own properties [props]. *)
Definition validate_props (schema : list (string * validate_fn))
  (objectOptions : O.t) (readable props : list (string * JsValue)) (path : string)
  : ValidationResult :=
  let '(errors, validatedObject) :=
    validate_fields schema readable path [] empty_object in
  let extra := extra_keys (keys schema) props in
  if O.strict objectOptions then
    finish (errors ++ map (unexpected props path) extra)
      (object_value validatedObject)
  else
    finish errors (object_value (copy_extra props extra validatedObject)).

Definition validateValue (schema : list (string * validate_fn))
  (objectOptions : O.t) (value : JsValue) (path : string) : ValidationResult :=
  match value with
  | VNull =>
      if O.allowNull objectOptions then createSuccess VNull
      else createFailure [createError path "Object cannot be null" value]
  | VObject props => validate_props schema objectOptions props props path
  | VObjectOver proto props =>
      validate_props schema objectOptions (props ++ chain_properties proto) props
        path
  | VDate _ => validate_props schema objectOptions [] [] path
  | _ =>
      createFailure
        [createError path
           ("Expected object, received "
            ++ match value with
               | VArray _ => "array"
               | _ => typeof value
               end)%string value]
  end.

(** The configuration methods.  [strict], [partial] and [allowNull] spread
    the options of the receiver into new options; [pick], [omit] and [extend]
    pass [this.objectOptions] itself to the constructor. *)

Definition strict (this : Validator) : Validator :=
  match this with
  | object_validator schema _ objectOptions =>
      new_ObjectValidator schema (O.set_strict objectOptions true)
  | _ => this
  end.

Definition partial (this : Validator) : Validator :=
  match this with
  | object_validator schema _ objectOptions =>
      let partialSchema := map (fun kv => (fst kv, optional (snd kv))) schema in
      new_ObjectValidator partialSchema (O.set_partial objectOptions true)
  | _ => this
  end.

Definition allowNull (this : Validator) : Validator :=
  match this with
  | object_validator schema _ objectOptions =>
      new_ObjectValidator schema (O.set_allowNull objectOptions true)
  | _ => this
  end.

Definition pick (keys : list string) (this : Validator) : Validator :=
  match this with
  | object_validator schema _ objectOptions =>
      new_ObjectValidator (pick_schema schema keys) objectOptions
  | _ => this
  end.

Definition omit (keys : list string) (this : Validator) : Validator :=
  match this with
  | object_validator schema _ objectOptions =>
      new_ObjectValidator (omit_schema schema keys) objectOptions
  | _ => this
  end.

Definition extend (extension : list (string * Validator)) (this : Validator)
  : Validator :=
  match this with
  | object_validator schema _ objectOptions =>
      new_ObjectValidator (extend_schema schema extension) objectOptions
  | _ => this
  end.

End ObjectValidator.

(* ================================================================== *)
(** * schema.ts and the method [validate] *)
(* ================================================================== *)

Module Schema.

(** [validate] of [Schema.any()] *)
Definition any_validate : validate_fn :=
  fun value _ => {| isValid := true; data := Some value; errors := [] |}.

(** [validate] of [Schema.nullable(validator)] *)
Definition nullable_validate (validator : validate_fn) : validate_fn :=
  fun value path =>
    if is_absent value
    then {| isValid := true; data := Some VNull; errors := [] |}
    else validator value path.

(** The loop of [Schema.union(validators)]: the result of the first validator
    that accepts the value.  The loop also gathers the errors of the
    validators that reject it, in a local array that nothing reads. *)
Fixpoint first_valid (validators : list validate_fn) (value : JsValue)
  (path : string) : option ValidationResult :=
  match validators with
  | [] => None
  | validator :: rest =>
      let result := validator value path in
      if isValid result then Some result else first_valid rest value path
  end.

Definition no_match (value : JsValue) (path : string) : ValidationResult :=
  {| isValid := false;
     data := None;
     errors := [ {| path := path;
                    message := "Value does not match any of the union types";
                    value := value |} ] |}.

(** [validate] of [Schema.union(validators)] *)
Definition union_validate (validators : list validate_fn) : validate_fn :=
  fun value path =>
    match first_valid validators value path with
    | Some result => result
    | None => no_match value path
    end.

(** [validate] of [Schema.union(validators).withMessage(message)] *)
Definition union_message_validate (validators : list validate_fn)
  (message : string) : validate_fn :=
  fun value path =>
    let result := union_validate validators value path in
    if negb (isValid result)
    then {| isValid := isValid result;
            data := data result;
            errors := map (with_message message) (errors result) |}
    else result.

(** The factory. *)

Definition string : Validator := new_StringValidator StringValidatorOptions.empty.
Definition number : Validator := new_NumberValidator NumberValidatorOptions.empty.
Definition boolean : Validator := new_BooleanValidator BooleanValidatorOptions.empty.
Definition date : Validator := new_DateValidator DateValidatorOptions.empty.
Definition array (itemValidator : Validator) : Validator :=
  new_ArrayValidator itemValidator ArrayValidatorOptions.empty.
Definition object (schema : list (String.string * Validator)) : Validator :=
  new_ObjectValidator schema ObjectValidatorOptions.empty.
Definition any : Validator := any_validator.
Definition nullable (validator : Validator) : Validator := nullable_validator validator.
Definition union (validators : list Validator) : Validator := union_validator validators.

End Schema.

Section Validate.
Context {host : Host}.

(** [validator.validate(value, path)].  The parameter [path] has the default
    ["root"]; [validate_root] is the call without it. *)
Fixpoint validate (this : Validator) : validate_fn :=
  match this with
  | string_validator options stringOptions =>
      BaseValidator.validate (StringValidatorOptions.base options)
        (StringValidator.validateValue stringOptions)
  | number_validator options numberOptions =>
      BaseValidator.validate (NumberValidatorOptions.base options)
        (NumberValidator.validateValue numberOptions)
  | boolean_validator options booleanOptions =>
      BaseValidator.validate (BooleanValidatorOptions.base options)
        (BooleanValidator.validateValue booleanOptions)
  | date_validator options dateOptions =>
      BaseValidator.validate (DateValidatorOptions.base options)
        (DateValidator.validateValue dateOptions)
  | array_validator itemValidator options arrayOptions =>
      BaseValidator.validate (ArrayValidatorOptions.base options)
        (ArrayValidator.validateValue (validate itemValidator) arrayOptions)
  | object_validator schema options objectOptions =>
      BaseValidator.validate (ObjectValidatorOptions.base options)
        (ObjectValidator.validateValue
           (map (fun kv => (fst kv, validate (snd kv))) schema) objectOptions)
  | any_validator => Schema.any_validate
  | nullable_validator validator => Schema.nullable_validate (validate validator)
  | union_validator validators => Schema.union_validate (map validate validators)
  | union_with_message validators message =>
      Schema.union_message_validate (map validate validators) message
  end.

Definition validate_root (this : Validator) (value : JsValue) : ValidationResult :=
  validate this value "root".

End Validate.

(* ================================================================== *)
(** * A host to run examples on *)
(* ================================================================== *)

(** Integers are printed in decimal; [YYYY-MM-DD] is parsed as the language
    does, rolling a day past the end of its month into the next month; a URL
    is split at [://] and at the first slash after it. *)
Module SampleHost.

Definition print_Z (z : Z) : string :=
  if (z <? 0)%Z then ("-" ++ Str.of_nat (Z.to_nat (- z)))%string
  else Str.of_nat (Z.to_nat z).

Definition Number_toString (n : Num.t) : string :=
  match n with
  | Num.NaN => "NaN"
  | Num.Infinity negative => if negative then "-Infinity" else "Infinity"
  | Num.Finite q =>
      if Num.isInteger n then print_Z (Num.trunc q)
      else (print_Z (Qnum q) ++ "/" ++ Str.of_nat (Pos.to_nat (Qden q)))%string
  end.

(** Days from the epoch to the first of a month (Gregorian calendar). *)
Definition days_from_civil (y m d : Z) : Z :=
  let y := if (m <=? 2)%Z then (y - 1)%Z else y in
  let era := (y / 400)%Z in
  let yoe := (y - era * 400)%Z in
  let mp := ((m + 9) mod 12)%Z in
  let doy := ((153 * mp + 2) / 5 + d - 1)%Z in
  let doe := (yoe * 365 + yoe / 4 - yoe / 100 + doy)%Z in
  (era * 146097 + doe - 719468)%Z.

Definition number_of (l : list ascii) : option Z :=
  if forallb Str.is_digit l then Str.read_digits 10 l None else None.

Definition Date_parse (s : string) : JsDate.t :=
  match Str.split_chars (ascii_of_nat 45) (Str.chars s) with
  | [y; m; d] =>
      match number_of y, number_of m, number_of d with
      | Some y, Some m, Some d =>
          if (List.length (Str.chars s) =? 10)%nat
             && (1 <=? m)%Z && (m <=? 12)%Z && (1 <=? d)%Z && (d <=? 31)%Z
          then JsDate.At (days_from_civil y m d * 86400000)
          else JsDate.Invalid
      | _, _, _ => JsDate.Invalid
      end
  | _ => JsDate.Invalid
  end.

Definition Date_toISOString (ms : Z) : string :=
  ("epoch+" ++ print_Z ms ++ "ms")%string.

Fixpoint split_at_slashes (l acc : list ascii) : option (list ascii * list ascii) :=
  match l with
  | c0 :: ((c1 :: c2 :: rest) as l') =>
      if Str.is_char 58 c0 && Str.is_char 47 c1 && Str.is_char 47 c2
      then Some (rev (c0 :: acc), rest)
      else split_at_slashes l' (c0 :: acc)
  | _ => None
  end.

Definition URL_parse (s : string) : option URL :=
  match split_at_slashes (Str.chars s) [] with
  | Some (scheme, rest) =>
      let host := Str.take_while (fun c => negb (Str.is_char 47 c)) rest in
      match scheme, host with
      | _ :: _ :: _, _ :: _ =>
          Some {| protocol := Str.toLowerCase (Str.of_chars scheme);
                  hostname := Str.toLowerCase (Str.of_chars host) |}
      | _, _ => None
      end
  | None => None
  end.

Definition host : Host :=
  Build_Host Date_parse Date_toISOString URL_parse Number_toString.

End SampleHost.

(* ================================================================== *)
(** * Calls of configuration methods *)
(* ================================================================== *)

(** A call of a configuration method with its arguments.  [V] is the type of
    the validators handed to [extend]. *)
Inductive Call (V : Type) :=
| call_optional
| call_withMessage (message : string)
| string_minLength (length : Num.t)
| string_maxLength (length : Num.t)
| string_length (min max : Num.t)
| string_pattern (pattern : RegExp)
| string_trim
| string_email
| string_url
| string_uuid
| number_min (min : Num.t)
| number_max (max : Num.t)
| number_range (min max : Num.t)
| number_integer
| number_positive
| number_negative
| number_finite
| number_multipleOf (divisor : Num.t)
| boolean_strict
| boolean_truthy
| date_min (min : JsDate.t)
| date_max (max : JsDate.t)
| date_range (min max : JsDate.t)
| date_past (now : JsDate.t)
| date_future (now : JsDate.t)
| date_iso
| date_timestamp
| array_minLength (length : Num.t)
| array_maxLength (length : Num.t)
| array_length (min max : Num.t)
| array_unique
| array_noEmpty
| object_strict
| object_partial
| object_allowNull
| object_pick (keys : list string)
| object_omit (keys : list string)
| object_extend (extension : list (string * V)).

Arguments call_optional {V}.
Arguments call_withMessage {V} message.
Arguments string_minLength {V} length.
Arguments string_maxLength {V} length.
Arguments string_length {V} min max.
Arguments string_pattern {V} pattern.
Arguments string_trim {V}.
Arguments string_email {V}.
Arguments string_url {V}.
Arguments string_uuid {V}.
Arguments number_min {V} min.
Arguments number_max {V} max.
Arguments number_range {V} min max.
Arguments number_integer {V}.
Arguments number_positive {V}.
Arguments number_negative {V}.
Arguments number_finite {V}.
Arguments number_multipleOf {V} divisor.
Arguments boolean_strict {V}.
Arguments boolean_truthy {V}.
Arguments date_min {V} min.
Arguments date_max {V} max.
Arguments date_range {V} min max.
Arguments date_past {V} now.
Arguments date_future {V} now.
Arguments date_iso {V}.
Arguments date_timestamp {V}.
Arguments array_minLength {V} length.
Arguments array_maxLength {V} length.
Arguments array_length {V} min max.
Arguments array_unique {V}.
Arguments array_noEmpty {V}.
Arguments object_strict {V}.
Arguments object_partial {V}.
Arguments object_allowNull {V}.
Arguments object_pick {V} keys.
Arguments object_omit {V} keys.
Arguments object_extend {V} extension.

(** The validator that a call returns. *)
Definition apply_call (c : Call Validator) (this : Validator) : Validator :=
  match c with
  | call_optional => optional this
  | call_withMessage m => withMessage m this
  | string_minLength n => StringValidator.minLength n this
  | string_maxLength n => StringValidator.maxLength n this
  | string_length a b => StringValidator.length a b this
  | string_pattern r => StringValidator.pattern r this
  | string_trim => StringValidator.trim this
  | string_email => StringValidator.email this
  | string_url => StringValidator.url this
  | string_uuid => StringValidator.uuid this
  | number_min n => NumberValidator.min n this
  | number_max n => NumberValidator.max n this
  | number_range a b => NumberValidator.range a b this
  | number_integer => NumberValidator.integer this
  | number_positive => NumberValidator.positive this
  | number_negative => NumberValidator.negative this
  | number_finite => NumberValidator.finite this
  | number_multipleOf n => NumberValidator.multipleOf n this
  | boolean_strict => BooleanValidator.strict this
  | boolean_truthy => BooleanValidator.truthy this
  | date_min d => DateValidator.min d this
  | date_max d => DateValidator.max d this
  | date_range a b => DateValidator.range a b this
  | date_past now => DateValidator.past now this
  | date_future now => DateValidator.future now this
  | date_iso => DateValidator.iso this
  | date_timestamp => DateValidator.timestamp this
  | array_minLength n => ArrayValidator.minLength n this
  | array_maxLength n => ArrayValidator.maxLength n this
  | array_length a b => ArrayValidator.length a b this
  | array_unique => ArrayValidator.unique this
  | array_noEmpty => ArrayValidator.noEmpty this
  | object_strict => ObjectValidator.strict this
  | object_partial => ObjectValidator.partial this
  | object_allowNull => ObjectValidator.allowNull this
  | object_pick ks => ObjectValidator.pick ks this
  | object_omit ks => ObjectValidator.omit ks this
  | object_extend extension => ObjectValidator.extend extension this
  end.

(** The base options that an instance holds: the copy kept by the constructor
    of its class; the message captured by the closure that
    [union(list).withMessage(m)] returns; nothing for the other
    combinators. *)
Definition held_options (v : Validator) : ValidatorOptions.t :=
  match v with
  | string_validator o _ => StringValidatorOptions.base o
  | number_validator o _ => NumberValidatorOptions.base o
  | boolean_validator o _ => BooleanValidatorOptions.base o
  | date_validator o _ => DateValidatorOptions.base o
  | array_validator _ o _ => ArrayValidatorOptions.base o
  | object_validator _ o _ => ObjectValidatorOptions.base o
  | union_with_message _ m =>
      {| ValidatorOptions.message := Some m; ValidatorOptions.optional := false |}
  | any_validator | nullable_validator _ | union_validator _ =>
      {| ValidatorOptions.message := None; ValidatorOptions.optional := false |}
  end.

(** The base options with those of a call merged in. *)
Definition merge_call {V : Type} (c : Call V) (options : ValidatorOptions.t)
  : ValidatorOptions.t :=
  match c with
  | call_optional =>
      {| ValidatorOptions.message := ValidatorOptions.message options;
         ValidatorOptions.optional := true |}
  | call_withMessage m =>
      {| ValidatorOptions.message := Some m;
         ValidatorOptions.optional := ValidatorOptions.optional options |}
  | _ => options
  end.

(* ================================================================== *)
(** * Instances and option objects in a store *)
(* ================================================================== *)

(** In the sources an instance holds references to option objects, and
    several instances may hold the same object: [this.stringOptions] is the
    very object handed to the constructor, [pick], [omit] and [extend] hand
    [this.objectOptions] of the receiver to the new instance, and every
    method hands the child validators on.  Here the option objects live in a
    store, an instance holds their addresses, and a configuration method is
    a computation on the store. *)

Module Heap.

(** An options object of one of the six interfaces. *)
Inductive options_object :=
| OString (o : StringValidatorOptions.t)
| ONumber (o : NumberValidatorOptions.t)
| OBoolean (o : BooleanValidatorOptions.t)
| ODate (o : DateValidatorOptions.t)
| OArray (o : ArrayValidatorOptions.t)
| OObject (o : ObjectValidatorOptions.t).

Definition loc := nat.
Definition heap := list options_object.

Unset Elimination Schemes.
Inductive Instance :=
| string_instance (options stringOptions : loc)
| number_instance (options numberOptions : loc)
| boolean_instance (options booleanOptions : loc)
| date_instance (options dateOptions : loc)
| array_instance (itemValidator : Instance) (options arrayOptions : loc)
| object_instance (schema : list (string * Instance)) (options objectOptions : loc)
| any_instance
| nullable_instance (validator : Instance)
| union_instance (validators : list Instance)
| union_message_instance (validators : list Instance) (message : string).
Set Elimination Schemes.

Section InstanceInduction.
Variable P : Instance -> Prop.
Hypothesis Hstring : forall lo ls, P (string_instance lo ls).
Hypothesis Hnumber : forall lo ls, P (number_instance lo ls).
Hypothesis Hboolean : forall lo ls, P (boolean_instance lo ls).
Hypothesis Hdate : forall lo ls, P (date_instance lo ls).
Hypothesis Harray : forall item lo ls, P item -> P (array_instance item lo ls).
Hypothesis Hobject : forall schema lo ls,
  Forall (fun kv => P (snd kv)) schema -> P (object_instance schema lo ls).
Hypothesis Hany : P any_instance.
Hypothesis Hnullable : forall i, P i -> P (nullable_instance i).
Hypothesis Hunion : forall l, Forall P l -> P (union_instance l).
Hypothesis Hunion_message : forall l m, Forall P l -> P (union_message_instance l m).

Fixpoint Instance_ind (i : Instance) : P i :=
  let members :=
    fix members (l : list Instance) : Forall P l :=
      match l with
      | [] => Forall_nil P
      | j :: l' => Forall_cons j (Instance_ind j) (members l')
      end in
  match i with
  | string_instance lo ls => Hstring lo ls
  | number_instance lo ls => Hnumber lo ls
  | boolean_instance lo ls => Hboolean lo ls
  | date_instance lo ls => Hdate lo ls
  | array_instance item lo ls => Harray item lo ls (Instance_ind item)
  | object_instance schema lo ls =>
      Hobject schema lo ls
        ((fix fields (l : list (string * Instance))
            : Forall (fun kv => P (snd kv)) l :=
            match l with
            | [] => Forall_nil _
            | kv :: l' =>
                Forall_cons (P := fun kv => P (snd kv)) kv
                  (Instance_ind (snd kv)) (fields l')
            end) schema)
  | any_instance => Hany
  | nullable_instance j => Hnullable j (Instance_ind j)
  | union_instance l => Hunion l (members l)
  | union_message_instance l m => Hunion_message l m (members l)
  end.

End InstanceInduction.

(** ** Computations on the store *)

Definition M (A : Type) : Type := heap -> option (A * heap).

Definition ret {A : Type} (a : A) : M A := fun h => Some (a, h).

Definition bind {A B : Type} (m : M A) (k : A -> M B) : M B :=
  fun h =>
    match m h with
    | Some (a, h') => k a h'
    | None => None
    end.

Definition fail {A : Type} : M A := fun _ => None.

Notation "x <- m ;; k" := (bind m (fun x => k))
  (at level 61, m at next level, right associativity).

(** A new object: its address is the first free one. *)
Definition alloc (o : options_object) : M loc :=
  fun h => Some (List.length h, h ++ [o]).

Definition read (l : loc) : M options_object :=
  fun h =>
    match nth_error h l with
    | Some o => Some (o, h)
    | None => None
    end.

(** [{ ...source, field: v }]: a new object, the source with a field set. *)
Definition spread (source : loc) (update : options_object -> option options_object)
  : M loc :=
  o <- read source ;;
  match update o with
  | Some o' => alloc o'
  | None => fail
  end.

Definition on_string (f : StringValidatorOptions.t -> StringValidatorOptions.t)
  (o : options_object) : option options_object :=
  match o with OString s => Some (OString (f s)) | _ => None end.
Definition on_number (f : NumberValidatorOptions.t -> NumberValidatorOptions.t)
  (o : options_object) : option options_object :=
  match o with ONumber s => Some (ONumber (f s)) | _ => None end.
Definition on_boolean (f : BooleanValidatorOptions.t -> BooleanValidatorOptions.t)
  (o : options_object) : option options_object :=
  match o with OBoolean s => Some (OBoolean (f s)) | _ => None end.
Definition on_date (f : DateValidatorOptions.t -> DateValidatorOptions.t)
  (o : options_object) : option options_object :=
  match o with ODate s => Some (ODate (f s)) | _ => None end.
Definition on_array (f : ArrayValidatorOptions.t -> ArrayValidatorOptions.t)
  (o : options_object) : option options_object :=
  match o with OArray s => Some (OArray (f s)) | _ => None end.
Definition on_object (f : ObjectValidatorOptions.t -> ObjectValidatorOptions.t)
  (o : options_object) : option options_object :=
  match o with OObject s => Some (OObject (f s)) | _ => None end.

(** ** The constructors: [this.options = { ...options }] is a new object, the
    options of the class are the argument itself. *)

Definition new_StringValidator (options : loc) : M Instance :=
  copy <- spread options (on_string (fun o => o)) ;;
  ret (string_instance copy options).
Definition new_NumberValidator (options : loc) : M Instance :=
  copy <- spread options (on_number (fun o => o)) ;;
  ret (number_instance copy options).
Definition new_BooleanValidator (options : loc) : M Instance :=
  copy <- spread options (on_boolean (fun o => o)) ;;
  ret (boolean_instance copy options).
Definition new_DateValidator (options : loc) : M Instance :=
  copy <- spread options (on_date (fun o => o)) ;;
  ret (date_instance copy options).
Definition new_ArrayValidator (itemValidator : Instance) (options : loc)
  : M Instance :=
  copy <- spread options (on_array (fun o => o)) ;;
  ret (array_instance itemValidator copy options).
Definition new_ObjectValidator (schema : list (string * Instance)) (options : loc)
  : M Instance :=
  copy <- spread options (on_object (fun o => o)) ;;
  ret (object_instance schema copy options).

(** ** The methods *)

(** A method of a class: the options of the class spread into a new object
    with the fields of the call, and the constructor on that object. *)
Definition string_method (f : StringValidatorOptions.t -> StringValidatorOptions.t)
  (this : Instance) : M Instance :=
  match this with
  | string_instance _ stringOptions =>
      l <- spread stringOptions (on_string f) ;; new_StringValidator l
  | _ => ret this
  end.
Definition number_method (f : NumberValidatorOptions.t -> NumberValidatorOptions.t)
  (this : Instance) : M Instance :=
  match this with
  | number_instance _ numberOptions =>
      l <- spread numberOptions (on_number f) ;; new_NumberValidator l
  | _ => ret this
  end.
Definition boolean_method
  (f : BooleanValidatorOptions.t -> BooleanValidatorOptions.t)
  (this : Instance) : M Instance :=
  match this with
  | boolean_instance _ booleanOptions =>
      l <- spread booleanOptions (on_boolean f) ;; new_BooleanValidator l
  | _ => ret this
  end.
Definition date_method (f : DateValidatorOptions.t -> DateValidatorOptions.t)
  (this : Instance) : M Instance :=
  match this with
  | date_instance _ dateOptions =>
      l <- spread dateOptions (on_date f) ;; new_DateValidator l
  | _ => ret this
  end.
Definition array_method (f : ArrayValidatorOptions.t -> ArrayValidatorOptions.t)
  (this : Instance) : M Instance :=
  match this with
  | array_instance itemValidator _ arrayOptions =>
      l <- spread arrayOptions (on_array f) ;; new_ArrayValidator itemValidator l
  | _ => ret this
  end.
Definition object_method (f : ObjectValidatorOptions.t -> ObjectValidatorOptions.t)
  (this : Instance) : M Instance :=
  match this with
  | object_instance schema _ objectOptions =>
      l <- spread objectOptions (on_object f) ;; new_ObjectValidator schema l
  | _ => ret this
  end.

(** The methods of [BaseValidator] spread [this.options]; the array and the
    object validator override them and spread the options of their class. *)
Definition base_method
  (fs : StringValidatorOptions.t -> StringValidatorOptions.t)
  (fn : NumberValidatorOptions.t -> NumberValidatorOptions.t)
  (fb : BooleanValidatorOptions.t -> BooleanValidatorOptions.t)
  (fd : DateValidatorOptions.t -> DateValidatorOptions.t)
  (fa : ArrayValidatorOptions.t -> ArrayValidatorOptions.t)
  (fo : ObjectValidatorOptions.t -> ObjectValidatorOptions.t)
  (this : Instance) : M Instance :=
  match this with
  | string_instance options _ =>
      l <- spread options (on_string fs) ;; new_StringValidator l
  | number_instance options _ =>
      l <- spread options (on_number fn) ;; new_NumberValidator l
  | boolean_instance options _ =>
      l <- spread options (on_boolean fb) ;; new_BooleanValidator l
  | date_instance options _ =>
      l <- spread options (on_date fd) ;; new_DateValidator l
  | array_instance _ _ _ => array_method fa this
  | object_instance _ _ _ => object_method fo this
  | _ => ret this
  end.

Definition optional (this : Instance) : M Instance :=
  match this with
  | any_instance => ret any_instance
  | nullable_instance validator => ret (nullable_instance validator)
  | union_instance validators => ret (union_instance validators)
  | union_message_instance validators _ => ret (union_instance validators)
  | _ =>
      base_method
        (fun o => StringValidatorOptions.set_optional o true)
        (fun o => NumberValidatorOptions.set_optional o true)
        (fun o => BooleanValidatorOptions.set_optional o true)
        (fun o => DateValidatorOptions.set_optional o true)
        (fun o => ArrayValidatorOptions.set_optional o true)
        (fun o => ObjectValidatorOptions.set_optional o true)
        this
  end.

Fixpoint withMessage (message : string) (this : Instance) : M Instance :=
  match this with
  | any_instance => ret any_instance
  | nullable_instance validator =>
      inner <- withMessage message validator ;;
      ret (nullable_instance inner)
  | union_instance validators => ret (union_message_instance validators message)
  | union_message_instance validators _ =>
      ret (union_message_instance validators message)
  | _ =>
      base_method
        (fun o => StringValidatorOptions.set_message o (Some message))
        (fun o => NumberValidatorOptions.set_message o (Some message))
        (fun o => BooleanValidatorOptions.set_message o (Some message))
        (fun o => DateValidatorOptions.set_message o (Some message))
        (fun o => ArrayValidatorOptions.set_message o (Some message))
        (fun o => ObjectValidatorOptions.set_message o (Some message))
        this
  end.

(** [for (const [key, validator] of Object.entries(this.schema))
       partialSchema[key] = validator.optional()] *)
Fixpoint optional_fields (schema : list (string * Instance))
  : M (list (string * Instance)) :=
  match schema with
  | [] => ret []
  | kv :: rest =>
      v <- optional (snd kv) ;;
      rest' <- optional_fields rest ;;
      ret ((fst kv, v) :: rest')
  end.

Definition partial (this : Instance) : M Instance :=
  match this with
  | object_instance schema _ objectOptions =>
      partialSchema <- optional_fields schema ;;
      l <- spread objectOptions
             (on_object (fun o => ObjectValidatorOptions.set_partial o true)) ;;
      new_ObjectValidator partialSchema l
  | _ => ret this
  end.

(** [pick], [omit] and [extend] build a schema and hand [this.objectOptions]
    to the constructor. *)
Definition reshape
  (f : list (string * Instance) -> list (string * Instance))
  (this : Instance) : M Instance :=
  match this with
  | object_instance schema _ objectOptions =>
      new_ObjectValidator (f schema) objectOptions
  | _ => ret this
  end.

(** The call of a method on an instance. *)
Definition invoke (c : Call Instance) (this : Instance) : M Instance :=
  match c with
  | call_optional => optional this
  | call_withMessage m => withMessage m this
  | string_minLength n =>
      string_method (fun o => StringValidatorOptions.set_minLength o (Some n)) this
  | string_maxLength n =>
      string_method (fun o => StringValidatorOptions.set_maxLength o (Some n)) this
  | string_length a b =>
      string_method
        (fun o => StringValidatorOptions.set_maxLength
                    (StringValidatorOptions.set_minLength o (Some a)) (Some b))
        this
  | string_pattern r =>
      string_method (fun o => StringValidatorOptions.set_pattern o (Some r)) this
  | string_trim =>
      string_method (fun o => StringValidatorOptions.set_trim o true) this
  | string_email =>
      string_method (fun o => StringValidatorOptions.set_email o true) this
  | string_url =>
      string_method (fun o => StringValidatorOptions.set_url o true) this
  | string_uuid =>
      string_method (fun o => StringValidatorOptions.set_uuid o true) this
  | number_min n =>
      number_method (fun o => NumberValidatorOptions.set_min o (Some n)) this
  | number_max n =>
      number_method (fun o => NumberValidatorOptions.set_max o (Some n)) this
  | number_range a b =>
      number_method
        (fun o => NumberValidatorOptions.set_max
                    (NumberValidatorOptions.set_min o (Some a)) (Some b))
        this
  | number_integer =>
      number_method (fun o => NumberValidatorOptions.set_integer o true) this
  | number_positive =>
      number_method (fun o => NumberValidatorOptions.set_positive o true) this
  | number_negative =>
      number_method (fun o => NumberValidatorOptions.set_negative o true) this
  | number_finite =>
      number_method (fun o => NumberValidatorOptions.set_finite o true) this
  | number_multipleOf n =>
      number_method (fun o => NumberValidatorOptions.set_multipleOf o (Some n)) this
  | boolean_strict =>
      boolean_method (fun o => BooleanValidatorOptions.set_strict o true) this
  | boolean_truthy =>
      boolean_method (fun o => BooleanValidatorOptions.set_truthy o true) this
  | date_min d =>
      date_method (fun o => DateValidatorOptions.set_min o (Some d)) this
  | date_max d =>
      date_method (fun o => DateValidatorOptions.set_max o (Some d)) this
  | date_range a b =>
      date_method
        (fun o => DateValidatorOptions.set_max
                    (DateValidatorOptions.set_min o (Some a)) (Some b))
        this
  | date_past now =>
      date_method (fun o => DateValidatorOptions.set_max o (Some now)) this
  | date_future now =>
      date_method (fun o => DateValidatorOptions.set_min o (Some now)) this
  | date_iso =>
      date_method
        (fun o => DateValidatorOptions.set_format o (Some DateValidatorOptions.iso))
        this
  | date_timestamp =>
      date_method
        (fun o => DateValidatorOptions.set_format o
                    (Some DateValidatorOptions.timestamp))
        this
  | array_minLength n =>
      array_method (fun o => ArrayValidatorOptions.set_minLength o (Some n)) this
  | array_maxLength n =>
      array_method (fun o => ArrayValidatorOptions.set_maxLength o (Some n)) this
  | array_length a b =>
      array_method
        (fun o => ArrayValidatorOptions.set_maxLength
                    (ArrayValidatorOptions.set_minLength o (Some a)) (Some b))
        this
  | array_unique =>
      array_method (fun o => ArrayValidatorOptions.set_unique o true) this
  | array_noEmpty =>
      array_method (fun o => ArrayValidatorOptions.set_noEmpty o true) this
  | object_strict =>
      object_method (fun o => ObjectValidatorOptions.set_strict o true) this
  | object_partial => partial this
  | object_allowNull =>
      object_method (fun o => ObjectValidatorOptions.set_allowNull o true) this
  | object_pick ks => reshape (fun schema => pick_schema schema ks) this
  | object_omit ks => reshape (fun schema => omit_schema schema ks) this
  | object_extend extension =>
      reshape (fun schema => extend_schema schema extension) this
  end.

(** ** Reading an instance *)

Definition sequence {A : Type} (l : list (option A)) : option (list A) :=
  fold_right
    (fun x acc =>
       match x, acc with
       | Some a, Some l' => Some (a :: l')
       | _, _ => None
       end)
    (Some []) l.

(** The validator that an instance is in a store: the options found at its
    addresses, and its children read in the same way.  [None] when an
    address holds no object of the class. *)
Fixpoint load (h : heap) (i : Instance) : option Validator :=
  match i with
  | string_instance lo ls =>
      match nth_error h lo, nth_error h ls with
      | Some (OString o), Some (OString so) => Some (string_validator o so)
      | _, _ => None
      end
  | number_instance lo ls =>
      match nth_error h lo, nth_error h ls with
      | Some (ONumber o), Some (ONumber so) => Some (number_validator o so)
      | _, _ => None
      end
  | boolean_instance lo ls =>
      match nth_error h lo, nth_error h ls with
      | Some (OBoolean o), Some (OBoolean so) => Some (boolean_validator o so)
      | _, _ => None
      end
  | date_instance lo ls =>
      match nth_error h lo, nth_error h ls with
      | Some (ODate o), Some (ODate so) => Some (date_validator o so)
      | _, _ => None
      end
  | array_instance item lo ls =>
      match load h item, nth_error h lo, nth_error h ls with
      | Some v, Some (OArray o), Some (OArray so) => Some (array_validator v o so)
      | _, _, _ => None
      end
  | object_instance schema lo ls =>
      match sequence
              (map (fun kv => option_map (pair (fst kv)) (load h (snd kv))) schema),
            nth_error h lo, nth_error h ls with
      | Some fields, Some (OObject o), Some (OObject so) =>
          Some (object_validator fields o so)
      | _, _, _ => None
      end
  | any_instance => Some any_validator
  | nullable_instance j => option_map nullable_validator (load h j)
  | union_instance l => option_map union_validator (sequence (map (load h) l))
  | union_message_instance l m =>
      option_map (fun vs => union_with_message vs m) (sequence (map (load h) l))
  end.

Definition load_fields (h : heap) (schema : list (string * Instance))
  : option (list (string * Validator)) :=
  sequence (map (fun kv => option_map (pair (fst kv)) (load h (snd kv))) schema).

(** The arguments of a call read from the store. *)
Definition load_call (h : heap) (c : Call Instance) : option (Call Validator) :=
  match c with
  | call_optional => Some call_optional
  | call_withMessage m => Some (call_withMessage m)
  | string_minLength n => Some (string_minLength n)
  | string_maxLength n => Some (string_maxLength n)
  | string_length a b => Some (string_length a b)
  | string_pattern r => Some (string_pattern r)
  | string_trim => Some string_trim
  | string_email => Some string_email
  | string_url => Some string_url
  | string_uuid => Some string_uuid
  | number_min n => Some (number_min n)
  | number_max n => Some (number_max n)
  | number_range a b => Some (number_range a b)
  | number_integer => Some number_integer
  | number_positive => Some number_positive
  | number_negative => Some number_negative
  | number_finite => Some number_finite
  | number_multipleOf n => Some (number_multipleOf n)
  | boolean_strict => Some boolean_strict
  | boolean_truthy => Some boolean_truthy
  | date_min d => Some (date_min d)
  | date_max d => Some (date_max d)
  | date_range a b => Some (date_range a b)
  | date_past now => Some (date_past now)
  | date_future now => Some (date_future now)
  | date_iso => Some date_iso
  | date_timestamp => Some date_timestamp
  | array_minLength n => Some (array_minLength n)
  | array_maxLength n => Some (array_maxLength n)
  | array_length a b => Some (array_length a b)
  | array_unique => Some array_unique
  | array_noEmpty => Some array_noEmpty
  | object_strict => Some object_strict
  | object_partial => Some object_partial
  | object_allowNull => Some object_allowNull
  | object_pick ks => Some (object_pick ks)
  | object_omit ks => Some (object_omit ks)
  | object_extend extension => option_map object_extend (load_fields h extension)
  end.

(** The address of the copy of the options that the constructor of a class
    made for the instance. *)
Definition options_address (i : Instance) : option loc :=
  match i with
  | string_instance lo _ | number_instance lo _ | boolean_instance lo _
  | date_instance lo _ | array_instance _ lo _ | object_instance _ lo _ => Some lo
  | _ => None
  end.

(** ** The factory: [new C()] on the new, empty options [{}]. *)

Definition string : M Instance :=
  l <- alloc (OString StringValidatorOptions.empty) ;; new_StringValidator l.
Definition number : M Instance :=
  l <- alloc (ONumber NumberValidatorOptions.empty) ;; new_NumberValidator l.
Definition boolean : M Instance :=
  l <- alloc (OBoolean BooleanValidatorOptions.empty) ;; new_BooleanValidator l.
Definition date : M Instance :=
  l <- alloc (ODate DateValidatorOptions.empty) ;; new_DateValidator l.
Definition array (itemValidator : Instance) : M Instance :=
  l <- alloc (OArray ArrayValidatorOptions.empty) ;;
  new_ArrayValidator itemValidator l.
Definition object (schema : list (String.string * Instance)) : M Instance :=
  l <- alloc (OObject ObjectValidatorOptions.empty) ;;
  new_ObjectValidator schema l.

End Heap.

(* ================================================================== *)
(** * The vocabulary of the statements *)
(* ================================================================== *)

Section Vocabulary.
Context {host : Host}.

(** The invariant of a result for the value [x] that was validated: valid
    exactly when there is no error; no data on a failure; data on a success,
    which is [undefined] only if [x] is an absence sentinel. *)
Definition well_formed_result (x : JsValue) (r : ValidationResult) : Prop :=
  (isValid r = true <-> errors r = [])
  /\ (isValid r = false -> data r = None)
  /\ (isValid r = true ->
      exists d, data r = Some d /\ (d = VUndefined -> is_absent x = true)).

(** The invariant as the specification words it: a valid result always holds
    data. *)
Definition stated_result_invariant (r : ValidationResult) : Prop :=
  (isValid r = true <-> errors r = [])
  /\ (isValid r = false -> data r = None)
  /\ (isValid r = true -> has_data r = true).

(** Every constructor of a class stores a copy of the options it is given
    beside the options themselves, and nothing writes to either afterwards:
    in a validator built by the library the two agree. *)
#[warnings="-register-all"]
Inductive constructed : Validator -> Prop :=
| constructed_string o : constructed (string_validator o o)
| constructed_number o : constructed (number_validator o o)
| constructed_boolean o : constructed (boolean_validator o o)
| constructed_date o : constructed (date_validator o o)
| constructed_array item o :
    constructed item -> constructed (array_validator item o o)
| constructed_object schema o :
    Forall (fun kv => constructed (snd kv)) schema ->
    constructed (object_validator schema o o)
| constructed_any : constructed any_validator
| constructed_nullable v : constructed v -> constructed (nullable_validator v)
| constructed_union l : Forall constructed l -> constructed (union_validator l)
| constructed_union_message l m :
    Forall constructed l -> constructed (union_with_message l m).

(** The validators that [Schema.union] and its [withMessage] return. *)
Definition is_union (v : Validator) : bool :=
  match v with
  | union_validator _ | union_with_message _ _ => true
  | _ => false
  end.

(** The validators of the six classes. *)
Definition is_class_instance (v : Validator) : bool :=
  match v with
  | string_validator _ _ | number_validator _ _ | boolean_validator _ _
  | date_validator _ _ | array_validator _ _ _ | object_validator _ _ _ => true
  | _ => false
  end.

(** What [v.optional()] returns on an absence sentinel [s]: for a validator of
    a class, no data; [any] gives the sentinel back; [nullable] gives null. *)
Definition data_on_absent (v : Validator) (s : JsValue) : JsValue :=
  match v with
  | any_validator => s
  | nullable_validator _ => VNull
  | _ => VUndefined
  end.

(** C1 as the specification states it, for one validator and one sentinel:
    success, no error, no data. *)
Definition optional_accepts_without_data (v : Validator) (s : JsValue) (p : string)
  : Prop :=
  let r := validate (optional v) s p in
  isValid r = true /\ errors r = [] /\ has_data r = false.

(** The member of a union that decides: the first one, in the order of the
    list, that accepts the value. *)
Definition first_accepting (validators : list Validator) (x : JsValue) (p : string)
  : option Validator :=
  find (fun v => isValid (validate v x p)) validators.

Definition is_string (x : JsValue) : bool :=
  match x with VString _ => true | _ => false end.

Definition is_number (x : JsValue) : bool :=
  match x with VNumber _ => true | _ => false end.

Definition is_boolean (x : JsValue) : bool :=
  match x with VBoolean _ => true | _ => false end.

Definition is_date (x : JsValue) : bool :=
  match x with VDate _ => true | _ => false end.

(** The failure with one error at the path of the call. *)
Definition single_error (p m : string) (x : JsValue) : ValidationResult :=
  createFailure [createError p m x].

(** What [BaseValidator.validate] does to the errors of the class check. *)
Definition relabel (options : ValidatorOptions.t) (es : list ValidationError)
  : list ValidationError :=
  match custom_message options with
  | Some m => map (with_message m) es
  | None => es
  end.

(** The errors that the entries of the schema give on the value. *)
Definition field_errors (schema : list (string * Validator))
  (props : list (string * JsValue)) (p : string) : list ValidationError :=
  fst (ObjectValidator.validate_fields
         (map (fun kv => (fst kv, validate (snd kv))) schema) props p [] empty_object).

(** The names of the properties of Object.prototype (ECMAScript, with its
    annex B), which the objects of the model inherit. *)
Definition Object_prototype_keys : list string :=
  ["constructor"; "hasOwnProperty"; "isPrototypeOf"; "propertyIsEnumerable";
   "toLocaleString"; "toString"; "valueOf"; "__proto__"; "__defineGetter__";
   "__defineSetter__"; "__lookupGetter__"; "__lookupSetter__"].

(** The names of the properties of Date.prototype, which a date inherits
    before those of Object.prototype. *)
Definition Date_prototype_keys : list string :=
  ["getDate"; "getDay"; "getFullYear"; "getHours"; "getMilliseconds";
   "getMinutes"; "getMonth"; "getSeconds"; "getTime"; "getTimezoneOffset";
   "getUTCDate"; "getUTCDay"; "getUTCFullYear"; "getUTCHours";
   "getUTCMilliseconds"; "getUTCMinutes"; "getUTCMonth"; "getUTCSeconds";
   "getYear"; "setDate"; "setFullYear"; "setHours"; "setMilliseconds";
   "setMinutes"; "setMonth"; "setSeconds"; "setTime"; "setUTCDate";
   "setUTCFullYear"; "setUTCHours"; "setUTCMilliseconds"; "setUTCMinutes";
   "setUTCMonth"; "setUTCSeconds"; "setYear"; "toDateString"; "toGMTString";
   "toISOString"; "toJSON"; "toLocaleDateString"; "toLocaleTimeString";
   "toTemporalInstant"; "toTimeString"; "toUTCString"].

Definition builtin_prototype_keys : list string :=
  Object_prototype_keys ++ Date_prototype_keys.

(** A key that no built-in prototype of an object or of a date has: a read
    of it finds an own property of the object, or nothing. *)
Definition plain_key (key : string) : bool :=
  negb (has_key builtin_prototype_keys key).

(** The own properties of an object. *)
Definition own_properties (value : JsValue) : list (string * JsValue) :=
  match value with
  | VObject props | VObjectOver _ props => props
  | _ => []
  end.

(** The part read by [parseInt] is a number outside the range from [lo] to
    [hi]. *)
Definition out_of_range (part : string) (lo hi : Z) : Prop :=
  exists n, parseInt part None = Num.of_Z n /\ (n < lo \/ hi < n)%Z.

(** The month and the day of the string, the second and the third of its
    pieces between dashes, are impossible. *)
Definition impossible_month_or_day (part1 part2 : string) : Prop :=
  out_of_range part1 1 12
  \/ out_of_range part2 1 31
  \/ (parseInt part1 None = Num.of_Z 2
      /\ exists day, parseInt part2 None = Num.of_Z day /\ (29 < day)%Z).

(** The class of the validator has the method of the call. *)
Definition answers {V : Type} (c : Call V) (v : Validator) : bool :=
  match c with
  | call_optional | call_withMessage _ => true
  | string_minLength _ | string_maxLength _ | string_length _ _
  | string_pattern _ | string_trim | string_email | string_url | string_uuid =>
      match v with string_validator _ _ => true | _ => false end
  | number_min _ | number_max _ | number_range _ _ | number_integer
  | number_positive | number_negative | number_finite | number_multipleOf _ =>
      match v with number_validator _ _ => true | _ => false end
  | boolean_strict | boolean_truthy =>
      match v with boolean_validator _ _ => true | _ => false end
  | date_min _ | date_max _ | date_range _ _ | date_past _ | date_future _
  | date_iso | date_timestamp =>
      match v with date_validator _ _ => true | _ => false end
  | array_minLength _ | array_maxLength _ | array_length _ _ | array_unique
  | array_noEmpty =>
      match v with array_validator _ _ _ => true | _ => false end
  | object_strict | object_partial | object_allowNull | object_pick _
  | object_omit _ | object_extend _ =>
      match v with object_validator _ _ _ => true | _ => false end
  end.

(** The store [h'] is [h] with new objects after it: no object of [h] is
    changed or removed. *)
Definition extends (h h' : Heap.heap) : Prop := exists t, h' = h ++ t.

(** [validate] of an instance whose options are in the store. *)
Definition validate_at {host : Host} (h : Heap.heap) (i : Heap.Instance)
  (x : JsValue) (p : string) : option ValidationResult :=
  option_map (fun v => validate v x p) (Heap.load h i).

(** The outcome of a computation that returns an instance: it succeeds, it
    only adds objects to the store, and the instance it returns reads as the
    validator [v2]; when [fresh] is set, the copy of the options that the
    instance holds is one of the new objects. *)
Definition outcome (h : Heap.heap) (m : Heap.M Heap.Instance) (v2 : Validator)
  (fresh : bool) : Prop :=
  exists i2 h',
    m h = Some (i2, h')
    /\ extends h h'
    /\ Heap.load h' i2 = Some v2
    /\ (fresh = true ->
        exists l, Heap.options_address i2 = Some l /\ List.length h <= l).

(** Two schemas with the same keys in the same order and related members. *)
Definition related {A B : Type} (rel : A -> B -> Prop)
  (l : list (string * A)) (l' : list (string * B)) : Prop :=
  Forall2 (fun kv kv' => fst kv = fst kv' /\ rel (snd kv) (snd kv')) l l'.

(** The validators handed to [extend] are built by the library. *)
Definition constructed_call (c : Call Validator) : Prop :=
  match c with
  | object_extend extension => Forall (fun kv => constructed (snd kv)) extension
  | _ => True
  end.

(** [v2 = v1.b(...)] carries the base options of [v1] with those of the call
    merged in. *)
Definition carries_merged_options (c : Call Validator) (v1 : Validator) : Prop :=
  held_options (apply_call c v1) = merge_call c (held_options v1).

(** The result [r] with the message of every error replaced by [m]. *)
Definition replace_messages (m : string) (r : ValidationResult) : ValidationResult :=
  {| isValid := isValid r; data := data r;
     errors := map (with_message m) (errors r) |}.

(** What [withMessage(m)] promises about a result [r'] given the result [r]
    of the validator without the message: a success is returned as it is, on
    a failure every error has the message [m] and keeps its path and
    value. *)
Definition message_applied (m : string) (r r' : ValidationResult) : Prop :=
  (isValid r = true -> r' = r)
  /\ (isValid r = false ->
      r' = {| isValid := false; data := None;
              errors := map (with_message m) (errors r) |}).

(** The data of the items, in the order of the input. *)
Fixpoint items_data (itemValidator : validate_fn) (p : string) (i : nat)
  (items : list JsValue) : list JsValue :=
  match items with
  | [] => []
  | x :: rest =>
      read_data (itemValidator x (ArrayValidator.itemPath p i))
      :: items_data itemValidator p (S i) rest
  end.

(** The item at index [i] has the key of an item before it. *)
Definition repeats_earlier (datas : list JsValue) (i : nat) : bool :=
  existsb
    (fun j =>
       ArrayValidator.same_key
         (ArrayValidator.key_of (nth i datas VUndefined))
         (ArrayValidator.key_of (nth j datas VUndefined)))
    (seq 0 i).

Definition repeated_indices (datas : list JsValue) : list nat :=
  filter (repeats_earlier datas) (seq 0 (List.length datas)).

End Vocabulary.

(* ================================================================== *)
(** * The vocabulary of the further properties *)
(* ================================================================== *)

Section Properties.
Context {host : Host}.

(** ** The type of the data

    [InferType] of types.ts gives every validator the type of the data of
    its valid results; [has_type v d] is that type as a predicate on values.
    A validator of a class with the optional flag also gives [undefined].  An
    array holds data of its item validator and never [undefined]; an object
    has the prototype Object.prototype, and every own property of it under a
    key of the schema holds data, not [undefined], of a validator that the
    schema has under that key. *)
Fixpoint has_type (v : Validator) (d : JsValue) {struct v} : Prop :=
  let members :=
    fix members (l : list Validator) : Prop :=
      match l with
      | [] => False
      | w :: l' => has_type w d \/ members l'
      end in
  match v with
  | string_validator o _ =>
      (StringValidatorOptions.optional o = true /\ d = VUndefined)
      \/ exists s, d = VString s
  | number_validator o _ =>
      (NumberValidatorOptions.optional o = true /\ d = VUndefined)
      \/ exists n, d = VNumber n /\ Num.isNaN n = false
  | boolean_validator o _ =>
      (BooleanValidatorOptions.optional o = true /\ d = VUndefined)
      \/ exists b, d = VBoolean b
  | date_validator o _ =>
      (DateValidatorOptions.optional o = true /\ d = VUndefined)
      \/ exists ms, d = VDate (JsDate.At ms)
  | array_validator item o _ =>
      (ArrayValidatorOptions.optional o = true /\ d = VUndefined)
      \/ exists ds, d = VArray ds
                    /\ Forall (fun x => has_type item x /\ x <> VUndefined) ds
  | object_validator schema o oo =>
      (ObjectValidatorOptions.optional o = true /\ d = VUndefined)
      \/ (ObjectValidatorOptions.allowNull oo = true /\ d = VNull)
      \/ exists out,
           d = VObject out
           /\ (forall key x, lookup out key = Some x ->
                 has_key (keys schema) key = true ->
                 x <> VUndefined
                 /\ (fix field (l : list (string * Validator)) : Prop :=
                       match l with
                       | [] => False
                       | kv :: l' =>
                           (key = fst kv /\ has_type (snd kv) x) \/ field l'
                       end) schema)
           /\ (ObjectValidatorOptions.strict oo = true ->
               forall key, lookup out key <> None ->
                 has_key (keys schema) key = true)
  | any_validator => True
  | nullable_validator w => d = VNull \/ has_type w d
  | union_validator l => members l
  | union_with_message l _ => members l
  end.

(** Every schema in the validator declares its fields under keys that no
    built-in prototype has. *)
Fixpoint plain_schema (v : Validator) {struct v} : bool :=
  match v with
  | array_validator item _ _ => plain_schema item
  | object_validator schema _ _ =>
      forallb plain_key (keys schema)
      && (fix fields (l : list (string * Validator)) : bool :=
            match l with
            | [] => true
            | kv :: l' => plain_schema (snd kv) && fields l'
            end) schema
  | nullable_validator w => plain_schema w
  | union_validator l | union_with_message l _ =>
      (fix members (l : list Validator) : bool :=
         match l with
         | [] => true
         | w :: l' => plain_schema w && members l'
         end) l
  | _ => true
  end.

(** Every object in the value has the prototype Object.prototype and no own
    property [__proto__]. *)
Fixpoint plain_value (value : JsValue) : bool :=
  match value with
  | VArray items =>
      (fix all (l : list JsValue) : bool :=
         match l with
         | [] => true
         | x :: l' => plain_value x && all l'
         end) items
  | VObject props =>
      negb (has_key (keys props) "__proto__")
      && (fix all (l : list (string * JsValue)) : bool :=
            match l with
            | [] => true
            | kv :: l' => plain_value (snd kv) && all l'
            end) props
  | VObjectOver _ _ => false
  | _ => true
  end.

(** ** Strings *)

(** The conditions under which the string validator pushes no error, on the
    string it tests (the value, trimmed when [trim] is set). *)
Definition string_accepted (so : StringValidatorOptions.t) (stringValue : string)
  : bool :=
  let len := Num.of_nat (String.length stringValue) in
  match StringValidatorOptions.minLength so with
  | Some n => negb (Num.lt len n)
  | None => true
  end
  && match StringValidatorOptions.maxLength so with
     | Some n => negb (Num.gt len n)
     | None => true
     end
  && match StringValidatorOptions.pattern so with
     | Some test => test stringValue
     | None => true
     end
  && negb (StringValidatorOptions.email so
           && StringValidator.invalid_email stringValue)
  && negb (StringValidatorOptions.url so
           && StringValidator.invalid_url stringValue)
  && negb (StringValidatorOptions.uuid so
           && negb (Regex.test StringValidator.uuidRegex stringValue)).

(** The string that the checks are run on. *)
Definition tested_string (so : StringValidatorOptions.t) (s : string) : string :=
  if StringValidatorOptions.trim so then Str.trim s else s.

(** ** What the fixed patterns accept *)

(** The strings of a regular expression. *)
Inductive in_lang : Regex.t -> list ascii -> Prop :=
| lang_eps : in_lang Regex.Eps []
| lang_class p c : p c = true -> in_lang (Regex.Class p) [c]
| lang_seq a b l1 l2 :
    in_lang a l1 -> in_lang b l2 -> in_lang (Regex.Seq a b) (l1 ++ l2)
| lang_alt_left a b l : in_lang a l -> in_lang (Regex.Alt a b) l
| lang_alt_right a b l : in_lang b l -> in_lang (Regex.Alt a b) l
| lang_star_nil a : in_lang (Regex.Star a) []
| lang_star_more a l1 l2 :
    in_lang a l1 -> in_lang (Regex.Star a) l2 -> in_lang (Regex.Star a) (l1 ++ l2).

(** [[a-zA-Z0-9._%+-]] and [[a-zA-Z0-9.-]] *)
Definition local_char (c : ascii) : bool :=
  Str.is_alpha c
  || (Str.is_digit c
      || (Str.is_char 46 c
          || (Str.is_char 95 c
              || (Str.is_char 37 c || (Str.is_char 43 c || Str.is_char 45 c))))).

Definition domain_char (c : ascii) : bool :=
  Str.is_alpha c || (Str.is_digit c || (Str.is_char 46 c || Str.is_char 45 c)).

(** [local@domain.tld]: a local part and a domain that are not empty, and
    after the last dot at least two letters. *)
Definition email_shape (s : string) : Prop :=
  exists local domain tld,
    Str.chars s = local ++ ascii_of_nat 64 :: domain ++ ascii_of_nat 46 :: tld
    /\ local <> [] /\ forallb local_char local = true
    /\ domain <> [] /\ forallb domain_char domain = true
    /\ 2 <= List.length tld /\ forallb Str.is_alpha tld = true.

(** A hexadecimal digit in either case. *)
Definition hex_char (c : ascii) : bool :=
  Str.is_digit c || (Str.in_range 97 102 c || Str.in_range 65 70 c).

(** [[89ab]], in either case. *)
Definition variant_char (c : ascii) : bool :=
  Str.in_range 56 57 c || (Str.in_range 97 98 c || Str.in_range 65 66 c).

(** The five groups of a UUID, of 8, 4, 4, 4 and 12 hexadecimal digits, with
    a dash between them; the third group starts with the version, a digit
    from 1 to 5, and the fourth with the variant. *)
Definition uuid_shape (s : string) : Prop :=
  exists g1 g2 version g3 variant g4 g5,
    Str.chars s
    = g1 ++ ascii_of_nat 45 :: g2 ++ ascii_of_nat 45 :: version :: g3
      ++ ascii_of_nat 45 :: variant :: g4 ++ ascii_of_nat 45 :: g5
    /\ List.length g1 = 8 /\ List.length g2 = 4 /\ List.length g3 = 3
    /\ List.length g4 = 3 /\ List.length g5 = 12
    /\ forallb hex_char (g1 ++ g2 ++ g3 ++ g4 ++ g5) = true
    /\ Str.in_range 49 53 version = true
    /\ variant_char variant = true.

(** ** Numbers *)

(** The conditions under which the number validator pushes no error, on a
    number that is not NaN. *)
Definition number_accepted (no : NumberValidatorOptions.t) (n : Num.t) : bool :=
  negb (NumberValidatorOptions.finite no && negb (Num.isFinite n))
  && match NumberValidatorOptions.min no with
     | Some m => negb (Num.lt n m)
     | None => true
     end
  && match NumberValidatorOptions.max no with
     | Some m => negb (Num.gt n m)
     | None => true
     end
  && negb (NumberValidatorOptions.integer no && negb (Num.isInteger n))
  && negb (NumberValidatorOptions.positive no && Num.le n Num.zero)
  && negb (NumberValidatorOptions.negative no && Num.ge n Num.zero)
  && match NumberValidatorOptions.multipleOf no with
     | Some m => Num.eq (Num.rem n m) Num.zero
     | None => true
     end.

(** ** Dates *)

(** The time value [ms] is not before the minimum and not after the maximum
    of the options, where they are set to valid dates. *)
Definition within_bounds (dateOptions : DateValidatorOptions.t) (ms : Z) : Prop :=
  (forall a, DateValidatorOptions.min dateOptions = Some (JsDate.At a) -> (a <= ms)%Z)
  /\ (forall b, DateValidatorOptions.max dateOptions = Some (JsDate.At b) ->
        (ms <= b)%Z).

(** The message of the failure that a format set in the options gives. *)
Definition format_message (f : DateValidatorOptions.Format) : string :=
  match f with
  | DateValidatorOptions.iso =>
      "Date must be in ISO format (YYYY-MM-DDTHH:mm:ss.sssZ)"
  | _ => "Date must be a valid timestamp"
  end.

(** ** Arrays *)

(** The errors of the items that fail, in the order of the items; [i] is the
    index of the first item. *)
Fixpoint item_errors (itemValidator : validate_fn) (p : string) (i : nat)
  (items : list JsValue) : list ValidationError :=
  match items with
  | [] => []
  | x :: rest =>
      let r := itemValidator x (ArrayValidator.itemPath p i) in
      (if isValid r then [] else errors r)
      ++ item_errors itemValidator p (S i) rest
  end.

(** The data of the items that pass and give data, in the order of the
    items. *)
Fixpoint kept_data (itemValidator : validate_fn) (p : string) (i : nat)
  (items : list JsValue) : list JsValue :=
  match items with
  | [] => []
  | x :: rest =>
      let r := itemValidator x (ArrayValidator.itemPath p i) in
      (if isValid r && has_data r then [read_data r] else [])
      ++ kept_data itemValidator p (S i) rest
  end.

(** The errors of the scan for duplicates over the data that was kept. *)
Definition duplicate_errors (arrayOptions : ArrayValidatorOptions.t) (p : string)
  (kept : list JsValue) : list ValidationError :=
  if ArrayValidatorOptions.unique arrayOptions
     && negb (List.length kept =? 0)%nat
  then map (ArrayValidator.duplicate_error p kept)
         (ArrayValidator.find_duplicates 0 kept [] [])
  else [].

Definition is_array (x : JsValue) : bool :=
  match x with VArray _ => true | _ => false end.

(** A value that has properties of its own to validate: an object that is
    neither null nor an array. *)
Definition is_plain_object (x : JsValue) : bool :=
  match x with VObject _ | VObjectOver _ _ | VDate _ => true | _ => false end.

(** What the object validator calls the kind of a value that is no object. *)
Definition kind_for_object (x : JsValue) : string :=
  match x with
  | VArray _ => "array"
  | _ => typeof x
  end.

(** ** Objects *)

(** The result of the validator of a field on the own property of the value
    under the key of the field, [undefined] when the value has none: what
    the field is validated on when no built-in prototype has the key. *)
Definition field_result (props : list (string * JsValue)) (p : string)
  (kv : string * Validator) : ValidationResult :=
  validate (snd kv) (get props (fst kv)) (ObjectValidator.fieldPath p (fst kv)).

(** The errors for the keys that the schema does not declare. *)
Definition unexpected_errors (oo : ObjectValidatorOptions.t)
  (schema : list (string * Validator)) (props : list (string * JsValue))
  (p : string) : list ValidationError :=
  if ObjectValidatorOptions.strict oo
  then map (ObjectValidator.unexpected props p)
         (ObjectValidator.extra_keys (keys schema) props)
  else [].

(** ** Paths *)

(** The error is located at the path [p] or below it: its path starts with
    [p]. *)
Definition located_under (p : string) (e : ValidationError) : Prop :=
  Str.startsWith (path e) p = true.

End Properties.

(* ================================================================== *)
(** * Examples on the sample host *)
(* ================================================================== *)

Module Examples.

Definition host := SampleHost.host.

(** [object({a: string()})] and the value [{a: "x", b: 1}]. *)
Definition schema_a : list (string * Validator) := [("a", Schema.string)].
Definition value_ab : list (string * JsValue) :=
  [("a", VString "x"); ("b", VNumber Num.one)].

(** The store after [Schema.string()], and the instance it returned. *)
Definition store_string : Heap.heap :=
  [Heap.OString StringValidatorOptions.empty;
   Heap.OString StringValidatorOptions.empty].
Definition instance_string : Heap.Instance := Heap.string_instance 1 0.

End Examples.

(* ================================================================== *)
(** * Proofs *)
(* ================================================================== *)

(* ================================================================== *)
(** * Results: what every call of [validate] returns *)
(* ================================================================== *)

Section ResultInvariant.
Context {host : Host}.

Lemma createFailure_well_formed x e es :
  well_formed_result x (createFailure (e :: es)).
Proof.
  unfold well_formed_result, createFailure; simpl.
  repeat split; intros; try discriminate; auto.
Qed.

Lemma createSuccess_well_formed x d :
  d <> VUndefined -> well_formed_result x (createSuccess d).
Proof.
  intros Hd. unfold well_formed_result, createSuccess; simpl.
  repeat split; intros; try discriminate; auto.
  exists d; split; [reflexivity | intros ->; contradiction].
Qed.

Lemma finish_well_formed x es d :
  d <> VUndefined -> well_formed_result x (finish es d).
Proof.
  intros Hd. destruct es as [| e es]; simpl.
  - now apply createSuccess_well_formed.
  - apply createFailure_well_formed.
Qed.

Lemma map_with_message_nil m (es : list ValidationError) :
  map (with_message m) es = [] <-> es = [].
Proof.
  destruct es; simpl; split; intros H; try reflexivity; discriminate.
Qed.

(** Replacing the messages of a failure keeps the invariant. *)
Lemma relabel_well_formed x m r :
  well_formed_result x r ->
  well_formed_result x
    {| isValid := isValid r; data := data r;
       errors := map (with_message m) (errors r) |}.
Proof.
  intros (Hv & Hf & Hs). unfold well_formed_result; simpl.
  rewrite map_with_message_nil. auto.
Qed.

Lemma BaseValidator_validate_well_formed options validateValue x p :
  well_formed_result x (validateValue x p) ->
  well_formed_result x (BaseValidator.validate options validateValue x p).
Proof.
  intros H. unfold BaseValidator.validate.
  destruct (ValidatorOptions.optional options && is_absent x) eqn:Habs.
  - apply andb_true_iff in Habs as [_ Habs].
    unfold well_formed_result, absent_success; simpl.
    repeat split; intros; try discriminate; eauto.
  - destruct (custom_message options) as [m |]; [| exact H].
    destruct (negb (isValid (validateValue x p))); [| exact H].
    now apply relabel_well_formed.
Qed.

Lemma StringValidator_well_formed so x p :
  well_formed_result x (StringValidator.validateValue so x p).
Proof.
  unfold StringValidator.validateValue.
  destruct x; try apply createFailure_well_formed.
  apply finish_well_formed; discriminate.
Qed.

Lemma NumberValidator_well_formed no x p :
  well_formed_result x (NumberValidator.validateValue no x p).
Proof.
  unfold NumberValidator.validateValue.
  destruct x; try apply createFailure_well_formed.
  destruct (Num.isNaN n); [apply createFailure_well_formed |].
  apply finish_well_formed; discriminate.
Qed.

Lemma BooleanValidator_well_formed bo x p :
  well_formed_result x (BooleanValidator.validateValue bo x p).
Proof.
  unfold BooleanValidator.validateValue, BooleanValidator.cannot_convert.
  destruct (BooleanValidatorOptions.strict bo).
  - destruct x; try apply createFailure_well_formed.
    apply createSuccess_well_formed; discriminate.
  - destruct (BooleanValidatorOptions.truthy bo).
    + apply createSuccess_well_formed; discriminate.
    + destruct x; try apply createFailure_well_formed;
        repeat match goal with
               | |- context [if ?c then _ else _] => destruct c
               end;
        try apply createFailure_well_formed;
        apply createSuccess_well_formed; discriminate.
Qed.

Lemma DateValidator_well_formed do x p :
  well_formed_result x (DateValidator.validateValue do x p).
Proof.
  unfold DateValidator.validateValue, DateValidator.check_format,
    DateValidator.to_date, DateValidator.invalid_date.
  destruct (DateValidatorOptions.format do) as [[| |] |]; destruct x;
    repeat match goal with
           | |- context [if ?c then _ else _] => destruct c
           end;
    try apply createFailure_well_formed;
    try (apply finish_well_formed; discriminate).
Qed.

Lemma ArrayValidator_well_formed item ao x p :
  well_formed_result x (ArrayValidator.validateValue item ao x p).
Proof.
  unfold ArrayValidator.validateValue.
  destruct x; try apply createFailure_well_formed.
  destruct (ArrayValidator.validate_items _ _ _ _ _ _) as [es vs].
  apply finish_well_formed; discriminate.
Qed.

Lemma object_value_defined (object : JsObject) : object_value object <> VUndefined.
Proof.
  unfold object_value. destruct (prototype object); discriminate.
Qed.

Lemma ObjectValidator_well_formed fields oo x p :
  well_formed_result x (ObjectValidator.validateValue fields oo x p).
Proof.
  unfold ObjectValidator.validateValue, ObjectValidator.validate_props.
  destruct x; try apply createFailure_well_formed.
  - destruct (ObjectValidatorOptions.allowNull oo).
    + apply createSuccess_well_formed; discriminate.
    + apply createFailure_well_formed.
  - destruct (ObjectValidator.validate_fields _ _ _ _ _) as [es vo].
    destruct (ObjectValidatorOptions.strict oo);
      apply finish_well_formed; apply object_value_defined.
  - destruct (ObjectValidator.validate_fields _ _ _ _ _) as [es vo].
    destruct (ObjectValidatorOptions.strict oo);
      apply finish_well_formed; apply object_value_defined.
  - destruct (ObjectValidator.validate_fields _ _ _ _ _) as [es vo].
    destruct (ObjectValidatorOptions.strict oo);
      apply finish_well_formed; apply object_value_defined.
Qed.

(** A union returns the result of one of its members or its own failure. *)
Lemma first_valid_well_formed (fs : list validate_fn) x p r :
  Forall (fun f => well_formed_result x (f x p)) fs ->
  Schema.first_valid fs x p = Some r -> well_formed_result x r.
Proof.
  induction 1 as [| f fs Hf _ IH]; simpl; [discriminate |].
  destruct (isValid (f x p)); [| exact IH].
  now intros [= <-].
Qed.

Lemma union_validate_well_formed (fs : list validate_fn) x p :
  Forall (fun f => well_formed_result x (f x p)) fs ->
  well_formed_result x (Schema.union_validate fs x p).
Proof.
  intros H. unfold Schema.union_validate.
  destruct (Schema.first_valid fs x p) as [r |] eqn:E.
  - eapply first_valid_well_formed; eauto.
  - unfold well_formed_result, Schema.no_match; simpl.
    repeat split; intros; try discriminate; auto.
Qed.

(** Every result of [validate] is well formed. *)
Lemma every_result_well_formed :
  forall (v : Validator) (x : JsValue) (p : string),
    well_formed_result x (validate v x p).
Proof.
  induction v using Validator_ind; intros x p; simpl.
  - apply BaseValidator_validate_well_formed, StringValidator_well_formed.
  - apply BaseValidator_validate_well_formed, NumberValidator_well_formed.
  - apply BaseValidator_validate_well_formed, BooleanValidator_well_formed.
  - apply BaseValidator_validate_well_formed, DateValidator_well_formed.
  - apply BaseValidator_validate_well_formed, ArrayValidator_well_formed.
  - apply BaseValidator_validate_well_formed, ObjectValidator_well_formed.
  - unfold well_formed_result, Schema.any_validate; simpl.
    repeat split; intros; try discriminate; auto.
    exists x; split; [reflexivity | intros ->; reflexivity].
  - unfold Schema.nullable_validate.
    destruct (is_absent x) eqn:Habs; [| apply IHv].
    unfold well_formed_result; simpl.
    repeat split; intros; try discriminate; auto.
    exists VNull; split; [reflexivity | discriminate].
  - apply union_validate_well_formed.
    rewrite Forall_map. revert H. apply Forall_impl. auto.
  - unfold Schema.union_message_validate.
    assert (Hu : well_formed_result x
                   (Schema.union_validate (map validate l) x p)).
    { apply union_validate_well_formed.
      rewrite Forall_map. revert H. apply Forall_impl. auto. }
    destruct (negb (isValid _)); [| exact Hu].
    now apply relabel_well_formed.
Qed.


End ResultInvariant.

(* ================================================================== *)
(** * Validators built by the library *)
(* ================================================================== *)

Lemma constructed_optional v : constructed v -> constructed (optional v).
Proof.
  destruct 1; simpl; try constructor; auto.
Qed.

Lemma constructed_withMessage m v : constructed v -> constructed (withMessage m v).
Proof.
  induction v using Validator_ind; inversion 1; subst; simpl;
    try constructor; auto.
Qed.

(* ================================================================== *)
(** * [optional] *)
(* ================================================================== *)

Section Optional.
Context {host : Host}.

(** With the flag set, the base method accepts an absence sentinel at once. *)
Lemma BaseValidator_validate_absent options validateValue s p :
  ValidatorOptions.optional options = true -> is_absent s = true ->
  BaseValidator.validate options validateValue s p = absent_success.
Proof.
  intros Ho Hs. unfold BaseValidator.validate. now rewrite Ho, Hs.
Qed.

(** On any other value the flag is not looked at. *)
Lemma BaseValidator_validate_present options options' validateValue x p :
  ValidatorOptions.message options' = ValidatorOptions.message options ->
  is_absent x = false ->
  BaseValidator.validate options' validateValue x p
  = BaseValidator.validate options validateValue x p.
Proof.
  intros Hm Hx. unfold BaseValidator.validate, custom_message.
  rewrite Hx, !andb_false_r, Hm. reflexivity.
Qed.

(** C1 (amended).  Let [v] be a validator built by the library that is not a
    union.  On an absence sentinel, [v.optional()] succeeds with no error; it
    returns no data when [v] is an instance of one of the six classes, the
    sentinel itself when [v] is [any()], and null when [v] is [nullable(w)].
    On every other value [v.optional()] returns what [v] returns. *)
Theorem optional_spec :
  forall (v : Validator) (p : string),
    constructed v -> is_union v = false ->
    (forall s, is_absent s = true ->
       validate (optional v) s p
       = {| isValid := true; data := Some (data_on_absent v s); errors := [] |})
    /\ (forall x, is_absent x = false ->
          validate (optional v) x p = validate v x p).
Proof.
  intros v p Hc Hu.
  destruct Hc; try discriminate; simpl; split; intros x Hx;
    try (now apply BaseValidator_validate_absent);
    try (now apply BaseValidator_validate_present);
    try reflexivity.
  unfold Schema.nullable_validate. now rewrite Hx.
Qed.

(** ** C10 *)


End Optional.

(* ================================================================== *)
(** * [union] *)
(* ================================================================== *)

Section Union.
Context {host : Host}.

Lemma first_valid_find (l : list Validator) x p :
  Schema.first_valid (map validate l) x p
  = match first_accepting l x p with
    | Some v => Some (validate v x p)
    | None => None
    end.
Proof.
  unfold first_accepting.
  induction l as [| v l IH]; simpl; [reflexivity |].
  destruct (isValid (validate v x p)); [reflexivity | exact IH].
Qed.

(** The members before the deciding one reject the value. *)
Lemma first_accepting_first (l : list Validator) x p v :
  first_accepting l x p = Some v ->
  exists before after,
    l = before ++ v :: after
    /\ isValid (validate v x p) = true
    /\ Forall (fun w => isValid (validate w x p) = false) before.
Proof.
  unfold first_accepting.
  induction l as [| w l IH]; simpl; [discriminate |].
  destruct (isValid (validate w x p)) eqn:E.
  - intros [= <-]. exists [], l. repeat split; auto.
  - intros H. destruct (IH H) as (before & after & -> & Hv & Hb).
    exists (w :: before), after. repeat split; auto.
Qed.

(** C4.  [union(list).validate(x, p)] returns, as it is, the result of the
    first member of the list that accepts [x]; when no member accepts it, in
    particular when the list is empty, it returns a failure with the single
    error [Value does not match any of the union types] at the path [p], and
    [union(list).withMessage(m)] returns that error with the message [m] in
    its place (and the same result as the union on a success). *)
Theorem union_spec :
  forall (validators : list Validator) (x : JsValue) (p : string),
    (validate (Schema.union validators) x p
     = match first_accepting validators x p with
       | Some v => validate v x p
       | None =>
           createFailure
             [createError p "Value does not match any of the union types" x]
       end)
    /\ (forall m,
          validate (withMessage m (Schema.union validators)) x p
          = match first_accepting validators x p with
            | Some v => validate v x p
            | None => createFailure [createError p m x]
            end)
    /\ (validate (Schema.union []) x p
        = createFailure
            [createError p "Value does not match any of the union types" x]).
Proof.
  intros l x p. simpl.
  unfold Schema.union_message_validate, Schema.union_validate.
  rewrite first_valid_find.
  repeat split; try reflexivity.
  - destruct (first_accepting l x p); reflexivity.
  - intros m. destruct (first_accepting l x p) as [v |] eqn:E; [| reflexivity].
    apply first_accepting_first in E as (_ & _ & _ & Hv & _).
    now rewrite Hv.
Qed.

End Union.

(* ================================================================== *)
(** * A value of the wrong kind *)
(* ================================================================== *)

Section WrongKind.
Context {host : Host}.


End WrongKind.

(* ================================================================== *)
(** * The errors of a call, and custom messages *)
(* ================================================================== *)

Lemma BaseValidator_validate_errors options validateValue x p :
  is_absent x = false ->
  (isValid (validateValue x p) = true -> errors (validateValue x p) = []) ->
  errors (BaseValidator.validate options validateValue x p)
  = relabel options (errors (validateValue x p))
  /\ isValid (BaseValidator.validate options validateValue x p)
     = isValid (validateValue x p)
  /\ data (BaseValidator.validate options validateValue x p)
     = data (validateValue x p).
Proof.
  intros Hx Hv. unfold BaseValidator.validate, relabel.
  rewrite Hx, andb_false_r.
  destruct (custom_message options) as [m |]; [| auto].
  destruct (isValid (validateValue x p)) eqn:E; simpl; [| auto].
  rewrite E, (Hv eq_refl). auto.
Qed.

(* ================================================================== *)
(** * Objects: strict mode *)
(* ================================================================== *)

Section StrictMode.
Context {host : Host}.

Lemma lookup_replace_property {A : Type} (props : list (string * A)) k v k' :
  lookup props k <> None ->
  lookup (replace_property props k v) k'
  = if String.eqb k' k then Some v else lookup props k'.
Proof.
  induction props as [| [k0 w] props IH]; simpl; [congruence |].
  destruct (String.eqb k k0) eqn:E; simpl.
  - intros _. apply String.eqb_eq in E; subst k0.
    destruct (String.eqb k' k); reflexivity.
  - intros H. rewrite (IH H). destruct (String.eqb k' k) eqn:E'; [| reflexivity].
    apply String.eqb_eq in E'; subst k'. now rewrite E.
Qed.

Lemma lookup_add_property {A : Type} (props : list (string * A)) k v k' :
  lookup props k = None ->
  lookup (add_property props k v) k'
  = if String.eqb k' k then Some v else lookup props k'.
Proof.
  induction props as [| [k0 w] props IH]; simpl; [reflexivity |].
  destruct (String.eqb k k0) eqn:E; [discriminate |]. intros H.
  destruct (comes_before k k0); simpl.
  - destruct (String.eqb k' k); reflexivity.
  - rewrite (IH H). destruct (String.eqb k' k) eqn:E'; [| reflexivity].
    apply String.eqb_eq in E'; subst k'. now rewrite E.
Qed.

Lemma lookup_assign {A : Type} (props : list (string * A)) k v k' :
  lookup (assign props k v) k'
  = if String.eqb k' k then Some v else lookup props k'.
Proof.
  unfold assign. destruct (lookup props k) eqn:E.
  - apply lookup_replace_property. congruence.
  - now apply lookup_add_property.
Qed.

Lemma lookup_has_key {A : Type} (props : list (string * A)) k :
  has_key (keys props) k = false <-> lookup props k = None.
Proof.
  unfold has_key, keys.
  induction props as [| [k0 w] props IH]; simpl; [tauto |].
  destruct (String.eqb k k0); simpl; [| exact IH].
  split; discriminate.
Qed.

(** An assignment to a key other than [__proto__] makes or changes the own
    property of that key, and leaves the prototype as it is. *)
Lemma set_property_other object k v :
  String.eqb k "__proto__" = false ->
  set_property object k v
  = {| prototype := prototype object;
       properties := assign (properties object) k v |}.
Proof.
  intros E. unfold set_property. now rewrite E.
Qed.

(** No assignment changes the own property of another key. *)
Lemma lookup_set_property_other object k v k' :
  String.eqb k' k = false ->
  lookup (properties (set_property object k v)) k' = lookup (properties object) k'.
Proof.
  intros E. unfold set_property.
  destruct (_ && _ && _); simpl.
  - destruct v; reflexivity.
  - now rewrite lookup_assign, E.
Qed.

(** After the copy, each additional key other than [__proto__] holds the
    value it has in the input. *)
Lemma lookup_copy_extra props extra validatedObject key :
  String.eqb key "__proto__" = false ->
  lookup (properties (ObjectValidator.copy_extra props extra validatedObject)) key
  = if has_key extra key then Some (get props key)
    else lookup (properties validatedObject) key.
Proof.
  intros Hkey. unfold ObjectValidator.copy_extra, has_key.
  revert validatedObject.
  induction extra as [| k extra IH]; intros vo; simpl; [reflexivity |].
  rewrite IH.
  destruct (existsb (String.eqb key) extra); simpl;
    [now rewrite orb_true_r |].
  rewrite orb_false_r.
  destruct (String.eqb key k) eqn:E.
  - apply String.eqb_eq in E; subst k.
    rewrite (set_property_other _ _ _ Hkey). simpl.
    now rewrite lookup_assign, String.eqb_refl.
  - now apply lookup_set_property_other.
Qed.

(** The copy of keys other than [__proto__] leaves the prototype as it is. *)
Lemma prototype_copy_extra props extra validatedObject :
  has_key extra "__proto__" = false ->
  prototype (ObjectValidator.copy_extra props extra validatedObject)
  = prototype validatedObject.
Proof.
  unfold ObjectValidator.copy_extra, has_key. revert validatedObject.
  induction extra as [| k extra IH]; intros vo; simpl; [reflexivity |].
  intros H. apply orb_false_iff in H as [Hk Hrest].
  rewrite (IH _ Hrest), set_property_other; [reflexivity |].
  now rewrite String.eqb_sym.
Qed.

(** So does the loop over a schema that has no field [__proto__]. *)
Lemma prototype_validate_fields fields props p es vo :
  has_key (keys fields) "__proto__" = false ->
  prototype (snd (ObjectValidator.validate_fields fields props p es vo))
  = prototype vo.
Proof.
  unfold has_key, keys. revert es vo.
  induction fields as [| [key f] fields IH]; intros es vo; simpl;
    [reflexivity |].
  intros H. apply orb_false_iff in H as [Hk Hrest].
  destruct (negb (isValid (f (get props key) (ObjectValidator.fieldPath p key))));
    [now apply IH |].
  destruct (has_data (f (get props key) (ObjectValidator.fieldPath p key)));
    [| now apply IH].
  rewrite (IH _ _ Hrest), set_property_other; [reflexivity |].
  now rewrite String.eqb_sym.
Qed.

Lemma has_key_In ks key : has_key ks key = true <-> In key ks.
Proof.
  unfold has_key. rewrite existsb_exists. split.
  - intros (k & Hk & E). apply String.eqb_eq in E. now subst.
  - intros H. exists key. split; [assumption | apply String.eqb_refl].
Qed.

Lemma has_key_filter f ks key :
  has_key ks key = false -> has_key (filter f ks) key = false.
Proof.
  unfold has_key. induction ks as [| k ks IH]; simpl; [reflexivity |].
  intros H. apply orb_false_iff in H as [Hk Hrest].
  destruct (f k); simpl; [rewrite Hk |]; now apply IH.
Qed.

(** A key that no built-in prototype has is not [__proto__]. *)
Lemma plain_key_not_proto k : plain_key k = true -> String.eqb k "__proto__" = false.
Proof.
  intros H. destruct (String.eqb k "__proto__") eqn:E; [| reflexivity].
  apply String.eqb_eq in E. subst k. discriminate H.
Qed.

Lemma plain_keys_no_proto ks :
  forallb plain_key ks = true -> has_key ks "__proto__" = false.
Proof.
  unfold has_key. induction ks as [| k ks IH]; cbn [existsb forallb];
    [reflexivity |].
  intros H. apply andb_true_iff in H as [Hk Hrest].
  rewrite (IH Hrest), String.eqb_sym, (plain_key_not_proto _ Hk). reflexivity.
Qed.

(** The loop over the schema and the copy make no own property [__proto__]
    on an object made by [{}], as long as each key is assigned once. *)
Lemma copy_extra_no_proto props extra validatedObject :
  NoDup extra ->
  lookup (properties validatedObject) "__proto__" = None ->
  (In "__proto__" extra -> prototype validatedObject = None) ->
  lookup (properties (ObjectValidator.copy_extra props extra validatedObject))
    "__proto__" = None.
Proof.
  unfold ObjectValidator.copy_extra. revert validatedObject.
  induction extra as [| k extra IH]; intros vo Hnd Hown Hproto; simpl;
    [exact Hown |].
  inversion Hnd as [| k0 l0 Hnotin Hnd']; subst.
  destruct (String.eqb k "__proto__") eqn:E.
  - apply String.eqb_eq in E. subst k.
    apply IH; [exact Hnd' | | intros Hin; contradiction].
    unfold set_property.
    rewrite (proj2 (lookup_has_key _ _) Hown), (Hproto (or_introl eq_refl)).
    simpl. destruct (get props "__proto__"); exact Hown.
  - apply IH; [exact Hnd' | |].
    + rewrite lookup_set_property_other; [exact Hown |].
      now rewrite String.eqb_sym.
    + intros Hin. rewrite (set_property_other _ _ _ E). simpl.
      apply Hproto. now right.
Qed.

Lemma validate_fields_no_proto fields props p es vo :
  has_key (keys fields) "__proto__" = false ->
  lookup (properties (snd (ObjectValidator.validate_fields fields props p es vo)))
    "__proto__"
  = lookup (properties vo) "__proto__".
Proof.
  unfold has_key, keys. revert es vo.
  induction fields as [| [key f] fields IH]; intros es vo; simpl;
    [reflexivity |].
  intros H. apply orb_false_iff in H as [Hk Hrest].
  destruct (negb (isValid (f (get props key) (ObjectValidator.fieldPath p key))));
    [now apply IH |].
  destruct (has_data (f (get props key) (ObjectValidator.fieldPath p key)));
    [| now apply IH].
  rewrite (IH _ _ Hrest). now apply lookup_set_property_other.
Qed.

Lemma own_properties_object_value (object : JsObject) :
  own_properties (object_value object) = properties object.
Proof. unfold object_value. destruct (prototype object); reflexivity. Qed.


(** C6: the key [__proto__].  Without strict mode the object validator
    assigns each key that the schema does not declare to the object it
    returns; for an own key [__proto__] of the input, as [JSON.parse] makes
    it, the assignment calls the setter of Object.prototype and makes no
    property.  The schema [{ name: string() }] on
    [JSON.parse('{"__proto__": {"polluted": true}, "name": "test"}')] gives a
    valid result whose data has the one own property [name], and the object
    [{ polluted: true }] of the input as its prototype; the schema [{}] on
    [JSON.parse('{"__proto__": 5}')] gives the data [{}].  For every object
    validator whose schemas declare their fields under keys that no built-in
    prototype has, and every object, the data of the result has no own
    property [__proto__]. *)
Theorem proto_key_not_copied :
  validate (Schema.object [("name", Schema.string)])
    (VObject [("__proto__", VObject [("polluted", VBoolean true)]);
              ("name", VString "test")]) "root"
  = createSuccess
      (VObjectOver (VObject [("polluted", VBoolean true)])
         [("name", VString "test")])
  /\ validate (Schema.object [])
       (VObject [("__proto__", VNumber (Num.of_Z 5))]) "root"
     = createSuccess (VObject [])
  /\ forall (schema : list (string * Validator))
            (o oo : ObjectValidatorOptions.t)
            (props : list (string * JsValue)) (p : string) (d : JsValue),
       plain_schema (object_validator schema o oo) = true ->
       NoDup (keys props) ->
       data (validate (object_validator schema o oo) (VObject props) p) = Some d ->
       lookup (own_properties d) "__proto__" = None.
Proof.
  split; [reflexivity |]. split; [reflexivity |].
  intros schema o oo props p d Hschema Hnd.
  simpl in Hschema. apply andb_true_iff in Hschema as [Hschema _].
  apply plain_keys_no_proto in Hschema. simpl.
  set (fields := map (fun kv => (fst kv, validate (snd kv))) schema).
  assert (Hk : keys fields = keys schema).
  { unfold fields, keys. rewrite map_map. reflexivity. }
  destruct (BaseValidator_validate_errors (ObjectValidatorOptions.base o)
              (ObjectValidator.validateValue fields oo) (VObject props) p
              eq_refl) as (_ & _ & Hd).
  { apply (ObjectValidator_well_formed fields oo (VObject props) p). }
  rewrite Hd. clear Hd.
  unfold ObjectValidator.validateValue, ObjectValidator.validate_props.
  rewrite <- Hk in Hschema.
  pose proof (prototype_validate_fields fields props p [] empty_object Hschema)
    as Hp.
  pose proof (validate_fields_no_proto fields props p [] empty_object Hschema)
    as Hown.
  destruct (ObjectValidator.validate_fields fields props p [] empty_object)
    as [es vo].
  simpl in Hp, Hown.
  assert (Hvalue : forall object,
             lookup (properties object) "__proto__" = None ->
             lookup (own_properties (object_value object)) "__proto__" = None).
  { intros object H. unfold object_value.
    destruct (prototype object); exact H. }
  destruct (ObjectValidatorOptions.strict oo).
  - destruct (es ++ map _ _); simpl; [| discriminate].
    intros H; injection H as <-. now apply Hvalue.
  - destruct es as [| e es]; simpl; [| discriminate].
    intros H; injection H as <-. apply Hvalue.
    apply copy_extra_no_proto; [| exact Hown | intros _; exact Hp].
    unfold ObjectValidator.extra_keys. now apply NoDup_filter.
Qed.

End StrictMode.

(* ================================================================== *)
(** * Dates: impossible months and days *)
(* ================================================================== *)

Section DatePlausibility.
Context {host : Host}.

Lemma Num_lt_of_Z a b : Num.lt (Num.of_Z a) (Num.of_Z b) = (a <? b)%Z.
Proof.
  unfold Num.lt, Num.of_Z, Num.Qlt_bool, Qle_bool; simpl.
  rewrite !Z.mul_1_r. now rewrite Z.ltb_antisym.
Qed.

Lemma Num_gt_of_Z a b : Num.gt (Num.of_Z a) (Num.of_Z b) = (b <? a)%Z.
Proof. unfold Num.gt. apply Num_lt_of_Z. Qed.

Lemma Num_eq_of_Z a b : Num.eq (Num.of_Z a) (Num.of_Z b) = (a =? b)%Z.
Proof.
  unfold Num.eq, Num.of_Z, Qeq_bool; simpl. now rewrite !Z.mul_1_r.
Qed.

(** A string that splits into two pieces or more holds the separator. *)
Lemma split_chars_contains sep l a b rest :
  Str.split_chars sep l = a :: b :: rest -> Str.contains [sep] l = true.
Proof.
  revert a b rest.
  induction l as [| c l IH]; intros a b rest; simpl; [discriminate |].
  destruct (Ascii.eqb c sep) eqn:E.
  - intros _. rewrite Ascii.eqb_sym, E. reflexivity.
  - destruct (Str.split_chars sep l) as [| piece pieces] eqn:Es;
      [discriminate |].
    intros [= _ Hp]. subst pieces.
    rewrite (IH _ _ _ eq_refl). apply orb_true_r.
Qed.

Lemma chars_of_chars l : Str.chars (Str.of_chars l) = l.
Proof. apply list_ascii_of_string_of_list_ascii. Qed.

Lemma of_chars_chars s : Str.of_chars (Str.chars s) = s.
Proof. apply string_of_list_ascii_of_string. Qed.

Lemma split_parts s sep a b rest :
  Str.split s sep = a :: b :: rest ->
  Str.contains [sep] (Str.chars s) = true /\ String.eqb s EmptyString = false.
Proof.
  unfold Str.split. intros H.
  destruct (Str.split_chars sep (Str.chars s)) as [| a' [| b' rest']] eqn:E;
    try discriminate.
  split.
  - eapply split_chars_contains; eauto.
  - destruct s; [discriminate | reflexivity].
Qed.

Lemma impossible_parts_true originalString part0 part1 part2 rest :
  Str.split originalString (ascii_of_nat 45) = part0 :: part1 :: part2 :: rest ->
  impossible_month_or_day part1 part2 ->
  DateValidator.impossible_parts originalString = true.
Proof.
  intros Hsplit Himp. unfold DateValidator.impossible_parts.
  destruct (split_parts _ _ _ _ _ Hsplit) as [Hc _].
  unfold Str.includes. change (Str.chars "-") with [ascii_of_nat 45].
  rewrite Hc, Hsplit.
  destruct Himp as [(n & -> & Hn) | [(n & -> & Hn) | (-> & n & -> & Hn)]].
  - rewrite Num_gt_of_Z, Num_lt_of_Z.
    destruct Hn as [Hn | Hn].
    + apply Z.ltb_lt in Hn. rewrite Hn. now rewrite orb_true_r.
    + apply Z.ltb_lt in Hn. now rewrite Hn.
  - rewrite (Num_gt_of_Z n), (Num_lt_of_Z n).
    destruct Hn as [Hn | Hn]; apply Z.ltb_lt in Hn; rewrite Hn;
      rewrite ?orb_true_r; reflexivity.
  - rewrite Num_eq_of_Z, (Num_gt_of_Z n 29).
    apply Z.ltb_lt in Hn. rewrite Hn. simpl. apply orb_true_r.
Qed.


End DatePlausibility.

(* ================================================================== *)
(** * Configuration methods on the store *)
(* ================================================================== *)

Lemma extends_refl h : extends h h.
Proof. exists []. now rewrite app_nil_r. Qed.

Lemma extends_trans h1 h2 h3 : extends h1 h2 -> extends h2 h3 -> extends h1 h3.
Proof.
  intros [t1 ->] [t2 ->]. exists (t1 ++ t2). now rewrite app_assoc.
Qed.

Lemma extends_snoc h o : extends h (h ++ [o]).
Proof. now exists [o]. Qed.

Lemma extends_length h h' : extends h h' -> List.length h <= List.length h'.
Proof. intros [t ->]. rewrite length_app. lia. Qed.

Lemma extends_nth_error h h' l (o : Heap.options_object) :
  extends h h' -> nth_error h l = Some o -> nth_error h' l = Some o.
Proof.
  intros [t ->] H. rewrite nth_error_app1; [assumption |].
  apply nth_error_Some. congruence.
Qed.

Lemma nth_error_snoc (h : Heap.heap) o : nth_error (h ++ [o]) (List.length h) = Some o.
Proof.
  rewrite nth_error_app2 by lia. now rewrite Nat.sub_diag.
Qed.

Lemma sequence_Some {A : Type} (l : list (option A)) (ys : list A) :
  Heap.sequence l = Some ys <-> l = map Some ys.
Proof.
  revert ys. induction l as [| x l IH]; intros ys; simpl.
  - split.
    + intros [= <-]. reflexivity.
    + destruct ys; [reflexivity | discriminate].
  - destruct x as [a |].
    + destruct (Heap.sequence l) as [l' |] eqn:E.
      * split.
        -- intros [= <-]. simpl. f_equal. now apply IH.
        -- destruct ys as [| y ys]; [discriminate |].
           intros [= -> H]. apply IH in H. now injection H as ->.
      * split; [discriminate |].
        destruct ys as [| y ys]; [discriminate |].
        intros [= -> H]. apply IH in H. discriminate.
    + split; [discriminate |].
      destruct ys; discriminate.
Qed.

(** Reading an instance gives the same validator in a store that extends the
    one it was read in. *)
Lemma extends_load h h' :
  extends h h' ->
  forall i v, Heap.load h i = Some v -> Heap.load h' i = Some v.
Proof.
  intros He.
  assert (Hn : forall l o, nth_error h l = Some o -> nth_error h' l = Some o)
    by (intros; eapply extends_nth_error; eauto).
  assert (Hseq : forall (l : list Heap.Instance),
            Forall (fun i => forall v, Heap.load h i = Some v ->
                                       Heap.load h' i = Some v) l ->
            forall vs, Heap.sequence (map (Heap.load h) l) = Some vs ->
                       Heap.sequence (map (Heap.load h') l) = Some vs).
  { induction 1 as [| i l Hi _ IH]; intros vs; simpl; [auto |].
    destruct (Heap.load h i) as [v |] eqn:Ei; [| discriminate].
    rewrite (Hi _ eq_refl).
    destruct (Heap.sequence (map (Heap.load h) l)) as [vs' |];
      [| discriminate].
    now rewrite (IH _ eq_refl). }
  induction i using Heap.Instance_ind; intros v; simpl;
    try (destruct (nth_error h lo) as [o1 |] eqn:E1; [| discriminate];
         destruct (nth_error h ls) as [o2 |] eqn:E2;
           [| destruct o1; discriminate];
         rewrite (Hn _ _ E1), (Hn _ _ E2); auto; fail).
  - destruct (Heap.load h i) as [w |] eqn:Ei; [| discriminate].
    rewrite (IHi _ eq_refl).
    destruct (nth_error h lo) as [o1 |] eqn:E1; [| discriminate].
    destruct (nth_error h ls) as [o2 |] eqn:E2; [| destruct o1; discriminate].
    now rewrite (Hn _ _ E1), (Hn _ _ E2).
  - destruct (Heap.sequence _) as [fields |] eqn:Ef; [| discriminate].
    assert (Ef' : Heap.sequence
                    (map (fun kv => option_map (pair (fst kv))
                                      (Heap.load h' (snd kv))) schema)
                  = Some fields).
    { clear - H Ef. revert fields Ef.
      induction H as [| kv schema Hkv _ IH]; intros fields; simpl; [auto |].
      destruct (Heap.load h (snd kv)) as [w |] eqn:Ew; [| discriminate].
      rewrite (Hkv _ eq_refl). simpl.
      destruct (Heap.sequence _) as [fs |]; [| discriminate].
      now rewrite (IH _ eq_refl). }
    rewrite Ef'.
    destruct (nth_error h lo) as [o1 |] eqn:E1; [| discriminate].
    destruct (nth_error h ls) as [o2 |] eqn:E2; [| destruct o1; discriminate].
    now rewrite (Hn _ _ E1), (Hn _ _ E2).
  - auto.
  - destruct (Heap.load h i) as [w |] eqn:Ei; [| discriminate].
    now rewrite (IHi _ eq_refl).
  - destruct (Heap.sequence (map (Heap.load h) l)) as [vs |] eqn:E;
      [| discriminate].
    now rewrite (Hseq _ H _ E).
  - destruct (Heap.sequence (map (Heap.load h) l)) as [vs |] eqn:E;
      [| discriminate].
    now rewrite (Hseq _ H _ E).
Qed.

Lemma extends_load_fields h h' schema fields :
  extends h h' ->
  Heap.load_fields h schema = Some fields ->
  Heap.load_fields h' schema = Some fields.
Proof.
  intros He. unfold Heap.load_fields. revert fields.
  induction schema as [| kv schema IH]; intros fields; simpl; [auto |].
  destruct (Heap.load h (snd kv)) as [w |] eqn:Ew; [| discriminate].
  rewrite (extends_load _ _ He _ _ Ew). simpl.
  destruct (Heap.sequence _) as [fs |]; [| discriminate].
  now rewrite (IH _ eq_refl).
Qed.

Lemma spread_run h source update o o' :
  nth_error h source = Some o -> update o = Some o' ->
  Heap.spread source update h = Some (List.length h, h ++ [o']).
Proof.
  intros Hs Hu. unfold Heap.spread, Heap.bind, Heap.read, Heap.alloc.
  now rewrite Hs, Hu.
Qed.

Lemma outcome_ret h i v : Heap.load h i = Some v -> outcome h (Heap.ret i) v false.
Proof.
  intros H. exists i, h. repeat split; auto using extends_refl. discriminate.
Qed.

Lemma outcome_weaken h m v b : outcome h m v true -> outcome h m v b.
Proof.
  intros (i2 & h' & Hm & He & Hl & Hf).
  exists i2, h'. repeat split; auto.
Qed.

(** The spread of an object of the store followed by the constructor: two
    new objects, the second a copy of the first, and the instance holds the
    two. *)
Lemma construction_run h source update copy_of o o'
  (mk : Heap.loc -> Heap.loc -> Heap.Instance) :
  nth_error h source = Some o -> update o = Some o' -> copy_of o' = Some o' ->
  Heap.bind (Heap.spread source update)
    (fun l => Heap.bind (Heap.spread l copy_of)
                (fun copy => Heap.ret (mk copy l))) h
  = Some (mk (S (List.length h)) (List.length h), h ++ [o'; o']).
Proof.
  intros Hs Hu Hc. unfold Heap.bind at 1.
  rewrite (spread_run h _ _ _ _ Hs Hu).
  unfold Heap.bind.
  rewrite (spread_run (h ++ [o']) _ _ _ _ (nth_error_snoc h o') Hc).
  unfold Heap.ret. rewrite length_app, Nat.add_1_r, <- app_assoc. reflexivity.
Qed.

Lemma nth_error_first_new (h : Heap.heap) o o' :
  nth_error (h ++ [o; o']) (List.length h) = Some o.
Proof. rewrite nth_error_app2 by lia. now rewrite Nat.sub_diag. Qed.

Lemma nth_error_second_new (h : Heap.heap) o o' :
  nth_error (h ++ [o; o']) (S (List.length h)) = Some o'.
Proof.
  rewrite nth_error_app2 by lia.
  replace (S (List.length h) - List.length h) with 1 by lia. reflexivity.
Qed.

Lemma extends_app h t : extends h (h ++ t).
Proof. now exists t. Qed.

Ltac finish_construction :=
  split; [apply extends_app |];
  split;
  [ cbn [Heap.load]; rewrite ?nth_error_first_new, ?nth_error_second_new
  | intros _; eexists; split; [reflexivity | lia] ].

Lemma outcome_string h source f so :
  nth_error h source = Some (Heap.OString so) ->
  outcome h
    (Heap.bind (Heap.spread source (Heap.on_string f)) Heap.new_StringValidator)
    (new_StringValidator (f so)) true.
Proof.
  intros Hs. do 2 eexists. split.
  - apply (construction_run h source _ _ _ (Heap.OString (f so))
             Heap.string_instance Hs); reflexivity.
  - finish_construction. reflexivity.
Qed.

Lemma outcome_number h source f so :
  nth_error h source = Some (Heap.ONumber so) ->
  outcome h
    (Heap.bind (Heap.spread source (Heap.on_number f)) Heap.new_NumberValidator)
    (new_NumberValidator (f so)) true.
Proof.
  intros Hs. do 2 eexists. split.
  - apply (construction_run h source _ _ _ (Heap.ONumber (f so))
             Heap.number_instance Hs); reflexivity.
  - finish_construction. reflexivity.
Qed.

Lemma outcome_boolean h source f so :
  nth_error h source = Some (Heap.OBoolean so) ->
  outcome h
    (Heap.bind (Heap.spread source (Heap.on_boolean f)) Heap.new_BooleanValidator)
    (new_BooleanValidator (f so)) true.
Proof.
  intros Hs. do 2 eexists. split.
  - apply (construction_run h source _ _ _ (Heap.OBoolean (f so))
             Heap.boolean_instance Hs); reflexivity.
  - finish_construction. reflexivity.
Qed.

Lemma outcome_date h source f so :
  nth_error h source = Some (Heap.ODate so) ->
  outcome h
    (Heap.bind (Heap.spread source (Heap.on_date f)) Heap.new_DateValidator)
    (new_DateValidator (f so)) true.
Proof.
  intros Hs. do 2 eexists. split.
  - apply (construction_run h source _ _ _ (Heap.ODate (f so))
             Heap.date_instance Hs); reflexivity.
  - finish_construction. reflexivity.
Qed.

Lemma outcome_array h source f so item v :
  nth_error h source = Some (Heap.OArray so) ->
  Heap.load h item = Some v ->
  outcome h
    (Heap.bind (Heap.spread source (Heap.on_array f))
       (Heap.new_ArrayValidator item))
    (new_ArrayValidator v (f so)) true.
Proof.
  intros Hs Hi. do 2 eexists. split.
  - apply (construction_run h source _ _ _ (Heap.OArray (f so))
             (Heap.array_instance item) Hs); reflexivity.
  - finish_construction.
    now rewrite (extends_load _ _ (extends_app h _) _ _ Hi).
Qed.

Lemma outcome_object h source f so schema fields :
  nth_error h source = Some (Heap.OObject so) ->
  Heap.load_fields h schema = Some fields ->
  outcome h
    (Heap.bind (Heap.spread source (Heap.on_object f))
       (Heap.new_ObjectValidator schema))
    (new_ObjectValidator fields (f so)) true.
Proof.
  intros Hs Hi. do 2 eexists. split.
  - apply (construction_run h source _ _ _ (Heap.OObject (f so))
             (Heap.object_instance schema) Hs); reflexivity.
  - finish_construction.
    pose proof (extends_load_fields _ _ _ _
                  (extends_app h [Heap.OObject (f so); Heap.OObject (f so)]) Hi)
      as Hf.
    unfold Heap.load_fields in Hf. now rewrite Hf.
Qed.

(** The constructor on an object that is already in the store: one new
    object, the copy. *)
Lemma outcome_new_object h options so schema fields :
  nth_error h options = Some (Heap.OObject so) ->
  Heap.load_fields h schema = Some fields ->
  outcome h (Heap.new_ObjectValidator schema options)
    (new_ObjectValidator fields so) true.
Proof.
  intros Hs Hi. unfold Heap.new_ObjectValidator.
  eexists; exists (h ++ [Heap.OObject so]).
  unfold Heap.bind.
  erewrite (spread_run h _ _ _ _ Hs) by reflexivity.
  unfold Heap.ret. split; [reflexivity |].
  split; [apply extends_snoc |].
  split.
  - cbn [Heap.load].
    pose proof (extends_load_fields _ _ _ _ (extends_snoc h (Heap.OObject so)) Hi)
      as Hf.
    unfold Heap.load_fields in Hf. rewrite Hf.
    now rewrite nth_error_snoc,
      (extends_nth_error _ _ _ _ (extends_snoc h _) Hs).
  - intros _. eexists; split; [reflexivity | lia].
Qed.

(** ** Schemas in the store *)

Lemma related_lookup {A B : Type} (rel : A -> B -> Prop) l l' key :
  related rel l l' ->
  match lookup l key, lookup l' key with
  | Some a, Some b => rel a b
  | None, None => True
  | _, _ => False
  end.
Proof.
  induction 1 as [| [k a] [k' b] l l' [Hk Hr] _ IH]; simpl; [exact I |].
  simpl in Hk, Hr. subst k'.
  destruct (String.eqb key k); [exact Hr | exact IH].
Qed.

Lemma related_assign {A B : Type} (rel : A -> B -> Prop) l l' key a b :
  related rel l l' -> rel a b -> related rel (assign l key a) (assign l' key b).
Proof.
  intros H Hab. unfold assign.
  pose proof (related_lookup rel l l' key H) as Hl.
  destruct (lookup l key), (lookup l' key); try contradiction; clear Hl.
  - induction H as [| [k x] [k' y] l l' [Hk Hr] Hl IH]; simpl.
    + constructor.
    + simpl in Hk, Hr. subst k'.
      destruct (String.eqb key k).
      * constructor; [split; auto | exact Hl].
      * constructor; [split; auto | exact IH].
  - induction H as [| [k x] [k' y] l l' [Hk Hr] Hl IH]; simpl.
    + constructor; [split; auto | constructor].
    + simpl in Hk, Hr. subst k'.
      destruct (comes_before key k).
      * constructor; [split; auto |].
        constructor; [split; auto | exact Hl].
      * constructor; [split; auto | exact IH].
Qed.

Lemma related_pick {A B : Type} (rel : A -> B -> Prop) l l' ks :
  related rel l l' -> related rel (pick_schema l ks) (pick_schema l' ks).
Proof.
  intros H. unfold pick_schema.
  assert (G : forall acc acc', related rel acc acc' ->
            related rel
              (fold_left (fun picked key =>
                            match lookup l key with
                            | Some v => assign picked key v
                            | None => picked
                            end) ks acc)
              (fold_left (fun picked key =>
                            match lookup l' key with
                            | Some v => assign picked key v
                            | None => picked
                            end) ks acc')).
  { induction ks as [| k ks IH]; intros acc acc' Hacc; simpl; [exact Hacc |].
    apply IH.
    pose proof (related_lookup rel l l' k H) as Hk.
    destruct (lookup l k), (lookup l' k); try contradiction; auto.
    now apply related_assign. }
  apply G. constructor.
Qed.

Lemma related_omit {A B : Type} (rel : A -> B -> Prop) l l' ks :
  related rel l l' -> related rel (omit_schema l ks) (omit_schema l' ks).
Proof.
  unfold omit_schema.
  induction 1 as [| [k x] [k' y] l l' [Hk Hr] Hl IH]; simpl; [constructor |].
  simpl in Hk, Hr. subst k'.
  destruct (negb (has_key ks k)); [| exact IH].
  constructor; [split; auto | exact IH].
Qed.

Lemma related_extend {A B : Type} (rel : A -> B -> Prop) l l' e e' :
  related rel l l' -> related rel e e' ->
  related rel (extend_schema l e) (extend_schema l' e').
Proof.
  intros Hl He. unfold extend_schema. revert l l' Hl.
  induction He as [| [k x] [k' y] e e' [Hk Hr] _ IH]; intros l l' Hl; simpl;
    [exact Hl |].
  simpl in Hk, Hr. subst k'. apply IH. now apply related_assign.
Qed.

Lemma load_fields_related h schema fields :
  Heap.load_fields h schema = Some fields
  <-> related (fun i v => Heap.load h i = Some v) schema fields.
Proof.
  unfold Heap.load_fields. revert fields.
  induction schema as [| [k i] schema IH]; intros fields; simpl.
  - split.
    + intros [= <-]. constructor.
    + inversion 1. reflexivity.
  - destruct (Heap.load h i) as [v |] eqn:Ei; simpl.
    + destruct (Heap.sequence _) as [fs |] eqn:Es.
      * split.
        -- intros [= <-]. constructor; [split; auto |]. now apply IH.
        -- inversion 1 as [| ? [k' v'] ? ? [Hk Hv] Hrest]; subst.
           simpl in Hk, Hv. subst k'. rewrite Ei in Hv. injection Hv as ->.
           apply IH in Hrest. now injection Hrest as ->.
      * split; [discriminate |].
        inversion 1 as [| ? ? ? ? _ Hrest]; subst.
        apply IH in Hrest. discriminate.
    + split; [discriminate |].
      inversion 1 as [| ? [k' v'] ? ? [_ Hv] _]; subst.
      simpl in Hv. congruence.
Qed.

(** ** Reading an instance of a class *)

Lemma load_string h lo ls v :
  Heap.load h (Heap.string_instance lo ls) = Some v ->
  exists o so, v = string_validator o so
               /\ nth_error h lo = Some (Heap.OString o)
               /\ nth_error h ls = Some (Heap.OString so).
Proof.
  simpl. destruct (nth_error h lo) as [[] |]; try discriminate;
    destruct (nth_error h ls) as [[] |]; try discriminate.
  intros [= <-]. eauto.
Qed.

Lemma load_number h lo ls v :
  Heap.load h (Heap.number_instance lo ls) = Some v ->
  exists o so, v = number_validator o so
               /\ nth_error h lo = Some (Heap.ONumber o)
               /\ nth_error h ls = Some (Heap.ONumber so).
Proof.
  simpl. destruct (nth_error h lo) as [[] |]; try discriminate;
    destruct (nth_error h ls) as [[] |]; try discriminate.
  intros [= <-]. eauto.
Qed.

Lemma load_boolean h lo ls v :
  Heap.load h (Heap.boolean_instance lo ls) = Some v ->
  exists o so, v = boolean_validator o so
               /\ nth_error h lo = Some (Heap.OBoolean o)
               /\ nth_error h ls = Some (Heap.OBoolean so).
Proof.
  simpl. destruct (nth_error h lo) as [[] |]; try discriminate;
    destruct (nth_error h ls) as [[] |]; try discriminate.
  intros [= <-]. eauto.
Qed.

Lemma load_date h lo ls v :
  Heap.load h (Heap.date_instance lo ls) = Some v ->
  exists o so, v = date_validator o so
               /\ nth_error h lo = Some (Heap.ODate o)
               /\ nth_error h ls = Some (Heap.ODate so).
Proof.
  simpl. destruct (nth_error h lo) as [[] |]; try discriminate;
    destruct (nth_error h ls) as [[] |]; try discriminate.
  intros [= <-]. eauto.
Qed.

Lemma load_array h item lo ls v :
  Heap.load h (Heap.array_instance item lo ls) = Some v ->
  exists w o so, v = array_validator w o so
                 /\ Heap.load h item = Some w
                 /\ nth_error h lo = Some (Heap.OArray o)
                 /\ nth_error h ls = Some (Heap.OArray so).
Proof.
  cbn [Heap.load]. destruct (Heap.load h item); try discriminate;
    destruct (nth_error h lo) as [[] |]; try discriminate;
    destruct (nth_error h ls) as [[] |]; try discriminate.
  intros [= <-]. eauto 8.
Qed.

Lemma load_object h schema lo ls v :
  Heap.load h (Heap.object_instance schema lo ls) = Some v ->
  exists fields o so, v = object_validator fields o so
                      /\ Heap.load_fields h schema = Some fields
                      /\ nth_error h lo = Some (Heap.OObject o)
                      /\ nth_error h ls = Some (Heap.OObject so).
Proof.
  cbn [Heap.load]. fold (Heap.load_fields h schema).
  destruct (Heap.load_fields h schema); try discriminate;
    destruct (nth_error h lo) as [[] |]; try discriminate;
    destruct (nth_error h ls) as [[] |]; try discriminate.
  intros [= <-]. eauto 8.
Qed.

(** ** The outcome of each method *)

Lemma outcome_mono h m v b b' :
  (b' = true -> b = true) -> outcome h m v b -> outcome h m v b'.
Proof.
  intros Hb (i2 & h' & Hm & He & Hl & Hf).
  exists i2, h'. repeat split; auto.
Qed.

Lemma outcome_bind {A : Type} h h1 (m : Heap.M A) k a v b :
  m h = Some (a, h1) -> extends h h1 -> outcome h1 (k a) v b ->
  outcome h (Heap.bind m k) v b.
Proof.
  intros Hm He (i2 & h' & Hk & He' & Hl & Hf).
  exists i2, h'. unfold Heap.bind. rewrite Hm.
  repeat split; auto.
  - eapply extends_trans; eauto.
  - intros Hb. destruct (Hf Hb) as (l & Hl' & Hlen).
    exists l. split; [assumption |].
    pose proof (extends_length _ _ He). lia.
Qed.

(** What reading an instance tells about the validator read. *)
Ltac read_instance H :=
  let Hload := fresh "Hload" in
  pose proof H as Hload;
  first
    [ apply load_string in H as (? & ? & -> & ? & ?)
    | apply load_number in H as (? & ? & -> & ? & ?)
    | apply load_boolean in H as (? & ? & -> & ? & ?)
    | apply load_date in H as (? & ? & -> & ? & ?)
    | apply load_array in H as (? & ? & ? & -> & ? & ? & ?)
    | apply load_object in H as (? & ? & ? & -> & ? & ? & ?)
    | cbn [Heap.load] in H;
      match type of H with
      | Some _ = Some _ => injection H as <-
      | option_map _ ?x = Some _ =>
          destruct x eqn:?; [| discriminate]; injection H as <-
      end ].

Ltac class_method lemma :=
  intros H; read_instance H; cbn;
  first [ now apply outcome_ret
        | eapply lemma; eassumption ].

Lemma string_method_outcome f h i v :
  Heap.load h i = Some v ->
  outcome h (Heap.string_method f i)
    (match v with
     | string_validator _ so => new_StringValidator (f so)
     | _ => v
     end)
    (match v with string_validator _ _ => true | _ => false end).
Proof. destruct i; class_method outcome_string. Qed.

Lemma number_method_outcome f h i v :
  Heap.load h i = Some v ->
  outcome h (Heap.number_method f i)
    (match v with
     | number_validator _ so => new_NumberValidator (f so)
     | _ => v
     end)
    (match v with number_validator _ _ => true | _ => false end).
Proof. destruct i; class_method outcome_number. Qed.

Lemma boolean_method_outcome f h i v :
  Heap.load h i = Some v ->
  outcome h (Heap.boolean_method f i)
    (match v with
     | boolean_validator _ so => new_BooleanValidator (f so)
     | _ => v
     end)
    (match v with boolean_validator _ _ => true | _ => false end).
Proof. destruct i; class_method outcome_boolean. Qed.

Lemma date_method_outcome f h i v :
  Heap.load h i = Some v ->
  outcome h (Heap.date_method f i)
    (match v with
     | date_validator _ so => new_DateValidator (f so)
     | _ => v
     end)
    (match v with date_validator _ _ => true | _ => false end).
Proof. destruct i; class_method outcome_date. Qed.

Lemma array_method_outcome f h i v :
  Heap.load h i = Some v ->
  outcome h (Heap.array_method f i)
    (match v with
     | array_validator item _ so => new_ArrayValidator item (f so)
     | _ => v
     end)
    (match v with array_validator _ _ _ => true | _ => false end).
Proof. destruct i; class_method outcome_array. Qed.

Lemma object_method_outcome f h i v :
  Heap.load h i = Some v ->
  outcome h (Heap.object_method f i)
    (match v with
     | object_validator schema _ so => new_ObjectValidator schema (f so)
     | _ => v
     end)
    (match v with object_validator _ _ _ => true | _ => false end).
Proof. destruct i; class_method outcome_object. Qed.

Lemma base_method_outcome fs fn fb fd fa fo h i v :
  Heap.load h i = Some v ->
  outcome h (Heap.base_method fs fn fb fd fa fo i)
    (match v with
     | string_validator o _ => new_StringValidator (fs o)
     | number_validator o _ => new_NumberValidator (fn o)
     | boolean_validator o _ => new_BooleanValidator (fb o)
     | date_validator o _ => new_DateValidator (fd o)
     | array_validator item _ so => new_ArrayValidator item (fa so)
     | object_validator schema _ so => new_ObjectValidator schema (fo so)
     | _ => v
     end)
    (is_class_instance v).
Proof.
  destruct i; intros H; read_instance H; cbn;
    first [ now apply outcome_ret
          | eapply outcome_string; eassumption
          | eapply outcome_number; eassumption
          | eapply outcome_boolean; eassumption
          | eapply outcome_date; eassumption
          | eapply outcome_array; eassumption
          | eapply outcome_object; eassumption ].
Qed.

Lemma optional_outcome h i v :
  Heap.load h i = Some v ->
  outcome h (Heap.optional i) (optional v) (is_class_instance v).
Proof.
  intros H.
  pose proof (base_method_outcome
                (fun o => StringValidatorOptions.set_optional o true)
                (fun o => NumberValidatorOptions.set_optional o true)
                (fun o => BooleanValidatorOptions.set_optional o true)
                (fun o => DateValidatorOptions.set_optional o true)
                (fun o => ArrayValidatorOptions.set_optional o true)
                (fun o => ObjectValidatorOptions.set_optional o true)
                h i v H) as Hbase.
  destruct i; read_instance H; try exact Hbase; cbn.
  (* the union with a message answers with the union *)
  apply outcome_ret. cbn [Heap.load].
  match goal with E : Heap.sequence _ = Some _ |- _ => now rewrite E end.
Qed.

Lemma withMessage_outcome m h i :
  forall v, Heap.load h i = Some v ->
            outcome h (Heap.withMessage m i) (withMessage m v)
              (is_class_instance v).
Proof.
  induction i using Heap.Instance_ind; intros v Hv;
    try (pose proof (base_method_outcome
                  (fun o => StringValidatorOptions.set_message o (Some m))
                  (fun o => NumberValidatorOptions.set_message o (Some m))
                  (fun o => BooleanValidatorOptions.set_message o (Some m))
                  (fun o => DateValidatorOptions.set_message o (Some m))
                  (fun o => ArrayValidatorOptions.set_message o (Some m))
                  (fun o => ObjectValidatorOptions.set_message o (Some m))
                  h _ v Hv) as Hbase;
         read_instance Hv; exact Hbase).
  - read_instance Hv. cbn.
    destruct (IHi _ eq_refl) as (i2 & h' & Hm & He & Hl & _).
    exists (Heap.nullable_instance i2), h'.
    unfold Heap.bind. rewrite Hm. unfold Heap.ret.
    repeat split; auto.
    + cbn [Heap.load]. now rewrite Hl.
    + discriminate.
  - read_instance Hv. cbn. apply outcome_ret. cbn [Heap.load].
    match goal with E : Heap.sequence _ = Some _ |- _ => now rewrite E end.
  - read_instance Hv. cbn. apply outcome_ret. cbn [Heap.load].
    match goal with E : Heap.sequence _ = Some _ |- _ => now rewrite E end.
Qed.

Lemma optional_fields_run schema :
  forall h fields,
    Heap.load_fields h schema = Some fields ->
    exists schema' h',
      Heap.optional_fields schema h = Some (schema', h')
      /\ extends h h'
      /\ Heap.load_fields h' schema'
         = Some (map (fun kv => (fst kv, optional (snd kv))) fields).
Proof.
  induction schema as [| [k i] schema IH]; intros h fields Hf.
  - injection Hf as <-. exists [], h. repeat split; auto using extends_refl.
  - apply load_fields_related in Hf.
    inversion Hf as [| ? [k' w] ? fs [Hk Hw] Hrest]; subst.
    simpl in Hk, Hw. subst k'.
    destruct (optional_outcome h i w Hw) as (i2 & h1 & Hm & He & Hl & _).
    apply load_fields_related in Hrest.
    destruct (IH h1 fs (extends_load_fields _ _ _ _ He Hrest))
      as (schema' & h2 & Hm2 & He2 & Hl2).
    exists ((k, i2) :: schema'), h2.
    cbn [Heap.optional_fields snd fst]. unfold Heap.bind.
    rewrite Hm, Hm2. unfold Heap.ret.
    repeat split; [eapply extends_trans; eauto |].
    apply load_fields_related. constructor.
    + split; [reflexivity |]. simpl. eapply extends_load; eauto.
    + now apply load_fields_related.
Qed.

Lemma partial_outcome h i v :
  Heap.load h i = Some v ->
  outcome h (Heap.partial i) (ObjectValidator.partial v)
    (match v with object_validator _ _ _ => true | _ => false end).
Proof.
  destruct i; intros H; read_instance H; cbn; try (now apply outcome_ret).
  match goal with
  | Hf : Heap.load_fields h schema = Some ?fields |- _ =>
      destruct (optional_fields_run schema h fields Hf)
        as (schema' & h1 & Hm & He & Hl)
  end.
  eapply outcome_bind; [exact Hm | exact He |].
  eapply (outcome_object _ _
            (fun o => ObjectValidatorOptions.set_partial o true));
    [| exact Hl].
  eapply extends_nth_error; eauto.
Qed.

Lemma reshape_outcome f g h i v :
  (forall schema fields,
     Heap.load_fields h schema = Some fields ->
     Heap.load_fields h (f schema) = Some (g fields)) ->
  Heap.load h i = Some v ->
  outcome h (Heap.reshape f i)
    (match v with
     | object_validator schema _ so => new_ObjectValidator (g schema) so
     | _ => v
     end)
    (match v with object_validator _ _ _ => true | _ => false end).
Proof.
  intros Hfg. destruct i; intros H; read_instance H; cbn;
    try (now apply outcome_ret).
  apply outcome_new_object; auto.
Qed.

(** Every call of a configuration method on an instance succeeds, only adds
    objects to the store, and returns an instance that reads as the validator
    that the method gives on the validator read from the receiver. *)
Lemma invoke_outcome h i v c c1 :
  Heap.load h i = Some v ->
  Heap.load_call h c = Some c1 ->
  outcome h (Heap.invoke c i) (apply_call c1 v)
    (answers c1 v && is_class_instance v).
Proof.
  intros Hv Hc.
  destruct c as [ | | | | | | | | | | | | | | | | | | | | | | | | | | | | | | | |
                  | | | ks | ks | extension ];
    cbn [Heap.load_call] in Hc;
    try (injection Hc as <-; cbn [Heap.invoke apply_call answers];
         eapply outcome_mono;
         [| first [ apply optional_outcome
                  | apply withMessage_outcome
                  | apply string_method_outcome
                  | apply number_method_outcome
                  | apply boolean_method_outcome
                  | apply date_method_outcome
                  | apply array_method_outcome
                  | apply object_method_outcome
                  | apply partial_outcome ];
            exact Hv ];
         destruct v; simpl; auto; discriminate).
  - injection Hc as <-. cbn [Heap.invoke apply_call answers].
    eapply outcome_mono;
      [| apply (reshape_outcome _ (fun schema => pick_schema schema ks));
         [| exact Hv] ].
    + destruct v; simpl; auto; discriminate.
    + intros schema fields Hf. apply load_fields_related.
      apply related_pick. now apply load_fields_related.
  - injection Hc as <-. cbn [Heap.invoke apply_call answers].
    eapply outcome_mono;
      [| apply (reshape_outcome _ (fun schema => omit_schema schema ks));
         [| exact Hv] ].
    + destruct v; simpl; auto; discriminate.
    + intros schema fields Hf. apply load_fields_related.
      apply related_omit. now apply load_fields_related.
  - destruct (Heap.load_fields h extension) as [ext |] eqn:Ee; [| discriminate].
    injection Hc as <-. cbn [Heap.invoke apply_call answers].
    eapply outcome_mono;
      [| apply (reshape_outcome _ (fun schema => extend_schema schema ext));
         [| exact Hv] ].
    + destruct v; simpl; auto; discriminate.
    + intros schema fields Hf. apply load_fields_related.
      apply related_extend; now apply load_fields_related.
Qed.

(* ================================================================== *)
(** * Configuration methods do not touch their receiver *)
(* ================================================================== *)

(** The validators that the methods return are built like those of the
    factory: the two copies of the options agree. *)
Lemma Forall_assign {V : Type} (P : V -> Prop) (l : list (string * V)) k v :
  Forall (fun kv => P (snd kv)) l -> P v ->
  Forall (fun kv => P (snd kv)) (assign l k v).
Proof.
  intros Hl Hv. unfold assign. destruct (lookup l k).
  - induction Hl as [| [k' w] l Hw Hl IH]; simpl.
    + constructor.
    + destruct (String.eqb k k'); constructor; auto.
  - induction Hl as [| [k' w] l Hw Hl IH]; simpl.
    + constructor; [exact Hv | constructor].
    + destruct (comes_before k k'); repeat constructor; auto.
Qed.

Lemma Forall_lookup {V : Type} (P : V -> Prop) (l : list (string * V)) k v :
  Forall (fun kv => P (snd kv)) l -> lookup l k = Some v -> P v.
Proof.
  induction 1 as [| [k' w] l Hw Hl IH]; simpl; [discriminate |].
  destruct (String.eqb k k'); [now intros [= <-] | exact IH].
Qed.

Lemma Forall_pick {V : Type} (P : V -> Prop) (l : list (string * V)) ks :
  Forall (fun kv => P (snd kv)) l ->
  Forall (fun kv => P (snd kv)) (pick_schema l ks).
Proof.
  intros Hl. unfold pick_schema.
  assert (G : forall acc, Forall (fun kv => P (snd kv)) acc ->
            Forall (fun kv => P (snd kv))
              (fold_left (fun picked key =>
                            match lookup l key with
                            | Some v => assign picked key v
                            | None => picked
                            end) ks acc)).
  { induction ks as [| k ks IH]; intros acc Hacc; simpl; [exact Hacc |].
    apply IH. destruct (lookup l k) as [v |] eqn:E; [| exact Hacc].
    apply Forall_assign; [exact Hacc |]. exact (Forall_lookup P l k v Hl E). }
  apply G. constructor.
Qed.

Lemma Forall_extend {V : Type} (P : V -> Prop) (l e : list (string * V)) :
  Forall (fun kv => P (snd kv)) l -> Forall (fun kv => P (snd kv)) e ->
  Forall (fun kv => P (snd kv)) (extend_schema l e).
Proof.
  intros Hl He. unfold extend_schema. revert l Hl.
  induction He as [| [k v] e Hv _ IH]; intros l Hl; simpl; [exact Hl |].
  apply IH. now apply Forall_assign.
Qed.

Lemma apply_call_constructed c v :
  constructed v -> constructed_call c -> constructed (apply_call c v).
Proof.
  intros Hv Hc.
  destruct c; cbn [apply_call];
    try (now apply constructed_optional);
    try (now apply constructed_withMessage);
    destruct Hv; simpl; try (constructor; now auto); constructor.
  - rewrite Forall_map. revert H. apply Forall_impl.
    intros kv. apply constructed_optional.
  - now apply Forall_pick.
  - unfold omit_schema. apply Forall_forall. intros kv Hin.
    apply filter_In in Hin as [Hin _].
    rewrite Forall_forall in H. now apply H.
  - now apply Forall_extend.
Qed.

Lemma factory_constructed :
  constructed Schema.string /\ constructed Schema.number
  /\ constructed Schema.boolean /\ constructed Schema.date
  /\ constructed Schema.any
  /\ (forall item, constructed item -> constructed (Schema.array item))
  /\ (forall schema, Forall (fun kv => constructed (snd kv)) schema ->
                     constructed (Schema.object schema))
  /\ (forall w, constructed w -> constructed (Schema.nullable w))
  /\ (forall l, Forall constructed l -> constructed (Schema.union l)).
Proof.
  repeat split; intros; constructor; auto.
Qed.

Lemma class_instance_carries_merged_options c v :
  constructed v -> is_class_instance v = true -> carries_merged_options c v.
Proof.
  intros Hv Hc. unfold carries_merged_options.
  destruct Hv; try discriminate; destruct c; reflexivity.
Qed.

Section Frame.
Context {host : Host}.


End Frame.

(* ================================================================== *)
(** * [withMessage] *)
(* ================================================================== *)

Section WithMessage.
Context {host : Host}.

Lemma with_message_twice m m0 (es : list ValidationError) :
  map (with_message m) (map (with_message m0) es) = map (with_message m) es.
Proof.
  rewrite map_map. apply map_ext. intros [p msg x]. reflexivity.
Qed.

Lemma replace_messages_applied x m r u :
  well_formed_result x u ->
  r = u \/ (isValid u = false /\ exists m0, r = replace_messages m0 u) ->
  message_applied m r (if negb (isValid u) then replace_messages m u else u).
Proof.
  intros (Hv & Hf & _) Hr. unfold message_applied.
  destruct (isValid u) eqn:Eu; simpl.
  - destruct Hr as [-> | [Hu _]]; [| discriminate].
    split; [reflexivity | congruence].
  - unfold replace_messages. rewrite Eu, (Hf eq_refl).
    destruct Hr as [-> | (_ & m0 & ->)]; simpl.
    + split; [congruence | reflexivity].
    + rewrite Eu, with_message_twice. split; [discriminate | reflexivity].
Qed.

(** The base method with a message that is not empty, against the base
    method with any message or none. *)
Lemma BaseValidator_validate_message options validateValue m x p :
  m <> EmptyString ->
  well_formed_result x (validateValue x p) ->
  message_applied m
    (BaseValidator.validate options validateValue x p)
    (BaseValidator.validate
       {| ValidatorOptions.message := Some m;
          ValidatorOptions.optional := ValidatorOptions.optional options |}
       validateValue x p).
Proof.
  intros Hm Hw. unfold BaseValidator.validate, custom_message; simpl.
  destruct (ValidatorOptions.optional options && is_absent x).
  - split; [reflexivity | discriminate].
  - assert (E : String.eqb m EmptyString = false) by now apply String.eqb_neq.
    rewrite E.
    apply (replace_messages_applied x); [exact Hw |].
    destruct (ValidatorOptions.message options) as [m0 |]; [| now left].
    destruct (String.eqb m0 EmptyString); [now left |].
    destruct (isValid (validateValue x p)) eqn:Eu; simpl; [now left |].
    right. split; [reflexivity |]. exists m0.
    unfold replace_messages. now rewrite Eu.
Qed.

(** X2.  [withMessage(m)] with a message that is not empty, on a validator
    built by the library: a result that was valid is returned as it is, and
    on a failure every error has the message [m] and keeps its path and
    value. *)
Theorem withMessage_message_applied :
  forall (v : Validator) (m : string) (x : JsValue) (p : string),
    constructed v -> m <> EmptyString ->
    message_applied m (validate v x p) (validate (withMessage m v) x p).
Proof.
  induction v using Validator_ind; intros msg x p Hc Hm; inversion Hc; subst;
    cbn [withMessage validate].
  - apply BaseValidator_validate_message; [exact Hm |].
    apply StringValidator_well_formed.
  - apply BaseValidator_validate_message; [exact Hm |].
    apply NumberValidator_well_formed.
  - apply BaseValidator_validate_message; [exact Hm |].
    apply BooleanValidator_well_formed.
  - apply BaseValidator_validate_message; [exact Hm |].
    apply DateValidator_well_formed.
  - apply BaseValidator_validate_message; [exact Hm |].
    apply ArrayValidator_well_formed.
  - apply BaseValidator_validate_message; [exact Hm |].
    apply ObjectValidator_well_formed.
  - split; [reflexivity | discriminate].
  - unfold Schema.nullable_validate.
    destruct (is_absent x); [split; [reflexivity | discriminate] |].
    now apply IHv.
  - unfold Schema.union_message_validate.
    apply (replace_messages_applied x); [| now left].
    apply (every_result_well_formed (union_validator l)).
  - unfold Schema.union_message_validate.
    apply (replace_messages_applied x).
    + apply (every_result_well_formed (union_validator l)).
    + destruct (isValid (Schema.union_validate (map validate l) x p)) eqn:Eu;
        simpl; [now left |].
      right. split; [reflexivity |]. exists m.
      unfold replace_messages. now rewrite Eu.
Qed.

(** C7: the empty message.  [withMessage("")] on a validator of a class is
    not applied: the string validator with the empty message returns on every
    value what the string validator returns, and on the number 1 it fails
    with the message of the type check, not with the empty message. *)
Theorem empty_message_not_applied :
  (forall x p,
     validate (withMessage EmptyString Schema.string) x p
     = validate Schema.string x p)
  /\ validate (withMessage EmptyString Schema.string) (VNumber Num.one) "root"
     = createFailure
         [createError "root" "Expected string, received number"
            (VNumber Num.one)].
Proof.
  split; [intros x p |]; reflexivity.
Qed.

End WithMessage.

(* ================================================================== *)
(** * Arrays: uniqueness *)
(* ================================================================== *)

Section Uniqueness.
Context {host : Host}.

Lemma Num_same_trans a b c :
  Num.same a b = true -> Num.same b c = true -> Num.same a c = true.
Proof.
  destruct a as [| sa | qa], b as [| sb | qb], c as [| sc | qc]; simpl;
    try discriminate; try reflexivity.
  - intros H1 H2. apply Bool.eqb_prop in H1, H2. subst.
    apply Bool.eqb_reflx.
  - intros H1 H2. apply Qeq_bool_iff in H1, H2. apply Qeq_bool_iff.
    now rewrite H1.
Qed.

Lemma same_key_trans a b c :
  ArrayValidator.same_key a b = true -> ArrayValidator.same_key b c = true ->
  ArrayValidator.same_key a c = true.
Proof.
  destruct a, b; simpl; try discriminate; destruct c; simpl;
    try discriminate; try reflexivity.
  - intros H1 H2. apply Bool.eqb_prop in H1, H2. subst.
    apply Bool.eqb_reflx.
  - apply Num_same_trans.
  - intros H1 H2. apply String.eqb_eq in H1, H2. subst.
    apply String.eqb_refl.
Qed.

(** When every item passes with data, the validated items are the data of
    the items and no item adds an error. *)
Lemma validate_items_all_pass itemValidator p items :
  forall i errors acc,
    (forall k x, nth_error items k = Some x ->
       isValid (itemValidator x (ArrayValidator.itemPath p (i + k))) = true
       /\ has_data (itemValidator x (ArrayValidator.itemPath p (i + k))) = true) ->
    ArrayValidator.validate_items itemValidator p i items errors acc
    = (errors, acc ++ items_data itemValidator p i items).
Proof.
  induction items as [| x items IH]; intros i errors acc Hall; simpl.
  - now rewrite app_nil_r.
  - destruct (Hall 0 x eq_refl) as [Hv Hd]. rewrite Nat.add_0_r in Hv, Hd.
    rewrite Hv, Hd. simpl. rewrite IH.
    + now rewrite <- app_assoc.
    + intros k y Hk. specialize (Hall (S k) y Hk).
      now rewrite Nat.add_succ_r in Hall.
Qed.

Lemma existsb_agree {A : Type} (f g : A -> bool) (l : list A) :
  (forall a, In a l -> f a = g a) -> existsb f l = existsb g l.
Proof.
  induction l as [| a l IH]; intros H; simpl; [reflexivity |].
  rewrite (H a (or_introl eq_refl)), IH; [reflexivity |].
  intros b Hb. apply H. now right.
Qed.

Lemma existsb_of_map {A B : Type} (f : B -> bool) (g : A -> B) (l : list A) :
  existsb f (map g l) = existsb (fun a => f (g a)) l.
Proof.
  induction l as [| a l IH]; simpl; [reflexivity | now rewrite IH].
Qed.

Lemma existsb_indices {A : Type} (f : A -> bool) (d : A) (l : list A) :
  existsb (fun j => f (nth j l d)) (seq 0 (List.length l)) = existsb f l.
Proof.
  induction l as [| a l IH] using rev_ind; [reflexivity |].
  rewrite length_app, Nat.add_1_r, seq_S, !existsb_app. simpl.
  rewrite app_nth2, Nat.sub_diag by lia. simpl. f_equal.
  rewrite <- IH. apply existsb_agree.
  intros j Hj. apply in_seq in Hj. now rewrite app_nth1 by lia.
Qed.

(** The scan returns the indices of the items that have the key of an
    earlier item, in increasing order. *)
Lemma find_duplicates_repeated rest :
  forall pre seen duplicates,
    (forall key, ArrayValidator.set_has seen key
                 = existsb (ArrayValidator.same_key key)
                     (map ArrayValidator.key_of pre)) ->
    ArrayValidator.find_duplicates (List.length pre) rest seen duplicates
    = duplicates
      ++ filter (repeats_earlier (pre ++ rest))
           (seq (List.length pre) (List.length rest)).
Proof.
  induction rest as [| item rest IH]; intros pre seen dups Hseen; simpl.
  - now rewrite app_nil_r.
  - assert (Hrep : repeats_earlier (pre ++ item :: rest) (List.length pre)
                   = ArrayValidator.set_has seen (ArrayValidator.key_of item)).
    { unfold repeats_earlier.
      rewrite app_nth2, Nat.sub_diag by lia. simpl.
      rewrite Hseen, existsb_of_map.
      rewrite <- (existsb_indices
                    (fun d => ArrayValidator.same_key
                                (ArrayValidator.key_of item)
                                (ArrayValidator.key_of d)) VUndefined pre).
      apply existsb_agree. intros j Hj. apply in_seq in Hj.
      now rewrite app_nth1 by lia. }
    rewrite Hrep.
    replace (pre ++ item :: rest) with ((pre ++ [item]) ++ rest)
      by now rewrite <- app_assoc.
    replace (S (List.length pre)) with (List.length (pre ++ [item]))
      by (rewrite length_app; simpl; lia).
    destruct (ArrayValidator.set_has seen (ArrayValidator.key_of item)) eqn:Ehas.
    + rewrite IH.
      * now rewrite <- app_assoc.
      * intros key. rewrite map_app, existsb_app, Hseen. simpl.
        rewrite orb_false_r.
        destruct (ArrayValidator.same_key key (ArrayValidator.key_of item))
          eqn:Ek; [| now rewrite orb_false_r].
        rewrite orb_true_r.
        rewrite Hseen in Ehas. apply existsb_exists in Ehas as (s & Hin & Hs).
        apply existsb_exists. exists s. split; [exact Hin |].
        eapply same_key_trans; eauto.
    + rewrite IH; [reflexivity |].
      intros key. unfold ArrayValidator.set_has.
      rewrite map_app, !existsb_app. simpl.
      fold (ArrayValidator.set_has seen key). now rewrite Hseen.
Qed.

Lemma find_duplicates_spec datas :
  ArrayValidator.find_duplicates 0 datas [] [] = repeated_indices datas.
Proof.
  apply (find_duplicates_repeated datas [] [] []). reflexivity.
Qed.

(** X1.  Uniqueness when every item passes with data.  With [unique()] set, if
    every item of the input passes the item validator and gives data, the
    errors of the array are the errors of the checks on its length followed
    by one error [Array items must be unique] for each index whose item has
    the key of an earlier item, in increasing order, at the path of that
    index in the input and with the data of that item; an item with no
    earlier item of the same key is not reported. *)
Theorem unique_reports_repeated_items :
  forall (v : Validator) (o ao : ArrayValidatorOptions.t)
         (items : list JsValue) (p : string),
    ArrayValidatorOptions.unique ao = true ->
    (forall k x, nth_error items k = Some x ->
       isValid (validate v x (ArrayValidator.itemPath p k)) = true
       /\ has_data (validate v x (ArrayValidator.itemPath p k)) = true) ->
    let datas := items_data (validate v) p 0 items in
    errors (validate (array_validator v o ao) (VArray items) p)
    = relabel (ArrayValidatorOptions.base o)
        (ArrayValidator.length_errors ao (VArray items) items p
         ++ map (fun i =>
                   createError (ArrayValidator.itemPath p i)
                     "Array items must be unique" (nth i datas VUndefined))
              (repeated_indices datas)).
Proof.
  intros v o ao items p Hu Hall datas.
  cbn [validate].
  destruct (BaseValidator_validate_errors (ArrayValidatorOptions.base o)
              (ArrayValidator.validateValue (validate v) ao) (VArray items) p
              eq_refl) as (He & _ & _).
  { apply (ArrayValidator_well_formed (validate v) ao (VArray items) p). }
  rewrite He. f_equal.
  unfold ArrayValidator.validateValue.
  rewrite (validate_items_all_pass (validate v) p items 0); [| exact Hall].
  simpl app. fold datas. rewrite Hu, find_duplicates_spec. simpl andb.
  assert (Hempty : (List.length datas =? 0)%nat = true ->
                   repeated_indices datas = []).
  { intros E. apply Nat.eqb_eq in E. unfold repeated_indices.
    now rewrite E. }
  assert (Herr : forall es, errors (finish es (VArray datas)) = es).
  { intros [| e es]; reflexivity. }
  destruct (List.length datas =? 0)%nat eqn:El; simpl negb; cbv iota.
  - rewrite Herr, (Hempty eq_refl). simpl. now rewrite app_nil_r.
  - rewrite Herr. reflexivity.
Qed.

(** C5: the index of a duplicate.  The array [[null, 1, 1]] under
    [array(number().optional()).unique()]: every item passes, the item at
    index 2 repeats the item at index 1, and the error stands at [root[1]],
    the index of the repeated item among the items that gave data; the
    array [[1, 2, 1]] under [array(number()).unique()] has its error at
    [root[2]]. *)
Theorem duplicate_index_shifts :
  validate (ArrayValidator.unique (Schema.array (optional Schema.number)))
    (VArray [VNull; VNumber Num.one; VNumber Num.one]) "root"
  = createFailure
      [createError "root[1]" "Array items must be unique" (VNumber Num.one)]
  /\ validate (ArrayValidator.unique (Schema.array Schema.number))
       (VArray [VNumber Num.one; VNumber (Num.of_Z 2); VNumber Num.one]) "root"
     = createFailure
         [createError "root[2]" "Array items must be unique" (VNumber Num.one)].
Proof.
  split; reflexivity.
Qed.

End Uniqueness.

(* ================================================================== *)
(** * The claims on the examples *)
(* ================================================================== *)

(** C1, at [string()]: [string().optional()] on null and on a string. *)
Lemma optional_spec_witness :
  constructed Schema.string
  /\ is_union Schema.string = false
  /\ validate (host := Examples.host) (optional Schema.string) VNull "root"
     = {| isValid := true; data := Some VUndefined; errors := [] |}
  /\ validate (host := Examples.host) (optional Schema.string) (VString "a") "root"
     = validate (host := Examples.host) Schema.string (VString "a") "root".
Proof.
  split; [constructor |]. split; [reflexivity |].
  destruct (optional_spec (host := Examples.host) Schema.string "root"
              (constructed_string _) eq_refl) as [Habsent Hpresent].
  split; [apply (Habsent VNull) | apply (Hpresent (VString "a"))]; reflexivity.
Defined.

(** C1 as stated fails at [nullable(string()).optional()] on null: the data
    is null. *)
Lemma optional_nullable_returns_null :
  ~ optional_accepts_without_data (host := Examples.host)
      (Schema.nullable Schema.string) VNull "root".
Proof.
  unfold optional_accepts_without_data. simpl.
  intros (_ & _ & H). discriminate H.
Qed.








(** [withMessage] with a message, at [string().withMessage("m")] on the
    number 1. *)
Lemma withMessage_witness :
  constructed Schema.string
  /\ "m" <> EmptyString
  /\ validate (host := Examples.host) (withMessage "m" Schema.string)
       (VNumber Num.one) "root"
     = createFailure [createError "root" "m" (VNumber Num.one)].
Proof.
  split; [constructor |]. split; [discriminate |].
  destruct (withMessage_message_applied (host := Examples.host) Schema.string "m"
              (VNumber Num.one) "root" (constructed_string _))
    as [_ Hfailure]; [discriminate |].
  apply Hfailure. reflexivity.
Defined.

(** Uniqueness, at [array(number()).unique()] and [[1, 2, 1]]. *)
Lemma unique_witness :
  ArrayValidatorOptions.unique
    (ArrayValidatorOptions.set_unique ArrayValidatorOptions.empty true) = true
  /\ errors (validate (host := Examples.host)
               (ArrayValidator.unique (Schema.array Schema.number))
               (VArray [VNumber Num.one; VNumber (Num.of_Z 2); VNumber Num.one])
               "root")
     = [createError "root[2]" "Array items must be unique" (VNumber Num.one)].
Proof.
  split; [reflexivity |].
  apply (unique_reports_repeated_items (host := Examples.host) Schema.number
           (ArrayValidatorOptions.set_unique ArrayValidatorOptions.empty true)
           (ArrayValidatorOptions.set_unique ArrayValidatorOptions.empty true)
           [VNumber Num.one; VNumber (Num.of_Z 2); VNumber Num.one] "root"
           eq_refl).
  intros k x Hx.
  do 3 (destruct k as [| k]; [injection Hx as <-; split; reflexivity |]).
  destruct k; discriminate.
Defined.

(* ================================================================== *)
(** * Further properties *)
(* ================================================================== *)

(* ================================================================== *)
(** * The data of a valid result has the type of the validator *)
(* ================================================================== *)

Section DataType.
Context {host : Host}.

Lemma has_type_union (l : list Validator) d :
  has_type (union_validator l) d <-> Exists (fun w => has_type w d) l.
Proof.
  induction l as [| w l IH].
  - simpl. split; [tauto | intros H; inversion H].
  - rewrite Exists_cons, <- IH. simpl. tauto.
Qed.

Lemma has_type_field (schema : list (string * Validator)) key x :
  (fix field (l : list (string * Validator)) : Prop :=
     match l with
     | [] => False
     | kv :: l' => (key = fst kv /\ has_type (snd kv) x) \/ field l'
     end) schema
  <-> exists w, In (key, w) schema /\ has_type w x.
Proof.
  induction schema as [| [k w] schema IH]; simpl.
  - split; [tauto | intros (w & [] & _)].
  - rewrite IH. split.
    + intros [[-> H] | (w' & Hin & H)]; eauto.
    + intros (w' & [E | Hin] & H); [inversion E; subst; auto | eauto].
Qed.

(** A valid result of the base method is the success of an optional
    validator on a sentinel, or carries the data of the check of the class. *)
Lemma BaseValidator_validate_data options validateValue x p :
  isValid (BaseValidator.validate options validateValue x p) = true ->
  (ValidatorOptions.optional options = true
   /\ is_absent x = true
   /\ BaseValidator.validate options validateValue x p = absent_success)
  \/ (isValid (validateValue x p) = true
      /\ BaseValidator.validate options validateValue x p = validateValue x p).
Proof.
  unfold BaseValidator.validate.
  destruct (ValidatorOptions.optional options && is_absent x) eqn:Habs.
  - apply andb_true_iff in Habs as [Ho Ha]. auto.
  - destruct (custom_message options) as [m |]; [| auto].
    destruct (isValid (validateValue x p)) eqn:E; simpl; [auto | discriminate].
Qed.

Lemma finish_valid es d :
  isValid (finish es d) = true -> es = [] /\ finish es d = createSuccess d.
Proof. destruct es; simpl; [auto | discriminate]. Qed.

(** The items gathered by the loop of the array validator are data of valid
    results of the item validator, and none is [undefined]. *)
Lemma validate_items_data (f : validate_fn) (Q : JsValue -> Prop) p items :
  (forall x q, In x items -> isValid (f x q) = true -> Q (read_data (f x q))) ->
  forall i es vs,
    Forall (fun x => Q x /\ x <> VUndefined) vs ->
    Forall (fun x => Q x /\ x <> VUndefined)
      (snd (ArrayValidator.validate_items f p i items es vs)).
Proof.
  induction items as [| x items IH]; intros Hf i es vs Hvs; simpl.
  - exact Hvs.
  - assert (Hrest : forall y q, In y items ->
              isValid (f y q) = true -> Q (read_data (f y q)))
      by (intros y q Hin; apply Hf; now right).
    destruct (isValid (f x (ArrayValidator.itemPath p i))) eqn:E; simpl.
    + destruct (has_data (f x (ArrayValidator.itemPath p i))) eqn:Hd.
      * apply (IH Hrest), Forall_app. split; [exact Hvs |].
        constructor; [| constructor]. split; [apply Hf; [now left | exact E] |].
        unfold has_data in Hd. intros Hu. now rewrite Hu in Hd.
      * now apply IH.
    + now apply IH.
Qed.

(** The properties gathered by the loop of the object validator. *)
Lemma validate_fields_data (fields : list (string * validate_fn))
  (Q : string -> JsValue -> Prop) props p :
  has_key (keys fields) "__proto__" = false ->
  (forall k f, In (k, f) fields ->
     forall q, isValid (f (get props k) q) = true ->
       Q k (read_data (f (get props k) q))) ->
  forall es vo,
    (forall k x, lookup (properties vo) k = Some x -> x <> VUndefined /\ Q k x) ->
    forall k x,
      lookup (properties
                (snd (ObjectValidator.validate_fields fields props p es vo))) k
      = Some x ->
      x <> VUndefined /\ Q k x.
Proof.
  unfold has_key, keys.
  induction fields as [| [key f] fields IH]; intros Hkeys Hf es vo Hvo;
    cbn [map existsb fst] in Hkeys; simpl.
  - exact Hvo.
  - apply orb_false_iff in Hkeys as [Hkey Hkeys]. rewrite String.eqb_sym in Hkey.
    assert (Hrest : forall k g, In (k, g) fields ->
              forall q, isValid (g (get props k) q) = true ->
                Q k (read_data (g (get props k) q)))
      by (intros k g Hin; apply Hf; now right).
    destruct (isValid (f (get props key) (ObjectValidator.fieldPath p key))) eqn:E;
      simpl.
    + destruct (has_data (f (get props key) (ObjectValidator.fieldPath p key)))
        eqn:Hd.
      * apply IH; [exact Hkeys | exact Hrest |].
        intros k x. rewrite (set_property_other _ _ _ Hkey). simpl.
        rewrite lookup_assign.
        destruct (String.eqb k key) eqn:Ek; [| apply Hvo].
        apply String.eqb_eq in Ek; subst k. intros [= <-]. split.
        -- unfold has_data in Hd. intros Hu. now rewrite Hu in Hd.
        -- apply (Hf key f); [now left | exact E].
      * now apply IH.
    + now apply IH.
Qed.

(** The loop of the object validator sets properties under keys of the
    schema only. *)
Lemma validate_fields_keys (fields : list (string * validate_fn)) props p :
  forall es vo k,
    lookup (properties
              (snd (ObjectValidator.validate_fields fields props p es vo))) k
    <> None ->
    lookup (properties vo) k <> None \/ has_key (keys fields) k = true.
Proof.
  induction fields as [| [key f] fields IH]; intros es vo k; simpl.
  - auto.
  - destruct (negb (isValid (f (get props key) (ObjectValidator.fieldPath p key)))).
    + intros H. apply IH in H as [H | H]; [auto | right].
      unfold has_key in *. simpl. now rewrite H, orb_true_r.
    + destruct (has_data (f (get props key) (ObjectValidator.fieldPath p key))).
      * intros H. apply IH in H as [H | H].
        -- unfold has_key; simpl.
           destruct (String.eqb k key) eqn:Ek; [now right |].
           rewrite (lookup_set_property_other _ _ _ _ Ek) in H. now left.
        -- right. unfold has_key in *. simpl. now rewrite H, orb_true_r.
      * intros H. apply IH in H as [H | H]; [auto | right].
        unfold has_key in *. simpl. now rewrite H, orb_true_r.
Qed.

Lemma plain_schema_fields (schema : list (string * Validator)) o oo :
  plain_schema (object_validator schema o oo) = true ->
  forallb plain_key (keys schema) = true
  /\ Forall (fun kv => plain_schema (snd kv) = true) schema.
Proof.
  simpl. intros H. apply andb_true_iff in H as [Hk H]. split; [exact Hk |].
  clear Hk. induction schema as [| kv schema IH]; [constructor |].
  apply andb_true_iff in H as [Hkv H]. constructor; auto.
Qed.

Lemma plain_schema_members (l : list Validator) :
  plain_schema (union_validator l) = true ->
  Forall (fun w => plain_schema w = true) l.
Proof.
  simpl. induction l as [| w l IH]; intros H; [constructor |].
  apply andb_true_iff in H as [Hw H]. constructor; auto.
Qed.

Lemma plain_value_items (items : list JsValue) :
  plain_value (VArray items) = true ->
  forall x, In x items -> plain_value x = true.
Proof.
  simpl. induction items as [| y items IH]; intros H x Hin; [contradiction |].
  apply andb_true_iff in H as [Hy H].
  destruct Hin as [<- | Hin]; auto.
Qed.

Lemma plain_value_props (props : list (string * JsValue)) :
  plain_value (VObject props) = true ->
  has_key (keys props) "__proto__" = false
  /\ forall key, plain_value (get props key) = true.
Proof.
  simpl. intros H. apply andb_true_iff in H as [Hk H].
  split; [now apply negb_true_iff in Hk |]. clear Hk.
  intros key. unfold get.
  induction props as [| [k x] props IH]; simpl; [reflexivity |].
  apply andb_true_iff in H as [Hx H].
  destruct (String.eqb key k); [exact Hx | now apply IH].
Qed.

Lemma has_key_extra_keys schemaKeys props key :
  has_key schemaKeys key = true ->
  has_key (ObjectValidator.extra_keys schemaKeys props) key = false.
Proof.
  intros H. destruct (has_key (ObjectValidator.extra_keys schemaKeys props) key)
    eqn:E; [| reflexivity].
  apply has_key_In in E. unfold ObjectValidator.extra_keys in E.
  apply filter_In in E as [_ E]. now rewrite H in E.
Qed.

Lemma keys_map_validate (schema : list (string * Validator)) :
  keys (map (fun kv => (fst kv, validate (snd kv))) schema) = keys schema.
Proof. unfold keys. rewrite map_map. reflexivity. Qed.

Lemma check_format_failure dateOptions x p r :
  DateValidator.check_format dateOptions x p = Some r -> isValid r = false.
Proof.
  unfold DateValidator.check_format. intros H.
  destruct (DateValidatorOptions.format dateOptions) as [[| |] |];
    try discriminate H; destruct x; try discriminate H;
    try (injection H as <-; reflexivity).
  - destruct (negb _); [injection H as <-; reflexivity | discriminate H].
  - destruct (Regex.test _ _); [discriminate H | injection H as <-; reflexivity].
Qed.

Lemma to_date_failure dateOptions x p r :
  DateValidator.to_date dateOptions x p = inr r -> isValid r = false.
Proof.
  unfold DateValidator.to_date. intros H.
  destruct x; try discriminate H; try (injection H as <-; reflexivity).
  destruct (DateValidatorOptions.format dateOptions) as [[| |] |];
    try discriminate H.
  destruct (DateValidator.clearly_invalid s);
    [injection H as <-; reflexivity | discriminate H].
Qed.

(** What the date check returns as a success: the date it built from the
    value, which is a valid date. *)
Lemma DateValidator_valid dateOptions x p :
  isValid (DateValidator.validateValue dateOptions x p) = true ->
  exists ms,
    DateValidator.check_format dateOptions x p = None
    /\ DateValidator.to_date dateOptions x p = inl (JsDate.At ms)
    /\ DateValidator.implausible_string dateOptions x = false
    /\ DateValidator.validateValue dateOptions x p
       = createSuccess (VDate (JsDate.At ms)).
Proof.
  unfold DateValidator.validateValue.
  destruct (DateValidator.check_format dateOptions x p) as [r |] eqn:Ef.
  { intros H. apply check_format_failure in Ef. congruence. }
  destruct (DateValidator.to_date dateOptions x p) as [d | r] eqn:Ed.
  2: { intros H. apply to_date_failure in Ed. congruence. }
  destruct (JsDate.isInvalid d) eqn:Ei; [discriminate |].
  destruct (DateValidator.implausible_string dateOptions x); [discriminate |].
  intros H. apply finish_valid in H as [_ ->].
  destruct d as [| ms]; [discriminate |]. exists ms. auto.
Qed.

(** X3.  For a validator whose schemas declare their fields under keys that
    no built-in prototype has, and a value in which every object has the
    prototype Object.prototype and no own property [__proto__], the data of
    a valid result has the type that the validator declares: a string, a
    number that is not NaN, a boolean, a valid date, an array of data of the
    item validator without [undefined], an object with the prototype
    Object.prototype whose own properties under the keys of the schema are
    data of the fields (and, in strict mode, that has no other property),
    null for an object validator that allows it or for [nullable], the data
    of one member for a union; [undefined] only for a validator of a class
    with the optional flag. *)
Theorem valid_data_has_type :
  forall (v : Validator) (x : JsValue) (p : string),
    plain_schema v = true ->
    plain_value x = true ->
    isValid (validate v x p) = true ->
    has_type v (read_data (validate v x p)).
Proof.
  induction v using Validator_ind; intros x p Hschema Hx Hvalid.
  - (* string *)
    simpl in Hvalid |- *.
    apply BaseValidator_validate_data in Hvalid as [(Ho & _ & ->) | (Hv & ->)];
      [left; auto | right].
    unfold StringValidator.validateValue in *. destruct x; try discriminate.
    apply finish_valid in Hv as [_ ->]. eexists; reflexivity.
  - (* number *)
    simpl in Hvalid |- *.
    apply BaseValidator_validate_data in Hvalid as [(Ho & _ & ->) | (Hv & ->)];
      [left; auto | right].
    unfold NumberValidator.validateValue in *. destruct x; try discriminate.
    destruct (Num.isNaN n) eqn:En; [discriminate |].
    apply finish_valid in Hv as [_ ->]. eexists; split; [reflexivity | exact En].
  - (* boolean *)
    simpl in Hvalid |- *.
    apply BaseValidator_validate_data in Hvalid as [(Ho & _ & ->) | (Hv & ->)];
      [left; auto | right].
    unfold BooleanValidator.validateValue, BooleanValidator.cannot_convert in *.
    destruct (BooleanValidatorOptions.strict bo).
    { destruct x; try discriminate. eexists; reflexivity. }
    destruct (BooleanValidatorOptions.truthy bo); [eexists; reflexivity |].
    destruct x; try discriminate.
    + eexists; reflexivity.
    + destruct (Num.eq n Num.one); [eexists; reflexivity |].
      destruct (Num.eq n Num.zero); [eexists; reflexivity | discriminate].
    + destruct (BooleanValidator.true_word _); [eexists; reflexivity |].
      destruct (BooleanValidator.false_word _); [eexists; reflexivity | discriminate].
  - (* date *)
    simpl in Hvalid |- *.
    apply BaseValidator_validate_data in Hvalid as [(Ho & _ & ->) | (Hv & ->)];
      [left; auto | right].
    apply DateValidator_valid in Hv as (ms & _ & _ & _ & ->).
    exists ms; reflexivity.
  - (* array *)
    simpl in Hvalid |- *.
    apply BaseValidator_validate_data in Hvalid as [(Ho & _ & ->) | (Hv & ->)];
      [left; auto | right].
    unfold ArrayValidator.validateValue in *. destruct x; try discriminate.
    assert (Hitem : forall y q, In y items ->
              isValid (validate v y q) = true ->
              has_type v (read_data (validate v y q))).
    { intros y q Hin. apply IHv; [exact Hschema |].
      now apply (plain_value_items items). }
    pose proof (validate_items_data (validate v) (has_type v) p items Hitem 0
                  (ArrayValidator.length_errors ao (VArray items) items p) []
                  (Forall_nil _)) as Hitems.
    destruct (ArrayValidator.validate_items _ _ _ _ _ _) as [es vs].
    apply finish_valid in Hv as [_ ->]. exists vs. auto.
  - (* object *)
    apply plain_schema_fields in Hschema as [Hkeys Hnested].
    simpl in Hvalid |- *.
    apply BaseValidator_validate_data in Hvalid as [(Ho & _ & ->) | (Hv & ->)];
      [left; auto | right].
    set (fields := map (fun kv => (fst kv, validate (snd kv))) schema) in *.
    assert (Hfk : keys fields = keys schema)
      by (subst fields; apply keys_map_validate).
    assert (Hnoproto : has_key (keys fields) "__proto__" = false)
      by (rewrite Hfk; now apply plain_keys_no_proto).
    assert (Hprops : forall props,
              has_key (keys props) "__proto__" = false ->
              (forall key, plain_value (get props key) = true) ->
              isValid (ObjectValidator.validate_props fields oo props props p)
              = true ->
              exists out,
                read_data (ObjectValidator.validate_props fields oo props props p)
                = VObject out
                /\ (forall key x, lookup out key = Some x ->
                      has_key (keys schema) key = true ->
                      x <> VUndefined
                      /\ exists w, In (key, w) schema /\ has_type w x)
                /\ (ObjectValidatorOptions.strict oo = true ->
                    forall key, lookup out key <> None ->
                      has_key (keys schema) key = true)).
    { intros props Hown Hplain. unfold ObjectValidator.validate_props.
      assert (Hfields : forall key x,
                lookup (properties
                          (snd (ObjectValidator.validate_fields fields props p []
                                  empty_object))) key = Some x ->
                x <> VUndefined
                /\ exists w, In (key, w) schema /\ has_type w x).
      { apply (validate_fields_data fields
                 (fun key x => exists w, In (key, w) schema /\ has_type w x));
          [exact Hnoproto | | discriminate].
        intros k f Hin q Hy. subst fields.
        apply in_map_iff in Hin as ([k' w] & [= <- <-] & Hin).
        exists w. split; [exact Hin |].
        rewrite Forall_forall in H, Hnested.
        exact (H (k', w) Hin _ q (Hnested (k', w) Hin) (Hplain k') Hy). }
      assert (Hdeclared : forall key,
                lookup (properties
                          (snd (ObjectValidator.validate_fields fields props p []
                                  empty_object))) key <> None ->
                has_key (keys schema) key = true).
      { intros key Hk. apply validate_fields_keys in Hk as [Hk | Hk].
        - now contradiction Hk.
        - now rewrite Hfk in Hk. }
      pose proof (prototype_validate_fields fields props p [] empty_object
                    Hnoproto) as Hp.
      destruct (ObjectValidator.validate_fields fields props p [] empty_object)
        as [es vo].
      simpl in Hfields, Hdeclared, Hp.
      destruct (ObjectValidatorOptions.strict oo) eqn:Es; intros Hf;
        apply finish_valid in Hf as [_ ->]; unfold object_value; simpl.
      - rewrite Hp. eexists; split; [reflexivity |].
        split; [| auto]. intros key d Hd _. now apply Hfields.
      - rewrite prototype_copy_extra, Hp;
          [| unfold ObjectValidator.extra_keys; now apply has_key_filter].
        eexists; split; [reflexivity |].
        split; [| discriminate]. intros key d Hd Hk.
        rewrite lookup_copy_extra in Hd.
        + rewrite Hfk in Hd.
          rewrite (has_key_extra_keys _ _ _ Hk) in Hd. now apply Hfields.
        + destruct (String.eqb key "__proto__") eqn:E; [| reflexivity].
          apply String.eqb_eq in E. subst key.
          rewrite <- Hfk in Hk. congruence. }
    unfold ObjectValidator.validateValue in *.
    destruct x; try discriminate.
    + destruct (ObjectValidatorOptions.allowNull oo) eqn:Ea; [| discriminate].
      left. auto.
    + right. apply Hprops in Hv as (out & -> & Hout & Hstrict);
        [| reflexivity | reflexivity].
      exists out. split; [reflexivity |]. split; [| exact Hstrict].
      intros key y Hy Hk. rewrite has_type_field. now apply Hout.
    + apply plain_value_props in Hx as [Hown Hplain].
      right. apply Hprops in Hv as (out & -> & Hout & Hstrict);
        [| exact Hown | exact Hplain].
      exists out. split; [reflexivity |]. split; [| exact Hstrict].
      intros key y Hy Hk. rewrite has_type_field. now apply Hout.
  - exact I.
  - (* nullable *)
    simpl in Hvalid, Hschema |- *. unfold Schema.nullable_validate in *.
    destruct (is_absent x); [left; reflexivity | right; now apply IHv].
  - (* union *)
    apply plain_schema_members in Hschema.
    apply has_type_union. simpl in Hvalid. unfold Schema.union_validate in *.
    simpl. unfold Schema.union_validate.
    induction H as [| w l Hw Hl IH]; simpl in *; [discriminate |].
    inversion Hschema as [| w0 l0 Hsw Hsl]; subst.
    destruct (isValid (validate w x p)) eqn:E.
    + left. now apply Hw.
    + right. now apply IH.
  - (* union with a message *)
    assert (Hmembers : Forall (fun w => plain_schema w = true) l)
      by (now apply plain_schema_members).
    assert (Hu : has_type (union_validator l)
                   (read_data (validate (union_with_message l m) x p))).
    { apply has_type_union. simpl in Hvalid |- *.
      unfold Schema.union_message_validate, Schema.union_validate in *.
      clear Hschema.
      induction H as [| w l Hw Hl IH]; simpl in *; [discriminate |].
      inversion Hmembers as [| w0 l0 Hsw Hsl]; subst.
      destruct (isValid (validate w x p)) eqn:E.
      + simpl. rewrite E. simpl. left. now apply Hw.
      + right. now apply IH. }
    exact Hu.
Qed.

End DataType.

Lemma valid_data_has_type_witness :
  let v := Schema.object [("tags", Schema.array (Schema.nullable Schema.number))] in
  let x := VObject [("tags", VArray [VNumber Num.one; VNull]);
                    ("other", VString "x")] in
  plain_schema v = true
  /\ plain_value x = true
  /\ isValid (validate (host := Examples.host) v x "root") = true
  /\ has_type v (read_data (validate (host := Examples.host) v x "root")).
Proof.
  split; [reflexivity |]. split; [reflexivity |]. split; [reflexivity |].
  apply (valid_data_has_type (host := Examples.host)); reflexivity.
Defined.

(* ================================================================== *)
(** * Strings: trimming and validating again *)
(* ================================================================== *)

Section Strings.
Context {host : Host}.

Lemma push_if_nil c e es : push_if c e es = [] <-> es = [] /\ c = false.
Proof.
  unfold push_if. destruct c.
  - split; [| intros [_ H]; discriminate].
    destruct es; discriminate.
  - tauto.
Qed.

Lemma isValid_finish es d : isValid (finish es d) = true <-> es = [].
Proof. destruct es; simpl; split; (reflexivity || discriminate). Qed.

(** The check of the string validator accepts exactly when every condition
    holds on the string it tests, and then returns that string. *)
Lemma StringValidator_accepted so s p :
  isValid (StringValidator.validateValue so (VString s) p)
  = string_accepted so (tested_string so s)
  /\ (isValid (StringValidator.validateValue so (VString s) p) = true ->
      StringValidator.validateValue so (VString s) p
      = createSuccess (VString (tested_string so s))).
Proof.
  unfold StringValidator.validateValue, string_accepted, tested_string.
  set (sv := if StringValidatorOptions.trim so then Str.trim s else s).
  split.
  - apply eq_true_iff_eq. rewrite isValid_finish, !push_if_nil, !andb_true_iff,
      !negb_true_iff.
    destruct (StringValidatorOptions.minLength so),
      (StringValidatorOptions.maxLength so),
      (StringValidatorOptions.pattern so);
      rewrite ?push_if_nil, ?negb_true_iff, ?negb_false_iff; intuition congruence.
  - intros H. now apply finish_valid in H as [_ ->].
Qed.

Lemma drop_while_suffix (f : ascii -> bool) l :
  exists pre, l = pre ++ Str.drop_while f l.
Proof.
  induction l as [| c l [pre IH]]; simpl.
  - now exists [].
  - destruct (f c).
    + exists (c :: pre). simpl. now f_equal.
    + now exists [].
Qed.

Lemma drop_while_head (f : ascii -> bool) l c t :
  Str.drop_while f l = c :: t -> f c = false.
Proof.
  induction l as [| c0 l IH]; simpl; [discriminate |].
  destruct (f c0) eqn:E; [exact IH |]. now intros [= <- _].
Qed.

Lemma drop_while_fixed (f : ascii -> bool) l :
  match l with [] => True | c :: _ => f c = false end ->
  Str.drop_while f l = l.
Proof. destruct l as [| c l]; simpl; [reflexivity | now intros ->]. Qed.

(** Trimming a trimmed string changes nothing. *)
Lemma trim_trim s : Str.trim (Str.trim s) = Str.trim s.
Proof.
  unfold Str.trim. rewrite chars_of_chars. f_equal.
  set (a := Str.drop_while Str.is_space (Str.chars s)).
  set (b := Str.drop_while Str.is_space (rev a)).
  assert (Hrev : Str.drop_while Str.is_space (rev b) = rev b).
  { apply drop_while_fixed.
    destruct (drop_while_suffix Str.is_space (rev a)) as [pre Hpre].
    fold b in Hpre. apply (f_equal (@rev ascii)) in Hpre.
    rewrite rev_involutive, rev_app_distr in Hpre.
    destruct (rev b) as [| c t] eqn:Eb; [exact I |].
    simpl in Hpre. now apply (drop_while_head Str.is_space (Str.chars s) c
                                (t ++ rev pre)). }
  rewrite Hrev, rev_involutive. f_equal.
  apply drop_while_fixed. destruct b as [| c t] eqn:Eb; [exact I |].
  now apply (drop_while_head Str.is_space (rev a) c t).
Qed.

Lemma tested_string_twice so s :
  tested_string so (tested_string so s) = tested_string so s.
Proof.
  unfold tested_string. destruct (StringValidatorOptions.trim so);
    [apply trim_trim | reflexivity].
Qed.

(** X4.  The data of a string that a string validator without a pattern
    accepts is accepted by the same validator, which returns it unchanged:
    validating the data again, at any path, gives the same result. *)
Theorem string_data_revalidates :
  forall (o so : StringValidatorOptions.t) (s p q : string),
    StringValidatorOptions.pattern so = None ->
    let v := string_validator o so in
    isValid (validate v (VString s) p) = true ->
    validate v (read_data (validate v (VString s) p)) q
    = validate v (VString s) p.
Proof.
  intros o so s p q _ v Hvalid. subst v. simpl in *.
  apply BaseValidator_validate_data in Hvalid
    as [(_ & Habs & _) | (Hv & ->)]; [discriminate |].
  destruct (StringValidator_accepted so s p) as [Hacc Hsuccess].
  rewrite (Hsuccess Hv). simpl.
  destruct (StringValidator_accepted so (tested_string so s) q) as [Hacc' Hs'].
  rewrite tested_string_twice in *.
  assert (Hv' : isValid (StringValidator.validateValue so
                           (VString (tested_string so s)) q) = true)
    by (rewrite Hacc', <- Hacc; exact Hv).
  cbn [read_data createSuccess data].
  unfold BaseValidator.validate. cbn [is_absent]. rewrite andb_false_r.
  rewrite (Hs' Hv'). simpl.
  destruct (custom_message _); reflexivity.
Qed.

Lemma errors_finish es d : errors (finish es d) = es.
Proof. destruct es; reflexivity. Qed.

Lemma map_push_if {B : Type} (f : ValidationError -> B) c e es :
  map f (push_if c e es) = if c then map f es ++ [f e] else map f es.
Proof. unfold push_if. destruct c; [apply map_app | reflexivity]. Qed.

(** The messages of the errors depend on the string tested only. *)
Lemma StringValidator_messages so s s' p :
  tested_string so s = tested_string so s' ->
  map message (errors (StringValidator.validateValue so (VString s) p))
  = map message (errors (StringValidator.validateValue so (VString s') p)).
Proof.
  unfold StringValidator.validateValue, tested_string. intros ->.
  rewrite !errors_finish.
  destruct (StringValidatorOptions.minLength so),
    (StringValidatorOptions.maxLength so),
    (StringValidatorOptions.pattern so);
    rewrite !map_push_if; reflexivity.
Qed.

(** Replacing the messages keeps their number. *)
Lemma relabel_messages options (es es' : list ValidationError) :
  map message es = map message es' ->
  map message (relabel options es) = map message (relabel options es').
Proof.
  intros H. unfold relabel. destruct (custom_message options) as [m |]; [| exact H].
  rewrite !map_map. simpl.
  revert es' H. induction es as [| e es IH]; intros [| e' es'] H;
    try discriminate; [reflexivity |].
  simpl in *. injection H as _ H. f_equal. now apply IH.
Qed.

Lemma relabel_nil options es : relabel options es = [] <-> es = [].
Proof.
  unfold relabel. destruct (custom_message options); [| tauto].
  apply map_with_message_nil.
Qed.

Lemma flat_map_nil {A B : Type} (f : A -> list B) (l : list A) :
  flat_map f l = [] <-> Forall (fun a => f a = []) l.
Proof.
  induction l as [| a l IH]; simpl.
  - split; [constructor | reflexivity].
  - split.
    + intros H. apply app_eq_nil in H as [Ha Hl]. constructor; [exact Ha | tauto].
    + intros H. inversion H; subst. rewrite H2. simpl. tauto.
Qed.

(** X5.  With [trim()] the validator does not see white space around the
    string: a string and the string trimmed get the same verdict and the
    same data, which is the trimmed string, and their errors carry the same
    messages in the same order. *)
Theorem trim_ignores_outer_space :
  forall (o so : StringValidatorOptions.t) (s p : string),
    StringValidatorOptions.trim so = true ->
    let v := string_validator o so in
    let r := validate v (VString s) p in
    let r' := validate v (VString (Str.trim s)) p in
    isValid r = isValid r'
    /\ data r = data r'
    /\ map message (errors r) = map message (errors r')
    /\ (isValid r = true -> data r = Some (VString (Str.trim s))).
Proof.
  intros o so s p Htrim v r r'. subst v r r'. cbn [validate].
  assert (Ht : tested_string so (Str.trim s) = tested_string so s)
    by (unfold tested_string; rewrite Htrim; apply trim_trim).
  assert (Ht' : tested_string so s = Str.trim s)
    by (unfold tested_string; now rewrite Htrim).
  destruct (StringValidator_accepted so s p) as [Hacc Hs].
  destruct (StringValidator_accepted so (Str.trim s) p) as [Hacc' Hs'].
  rewrite Ht in Hacc', Hs'.
  pose proof (StringValidator_messages so s (Str.trim s) p (eq_sym Ht)) as Hm.
  destruct (BaseValidator_validate_errors (StringValidatorOptions.base o)
              (StringValidator.validateValue so) (VString s) p eq_refl)
    as (He & Hv & Hd).
  { apply (StringValidator_well_formed so (VString s) p). }
  destruct (BaseValidator_validate_errors (StringValidatorOptions.base o)
              (StringValidator.validateValue so) (VString (Str.trim s)) p eq_refl)
    as (He' & Hv' & Hd').
  { apply (StringValidator_well_formed so (VString (Str.trim s)) p). }
  rewrite He, He', Hv, Hv', Hd, Hd'.
  split; [congruence |]. split; [| split].
  - destruct (isValid (StringValidator.validateValue so (VString s) p)) eqn:E.
    + assert (E' : isValid (StringValidator.validateValue so
                              (VString (Str.trim s)) p) = true) by congruence.
      rewrite (Hs eq_refl), (Hs' E'). reflexivity.
    + pose proof (StringValidator_well_formed so (VString s) p) as (_ & Hf & _).
      pose proof (StringValidator_well_formed so (VString (Str.trim s)) p)
        as (_ & Hf' & _).
      rewrite (Hf E), Hf'; [reflexivity | congruence].
  - now apply relabel_messages.
  - intros E. rewrite (Hs E), Ht'. reflexivity.
Qed.

End Strings.

Lemma string_data_revalidates_witness :
  let o := StringValidatorOptions.set_trim StringValidatorOptions.empty true in
  let v := string_validator o o in
  StringValidatorOptions.pattern o = None
  /\ isValid (validate (host := Examples.host) v (VString " a ") "root") = true
  /\ validate (host := Examples.host) v
       (read_data (validate (host := Examples.host) v (VString " a ") "root"))
       "root.name"
     = validate (host := Examples.host) v (VString " a ") "root".
Proof.
  split; [reflexivity |]. split; [reflexivity |].
  apply (string_data_revalidates (host := Examples.host)); reflexivity.
Defined.

Lemma trim_ignores_outer_space_witness :
  let o := StringValidatorOptions.set_minLength
             (StringValidatorOptions.set_trim StringValidatorOptions.empty true)
             (Some (Num.of_Z 2)) in
  let v := string_validator o o in
  let r := validate (host := Examples.host) v (VString " a ") "root" in
  let r' := validate (host := Examples.host) v (VString (Str.trim " a ")) "root" in
  StringValidatorOptions.trim o = true
  /\ isValid r = isValid r'
  /\ data r = data r'
  /\ map message (errors r) = map message (errors r')
  /\ (isValid r = true -> data r = Some (VString (Str.trim " a "))).
Proof.
  split; [reflexivity |].
  apply (trim_ignores_outer_space (host := Examples.host)). reflexivity.
Defined.

(* ================================================================== *)
(** * The fixed patterns: e-mail addresses and UUIDs *)
(* ================================================================== *)

Section Patterns.
Context {host : Host}.

Lemma in_empty l : ~ in_lang Regex.Empty l.
Proof. intros H. inversion H. Qed.

Lemma in_eps_nil l : in_lang Regex.Eps l <-> l = [].
Proof. split; [intros H; now inversion H | intros ->; constructor]. Qed.

Lemma in_seq_iff a b l :
  in_lang (Regex.Seq a b) l
  <-> exists l1 l2, l = l1 ++ l2 /\ in_lang a l1 /\ in_lang b l2.
Proof.
  split.
  - intros H. inversion H; subst. eauto.
  - intros (l1 & l2 & -> & H1 & H2). now constructor.
Qed.

Lemma in_alt_iff a b l :
  in_lang (Regex.Alt a b) l <-> in_lang a l \/ in_lang b l.
Proof.
  split.
  - intros H. inversion H; subst; auto.
  - intros [H | H]; [now apply lang_alt_left | now apply lang_alt_right].
Qed.

Lemma nullable_in r : Regex.nullable r = true <-> in_lang r [].
Proof.
  split.
  - induction r; simpl; intros H; try discriminate.
    + constructor.
    + apply andb_true_iff in H as [Ha Hb].
      now apply (lang_seq r1 r2 [] []); auto.
    + apply orb_true_iff in H as [H | H];
        [apply lang_alt_left | apply lang_alt_right]; auto.
    + constructor.
  - intros H. remember [] as l eqn:El. induction H; subst; simpl;
      try reflexivity; try discriminate.
    + apply app_eq_nil in El as [-> ->]. now rewrite IHin_lang1, IHin_lang2.
    + now rewrite IHin_lang.
    + rewrite IHin_lang by reflexivity. apply orb_true_r.
Qed.

Lemma seq_in a b l : in_lang (Regex.seq a b) l <-> in_lang (Regex.Seq a b) l.
Proof.
  rewrite in_seq_iff.
  assert (Hempty_l : forall b', in_lang Regex.Empty l
            <-> exists l1 l2, l = l1 ++ l2 /\ in_lang Regex.Empty l1 /\ in_lang b' l2).
  { intros b'. split; [intros H; now apply in_empty in H |].
    intros (l1 & l2 & _ & H & _). now apply in_empty in H. }
  assert (Hempty_r : forall a', in_lang Regex.Empty l
            <-> exists l1 l2, l = l1 ++ l2 /\ in_lang a' l1 /\ in_lang Regex.Empty l2).
  { intros a'. split; [intros H; now apply in_empty in H |].
    intros (l1 & l2 & _ & _ & H). now apply in_empty in H. }
  assert (Heps_l : forall b', in_lang b' l
            <-> exists l1 l2, l = l1 ++ l2 /\ in_lang Regex.Eps l1 /\ in_lang b' l2).
  { intros b'. split.
    - intros H. exists [], l. repeat split; [constructor | exact H].
    - intros (l1 & l2 & -> & H1 & H2). apply in_eps_nil in H1. now subst. }
  assert (Heps_r : forall a', in_lang a' l
            <-> exists l1 l2, l = l1 ++ l2 /\ in_lang a' l1 /\ in_lang Regex.Eps l2).
  { intros a'. split.
    - intros H. exists l, []. rewrite app_nil_r. repeat split; [exact H | constructor].
    - intros (l1 & l2 & -> & H1 & H2). apply in_eps_nil in H2. subst.
      now rewrite app_nil_r. }
  destruct a; destruct b; simpl;
    first [ apply Hempty_l | apply Hempty_r | apply Heps_l | apply Heps_r
          | apply in_seq_iff ].
Qed.

Lemma alt_in a b l : in_lang (Regex.alt a b) l <-> in_lang (Regex.Alt a b) l.
Proof.
  rewrite in_alt_iff.
  pose proof (in_empty l) as He.
  destruct a; destruct b; simpl; rewrite ?in_alt_iff; tauto.
Qed.

Lemma deriv_in c r : forall l, in_lang (Regex.deriv c r) l <-> in_lang r (c :: l).
Proof.
  intros l. split.
  - revert l. induction r; simpl; intros l H.
    + now apply in_empty in H.
    + now apply in_empty in H.
    + destruct (p c) eqn:E; [| now apply in_empty in H].
      apply in_eps_nil in H. subst. now constructor.
    + assert (Hleft : in_lang (Regex.seq (Regex.deriv c r1) r2) l ->
                      in_lang (Regex.Seq r1 r2) (c :: l)).
      { intros H'. apply seq_in, in_seq_iff in H' as (l1 & l2 & -> & H1 & H2).
        apply (lang_seq r1 r2 (c :: l1) l2); auto. }
      destruct (Regex.nullable r1) eqn:En; [| auto].
      apply alt_in, in_alt_iff in H as [H | H]; [auto |].
      apply (lang_seq r1 r2 [] (c :: l)); [now apply nullable_in | auto].
    + apply alt_in, in_alt_iff in H as [H | H];
        [apply lang_alt_left | apply lang_alt_right]; auto.
    + apply seq_in, in_seq_iff in H as (l1 & l2 & -> & H1 & H2).
      apply (lang_star_more r (c :: l1) l2); auto.
  - intros H. remember (c :: l) as l0 eqn:El. revert l El.
    induction H; intros t El; simpl; try discriminate.
    + injection El as -> <-. rewrite H. constructor.
    + assert (Hleft : forall l1', l1 = c :: l1' ->
                in_lang (Regex.seq (Regex.deriv c a) b) (l1' ++ l2)).
      { intros l1' E1. apply seq_in. constructor; auto. }
      destruct l1 as [| c1 l1'].
      * simpl in El. subst l2.
        apply nullable_in in H. rewrite H. apply alt_in, lang_alt_right. auto.
      * simpl in El. injection El as -> <-.
        destruct (Regex.nullable a); [apply alt_in, lang_alt_left |]; auto.
    + apply alt_in, lang_alt_left. auto.
    + apply alt_in, lang_alt_right. auto.
    + destruct l1 as [| c1 l1'].
      * simpl in El. now apply IHin_lang2.
      * simpl in El. injection El as -> <-. apply seq_in. constructor; auto.
Qed.

(** The test by derivatives accepts the strings of the expression. *)
Lemma matches_chars_in r l : Regex.matches_chars r l = true <-> in_lang r l.
Proof.
  revert r. induction l as [| c l IH]; intros r; simpl.
  - apply nullable_in.
  - rewrite IH. apply deriv_in.
Qed.

Lemma in_class_iff p l :
  in_lang (Regex.Class p) l <-> exists c, l = [c] /\ p c = true.
Proof.
  split.
  - intros H. inversion H; subst. eauto.
  - intros (c & -> & H). now constructor.
Qed.

Lemma in_star_class p l :
  in_lang (Regex.Star (Regex.Class p)) l <-> forallb p l = true.
Proof.
  split.
  - intros H. remember (Regex.Star (Regex.Class p)) as r eqn:Er.
    induction H; try discriminate; [reflexivity |].
    injection Er as ->. apply in_class_iff in H as (c & -> & Hc).
    simpl. rewrite Hc. now apply IHin_lang2.
  - induction l as [| c l IH]; simpl; intros H; [constructor |].
    apply andb_true_iff in H as [Hc Hl].
    apply (lang_star_more (Regex.Class p) [c] l); [now constructor | auto].
Qed.

Lemma in_plus_class p l :
  in_lang (Regex.plus (Regex.Class p)) l <-> l <> [] /\ forallb p l = true.
Proof.
  unfold Regex.plus. rewrite in_seq_iff. split.
  - intros (l1 & l2 & -> & H1 & H2). apply in_class_iff in H1 as (c & -> & Hc).
    apply in_star_class in H2. simpl. rewrite Hc, H2. split; [discriminate | auto].
  - intros [Hne H]. destruct l as [| c l]; [contradiction |].
    simpl in H. apply andb_true_iff in H as [Hc Hl].
    exists [c], l. repeat split; [now constructor | now apply in_star_class].
Qed.

Lemma in_times_class p n l :
  in_lang (Regex.times n (Regex.Class p)) l
  <-> List.length l = n /\ forallb p l = true.
Proof.
  revert l. induction n as [| n IH]; intros l; simpl.
  - rewrite in_eps_nil. split; [intros ->; auto | intros [H _]].
    now apply length_zero_iff_nil.
  - rewrite in_seq_iff. split.
    + intros (l1 & l2 & -> & H1 & H2). apply in_class_iff in H1 as (c & -> & Hc).
      apply IH in H2 as [Hn Hl]. simpl. rewrite Hc, Hn, Hl. auto.
    + intros [Hn H]. destruct l as [| c l]; [discriminate |].
      simpl in *. apply andb_true_iff in H as [Hc Hl].
      exists [c], l. repeat split; [now constructor | apply IH; auto].
Qed.

Lemma is_char_eq k c : k < 256 -> Str.is_char k c = true <-> c = ascii_of_nat k.
Proof.
  intros Hk. unfold Str.is_char, Str.code. rewrite Nat.eqb_eq. split.
  - intros <-. now rewrite ascii_nat_embedding.
  - intros ->. now apply nat_ascii_embedding.
Qed.

Lemma in_chr k l : k < 256 -> in_lang (Regex.chr k) l <-> l = [ascii_of_nat k].
Proof.
  intros Hk. unfold Regex.chr. rewrite in_class_iff. split.
  - intros (c & -> & Hc). apply is_char_eq in Hc; [now subst | exact Hk].
  - intros ->. exists (ascii_of_nat k). split; [reflexivity |].
    now apply is_char_eq.
Qed.

Lemma forallb_agree {A : Type} (f g : A -> bool) (l : list A) :
  (forall a, f a = g a) -> forallb f l = forallb g l.
Proof. intros H. induction l as [| a l IH]; simpl; [reflexivity | now rewrite H, IH]. Qed.

Lemma local_char_class c :
  existsb (fun p : ascii -> bool => p c)
    [Str.is_alpha; Str.is_digit; Str.is_char 46; Str.is_char 95; Str.is_char 37;
     Str.is_char 43; Str.is_char 45]
  = local_char c.
Proof. unfold local_char. simpl. now rewrite orb_false_r. Qed.

Lemma domain_char_class c :
  existsb (fun p : ascii -> bool => p c)
    [Str.is_alpha; Str.is_digit; Str.is_char 46; Str.is_char 45]
  = domain_char c.
Proof. unfold domain_char. simpl. now rewrite orb_false_r. Qed.

(** The pattern of e-mail addresses accepts the strings of the shape
    [local@domain.tld]. *)
Lemma emailRegex_shape s :
  Regex.test StringValidator.emailRegex s = true <-> email_shape s.
Proof.
  unfold Regex.test, email_shape. rewrite matches_chars_in.
  unfold StringValidator.emailRegex, Regex.any_of. split.
  - intros H.
    apply in_seq_iff in H as (local & r1 & E0 & Hl & H).
    apply in_seq_iff in H as (at_sign & r2 & E1 & Hat & H).
    apply in_seq_iff in H as (domain & r3 & E2 & Hd & H).
    apply in_seq_iff in H as (dot & r4 & E3 & Hdot & H).
    apply in_seq_iff in H as (t2 & t3 & E4 & Ht2 & Ht3).
    apply in_plus_class in Hl as [Hl Hlocal].
    apply in_plus_class in Hd as [Hd Hdomain].
    apply in_chr in Hat; [| lia]. apply in_chr in Hdot; [| lia].
    apply in_times_class in Ht2 as [Hlen Ht2]. apply in_star_class in Ht3.
    rewrite (forallb_agree _ _ local local_char_class) in Hlocal.
    rewrite (forallb_agree _ _ domain domain_char_class) in Hdomain.
    subst. exists local, domain, (t2 ++ t3). repeat split; auto.
    + rewrite length_app. lia.
    + rewrite forallb_app, Ht2, Ht3. reflexivity.
  - intros (local & domain & tld & E & Hl & Hlocal & Hd & Hdomain & Hlen & Htld).
    rewrite E.
    rewrite <- (firstn_skipn 2 tld) in Htld |- *.
    rewrite forallb_app in Htld. apply andb_true_iff in Htld as [Ht2 Ht3].
    apply (lang_seq _ _ local). 
    { apply in_plus_class. split; [exact Hl |].
      now rewrite (forallb_agree _ _ local local_char_class). }
    apply (lang_seq _ _ [ascii_of_nat 64]); [apply in_chr; [lia | reflexivity] |].
    apply (lang_seq _ _ domain).
    { apply in_plus_class. split; [exact Hd |].
      now rewrite (forallb_agree _ _ domain domain_char_class). }
    apply (lang_seq _ _ [ascii_of_nat 46]); [apply in_chr; [lia | reflexivity] |].
    apply (lang_seq _ _ (firstn 2 tld)).
    { apply in_times_class. split; [| exact Ht2]. rewrite length_firstn. lia. }
    now apply in_star_class.
Qed.

Lemma contains_single c l : Str.contains [c] l = true -> In c l.
Proof.
  induction l as [| a l IH]; simpl.
  - discriminate.
  - intros H. apply orb_true_iff in H as [H | H]; [left | right; auto].
    apply andb_true_iff in H as [H _]. apply Ascii.eqb_eq in H. now subst.
Qed.

(** A string of the shape of an address holds no space and does not end with
    a dot: the two tests of the validator for these never fire. *)
Lemma email_shape_clean s :
  email_shape s ->
  Str.endsWith s "." = false /\ Str.includes s " " = false.
Proof.
  intros (local & domain & tld & E & _ & Hlocal & _ & Hdomain & Hlen & Htld).
  split.
  - unfold Str.endsWith. rewrite E.
    destruct (exists_last (l := tld)) as (tld' & z & ->).
    { intros ->. simpl in Hlen. lia. }
    rewrite forallb_app in Htld. apply andb_true_iff in Htld as [_ Hz].
    simpl in Hz. rewrite andb_true_r in Hz.
    replace (local ++ ascii_of_nat 64 :: domain ++ ascii_of_nat 46 :: tld' ++ [z])
      with ((local ++ ascii_of_nat 64 :: domain ++ ascii_of_nat 46 :: tld') ++ [z])
      by (rewrite <- !app_assoc; simpl; rewrite <- !app_assoc; reflexivity).
    rewrite rev_app_distr.
    match goal with
    | |- Str.starts_with _ (_ ++ ?t) = false =>
        change (Ascii.eqb "." z && true = false)
    end.
    destruct (Ascii.eqb "." z) eqn:Ez; [| reflexivity].
    apply Ascii.eqb_eq in Ez. subst z. discriminate Hz.
  - destruct (Str.includes s " ") eqn:Hi; [| reflexivity].
    unfold Str.includes in Hi. apply (contains_single " " (Str.chars s)) in Hi.
    rewrite E in Hi. rewrite forallb_forall in Hlocal, Hdomain, Htld.
    apply in_app_or in Hi as [Hi | [Hi | Hi]].
    + apply Hlocal in Hi. discriminate Hi.
    + discriminate Hi.
    + apply in_app_or in Hi as [Hi | [Hi | Hi]].
      * apply Hdomain in Hi. discriminate Hi.
      * discriminate Hi.
      * apply Htld in Hi. discriminate Hi.
Qed.

Lemma invalid_email_iff s :
  StringValidator.invalid_email s = false
  <-> email_shape s
      /\ Str.includes s ".." = false /\ Str.startsWith s "." = false.
Proof.
  unfold StringValidator.invalid_email.
  rewrite !orb_false_iff, negb_false_iff, emailRegex_shape. split.
  - tauto.
  - intros (Hs & Hd & Hp). destruct (email_shape_clean s Hs). tauto.
Qed.

(** The verdict of a string validator on a string is that of its check. *)
Lemma string_validator_verdict o so s p :
  isValid (validate (string_validator o so) (VString s) p)
  = string_accepted so (tested_string so s).
Proof.
  simpl.
  destruct (BaseValidator_validate_errors (StringValidatorOptions.base o)
              (StringValidator.validateValue so) (VString s) p eq_refl)
    as (_ & Hv & _).
  { apply (StringValidator_well_formed so (VString s) p). }
  rewrite Hv. apply StringValidator_accepted.
Qed.

(** X6.  [Schema.string().email()] accepts exactly the strings of the shape
    [local@domain.tld] (a local part of letters, digits and [._%+-], a
    domain of letters, digits, dots and dashes, then a dot and at least two
    letters) that hold no two dots in a row and do not start with a dot.
    The other two tests of the validator, for a final dot and for a space,
    reject nothing that the pattern accepts. *)
Theorem email_accepts_addresses :
  forall (s p : string),
    isValid (validate (StringValidator.email Schema.string) (VString s) p) = true
    <-> email_shape s
        /\ Str.includes s ".." = false /\ Str.startsWith s "." = false.
Proof.
  intros s p. rewrite <- invalid_email_iff.
  unfold StringValidator.email, Schema.string, new_StringValidator.
  rewrite string_validator_verdict.
  unfold string_accepted, tested_string. simpl.
  destruct (StringValidator.invalid_email s); simpl; split; congruence.
Qed.

Lemma uuid_classes l :
  forallb
    (fun c => existsb (fun p : ascii -> bool => p c)
                [Str.is_digit; Str.in_range 97 102; Str.in_range 65 70]) l
  = forallb hex_char l.
Proof.
  apply forallb_agree. intros c. unfold hex_char. simpl. now rewrite orb_false_r.
Qed.

(** The pattern of UUIDs accepts the strings of five groups. *)
Lemma uuidRegex_shape s :
  Regex.test StringValidator.uuidRegex s = true <-> uuid_shape s.
Proof.
  unfold Regex.test, uuid_shape. rewrite matches_chars_in.
  unfold StringValidator.uuidRegex, Regex.any_of. split.
  - intros H.
    apply in_seq_iff in H as (g1 & r1 & E1 & H1 & H).
    apply in_seq_iff in H as (d1 & r2 & E2 & Hd1 & H).
    apply in_seq_iff in H as (g2 & r3 & E3 & H2 & H).
    apply in_seq_iff in H as (d2 & r4 & E4 & Hd2 & H).
    apply in_seq_iff in H as (v & r5 & E5 & Hv & H).
    apply in_seq_iff in H as (g3 & r6 & E6 & H3 & H).
    apply in_seq_iff in H as (d3 & r7 & E7 & Hd3 & H).
    apply in_seq_iff in H as (w & r8 & E8 & Hw & H).
    apply in_seq_iff in H as (g4 & r9 & E9 & H4 & H).
    apply in_seq_iff in H as (d4 & g5 & E10 & Hd4 & H5).
    apply in_times_class in H1 as [L1 F1]. apply in_times_class in H2 as [L2 F2].
    apply in_times_class in H3 as [L3 F3]. apply in_times_class in H4 as [L4 F4].
    apply in_times_class in H5 as [L5 F5].
    apply in_chr in Hd1; [| lia]. apply in_chr in Hd2; [| lia].
    apply in_chr in Hd3; [| lia]. apply in_chr in Hd4; [| lia].
    apply in_class_iff in Hv as (version & -> & Hversion).
    apply in_class_iff in Hw as (variant & -> & Hvariant).
    rewrite uuid_classes in F1, F2, F3, F4, F5.
    subst. exists g1, g2, version, g3, variant, g4, g5.
    repeat split; auto.
    + rewrite !forallb_app, F1, F2, F3, F4, F5. reflexivity.
    + unfold variant_char. simpl in Hvariant. now rewrite orb_false_r in Hvariant.
  - intros (g1 & g2 & version & g3 & variant & g4 & g5 & E & L1 & L2 & L3 & L4 & L5
            & F & Hversion & Hvariant).
    rewrite !forallb_app, !andb_true_iff in F.
    destruct F as (F1 & F2 & F3 & F4 & F5). rewrite E.
    assert (Hhex : forall n g, List.length g = n -> forallb hex_char g = true ->
              in_lang (Regex.times n
                         (Regex.Class
                            (fun c => existsb (fun p : ascii -> bool => p c)
                               [Str.is_digit; Str.in_range 97 102;
                                Str.in_range 65 70]))) g).
    { intros n g Hn Hg. apply in_times_class. now rewrite uuid_classes. }
    apply (lang_seq _ _ g1); [now apply Hhex |].
    apply (lang_seq _ _ [ascii_of_nat 45]); [apply in_chr; [lia | reflexivity] |].
    apply (lang_seq _ _ g2); [now apply Hhex |].
    apply (lang_seq _ _ [ascii_of_nat 45]); [apply in_chr; [lia | reflexivity] |].
    apply (lang_seq _ _ [version]); [now constructor |].
    apply (lang_seq _ _ g3); [now apply Hhex |].
    apply (lang_seq _ _ [ascii_of_nat 45]); [apply in_chr; [lia | reflexivity] |].
    apply (lang_seq _ _ [variant]).
    { constructor. unfold variant_char in Hvariant. simpl.
      now rewrite orb_false_r. }
    apply (lang_seq _ _ g4); [now apply Hhex |].
    apply (lang_seq _ _ [ascii_of_nat 45]); [apply in_chr; [lia | reflexivity] |].
    now apply Hhex.
Qed.

(** X7.  [Schema.string().uuid()] accepts exactly the strings of 36
    characters made of five groups of 8, 4, 4, 4 and 12 hexadecimal digits,
    in either case, with a dash between them, whose third group starts with
    a version from 1 to 5 and whose fourth group starts with 8, 9, a or b. *)
Theorem uuid_accepts_five_groups :
  forall (s p : string),
    isValid (validate (StringValidator.uuid Schema.string) (VString s) p) = true
    <-> uuid_shape s.
Proof.
  intros s p. rewrite <- uuidRegex_shape.
  unfold StringValidator.uuid, Schema.string, new_StringValidator.
  rewrite string_validator_verdict.
  unfold string_accepted, tested_string. simpl.
  destruct (Regex.test StringValidator.uuidRegex s); simpl; split; congruence.
Qed.

End Patterns.

(* ================================================================== *)
(** * Numbers: bounds and constraints that nothing meets *)
(* ================================================================== *)

Section Numbers.
Context {host : Host}.

Lemma NumberValidator_accepted no n p :
  Num.isNaN n = false ->
  isValid (NumberValidator.validateValue no (VNumber n) p) = number_accepted no n
  /\ (isValid (NumberValidator.validateValue no (VNumber n) p) = true ->
      NumberValidator.validateValue no (VNumber n) p = createSuccess (VNumber n)).
Proof.
  intros Hn. unfold NumberValidator.validateValue, number_accepted. rewrite Hn.
  split.
  - apply eq_true_iff_eq. rewrite isValid_finish, !andb_true_iff, !negb_true_iff.
    destruct (NumberValidatorOptions.min no),
      (NumberValidatorOptions.max no),
      (NumberValidatorOptions.multipleOf no);
      rewrite ?push_if_nil, ?negb_true_iff, ?negb_false_iff; intuition congruence.
  - intros H. now apply finish_valid in H as [_ ->].
Qed.

(** The verdict of a number validator on a number. *)
Lemma number_validator_verdict o no n p :
  isValid (validate (number_validator o no) (VNumber n) p)
  = negb (Num.isNaN n) && number_accepted no n.
Proof.
  simpl.
  destruct (BaseValidator_validate_errors (NumberValidatorOptions.base o)
              (NumberValidator.validateValue no) (VNumber n) p eq_refl)
    as (_ & Hv & _).
  { apply (NumberValidator_well_formed no (VNumber n) p). }
  rewrite Hv. destruct (Num.isNaN n) eqn:En.
  - unfold NumberValidator.validateValue. now rewrite En.
  - now apply NumberValidator_accepted.
Qed.

Lemma Qle_bool_cases x y :
  Qle_bool y x = negb (Qle_bool x y) || Qeq_bool y x.
Proof.
  unfold Qle_bool, Qeq_bool.
  destruct (Z.leb_spec (Qnum y * QDen x) (Qnum x * QDen y));
    destruct (Z.leb_spec (Qnum x * QDen y) (Qnum y * QDen x));
    destruct (Z.eqb_spec (Qnum y * QDen x) (Qnum x * QDen y));
    simpl; try reflexivity; lia.
Qed.

(** For numbers that are not NaN, [n < a] fails exactly when [a <= n]. *)
Lemma Num_not_lt n a :
  Num.isNaN n = false -> Num.isNaN a = false ->
  negb (Num.lt n a) = Num.le a n.
Proof.
  destruct n as [| sn | x], a as [| sa | y]; try discriminate; intros _ _;
    unfold Num.le, Num.lt, Num.eq, Num.Qlt_bool; simpl.
  - destruct sn, sa; reflexivity.
  - destruct sn; reflexivity.
  - destruct sa; reflexivity.
  - rewrite negb_involutive. apply Qle_bool_cases.
Qed.

Lemma Num_le_NaN_r a : Num.le a Num.NaN = false.
Proof. destruct a as [| [] |]; reflexivity. Qed.

Lemma Num_le_NaN_l a : Num.le Num.NaN a = false.
Proof. destruct a as [| [] |]; reflexivity. Qed.

(** X8.  The bounds of [range] are inclusive: for bounds that are not NaN,
    [Schema.number().range(a, b)] accepts exactly the numbers [n] with
    [a <= n] and [n <= b], the bounds themselves among them, and returns the
    number as it is. *)
Theorem number_range_inclusive :
  forall (a b n : Num.t) (p : string),
    Num.isNaN a = false -> Num.isNaN b = false ->
    let r := validate (NumberValidator.range a b Schema.number) (VNumber n) p in
    (isValid r = true <-> Num.le a n = true /\ Num.le n b = true)
    /\ (isValid r = true -> data r = Some (VNumber n)).
Proof.
  intros a b n p Ha Hb r. subst r.
  unfold NumberValidator.range, Schema.number, new_NumberValidator.
  split.
  - rewrite number_validator_verdict. unfold number_accepted. simpl.
    destruct (Num.isNaN n) eqn:En.
    + destruct n; try discriminate. rewrite Num_le_NaN_r. simpl.
      split; [discriminate | intros [H _]; discriminate].
    + unfold Num.gt. rewrite (Num_not_lt n a En Ha), (Num_not_lt b n Hb En).
      simpl. rewrite !andb_true_r, andb_true_iff. reflexivity.
  - intros Hv. assert (Hv' := Hv). rewrite number_validator_verdict in Hv'.
    apply andb_true_iff in Hv' as [En _]. apply negb_true_iff in En.
    simpl in *.
    apply BaseValidator_validate_data in Hv as [(_ & Habs & _) | (Hv & ->)];
      [discriminate |].
    now rewrite (proj2 (NumberValidator_accepted _ n p En) Hv).
Qed.

Lemma Num_rem_zero n m :
  Num.eq m Num.zero = true -> Num.eq (Num.rem n m) Num.zero = false.
Proof.
  destruct m as [| sm | y]; try discriminate. intros Hy.
  change (Qeq_bool y 0 = true) in Hy.
  destruct n as [| sn | x]; try reflexivity.
  unfold Num.rem. now rewrite Hy.
Qed.

Lemma Num_le_or_ge n :
  Num.isNaN n = false -> Num.le n Num.zero || Num.ge n Num.zero = true.
Proof.
  intros Hn. unfold Num.ge. rewrite <- (Num_not_lt n Num.zero Hn eq_refl).
  unfold Num.le. destruct (Num.lt n Num.zero); simpl;
    [reflexivity | apply orb_true_r].
Qed.

(** X9.  What no number validator accepts, whatever else is configured:
    NaN; any number at all once [multipleOf(0)] is set, since the remainder
    by zero is NaN; any number at all once both [positive()] and
    [negative()] are set. *)
Theorem number_never_accepted :
  forall (o no : NumberValidatorOptions.t) (n zero : Num.t) (p : string),
    let v := number_validator o no in
    isValid (validate v (VNumber Num.NaN) p) = false
    /\ (Num.eq zero Num.zero = true ->
        isValid (validate (NumberValidator.multipleOf zero v) (VNumber n) p) = false)
    /\ isValid (validate (NumberValidator.positive (NumberValidator.negative v))
                  (VNumber n) p) = false
    /\ isValid (validate (NumberValidator.negative (NumberValidator.positive v))
                  (VNumber n) p) = false.
Proof.
  intros o no n zero p v. subst v.
  unfold NumberValidator.multipleOf, NumberValidator.positive,
    NumberValidator.negative, new_NumberValidator.
  rewrite !number_validator_verdict. split; [reflexivity |].
  assert (Hsigns : forall no',
            NumberValidatorOptions.positive no' = true ->
            NumberValidatorOptions.negative no' = true ->
            negb (Num.isNaN n) && number_accepted no' n = false).
  { intros no' Hp Hn. destruct (Num.isNaN n) eqn:En; [reflexivity |]. simpl.
    unfold number_accepted. rewrite Hp, Hn. simpl.
    pose proof (Num_le_or_ge n En) as H.
    destruct (Num.le n Num.zero), (Num.ge n Num.zero); try discriminate;
      rewrite ?andb_false_r; reflexivity. }
  split; [| split; apply Hsigns; reflexivity].
  intros Hz. destruct (Num.isNaN n); [reflexivity |]. simpl.
  unfold number_accepted. simpl. rewrite (Num_rem_zero n zero Hz).
  apply andb_false_r.
Qed.

End Numbers.

Lemma number_range_inclusive_witness :
  let r := validate (host := Examples.host)
             (NumberValidator.range (Num.of_Z 1) (Num.of_Z 3) Schema.number)
             (VNumber (Num.of_Z 3)) "root" in
  Num.isNaN (Num.of_Z 1) = false /\ Num.isNaN (Num.of_Z 3) = false
  /\ (isValid r = true
      <-> Num.le (Num.of_Z 1) (Num.of_Z 3) = true
          /\ Num.le (Num.of_Z 3) (Num.of_Z 3) = true)
  /\ (isValid r = true -> data r = Some (VNumber (Num.of_Z 3))).
Proof.
  split; [reflexivity |]. split; [reflexivity |].
  apply (number_range_inclusive (host := Examples.host)); reflexivity.
Defined.

Lemma number_never_accepted_witness :
  let v := number_validator NumberValidatorOptions.empty NumberValidatorOptions.empty in
  Num.eq (Num.of_Z 0) Num.zero = true
  /\ isValid (validate (host := Examples.host)
                (NumberValidator.multipleOf (Num.of_Z 0) v)
                (VNumber (Num.of_Z 4)) "root") = false.
Proof.
  split; [reflexivity |].
  exact (proj1 (proj2 (number_never_accepted (host := Examples.host)
                         NumberValidatorOptions.empty NumberValidatorOptions.empty
                         (Num.of_Z 4) (Num.of_Z 0) "root"))
           eq_refl).
Defined.

(* ================================================================== *)
(** * Booleans: strict mode and the words that convert *)
(* ================================================================== *)

Section Booleans.
Context {host : Host}.

(** X10.  In strict mode a boolean validator accepts a value that is not an
    absence sentinel exactly when it is a boolean, and returns it as it is;
    [strict()] wins over [truthy()] whichever is called first. *)
Theorem strict_accepts_booleans_only :
  forall (o bo : BooleanValidatorOptions.t) (x : JsValue) (p : string),
    let v := boolean_validator o bo in
    let w := BooleanValidator.strict v in
    validate (BooleanValidator.strict (BooleanValidator.truthy v)) x p
    = validate w x p
    /\ validate (BooleanValidator.truthy (BooleanValidator.strict v)) x p
       = validate w x p
    /\ (is_absent x = false -> isValid (validate w x p) = is_boolean x)
    /\ (is_boolean x = true -> validate w x p = createSuccess x).
Proof.
  intros o bo x p v w. subst v w. simpl. repeat split.
  - intros Hx.
    destruct (BaseValidator_validate_errors
                (BooleanValidatorOptions.base
                   (BooleanValidatorOptions.set_strict bo true))
                (BooleanValidator.validateValue
                   (BooleanValidatorOptions.set_strict bo true)) x p Hx)
      as (_ & Hv & _).
    { apply (BooleanValidator_well_formed
               (BooleanValidatorOptions.set_strict bo true) x p). }
    rewrite Hv. destruct x; reflexivity.
  - intros Hx. destruct x; try discriminate.
    unfold BaseValidator.validate. simpl. rewrite andb_false_r.
    destruct (custom_message _); reflexivity.
Qed.

Lemma lower_char_twice c : Str.lower_char (Str.lower_char c) = Str.lower_char c.
Proof. destruct c as [[] [] [] [] [] [] [] []]; reflexivity. Qed.

Lemma is_space_lower_char c : Str.is_space (Str.lower_char c) = Str.is_space c.
Proof. destruct c as [[] [] [] [] [] [] [] []]; reflexivity. Qed.

Lemma drop_while_map (f : ascii -> bool) (g : ascii -> ascii) l :
  (forall c, f (g c) = f c) ->
  Str.drop_while f (map g l) = map g (Str.drop_while f l).
Proof.
  intros H. induction l as [| c l IH]; simpl; [reflexivity |].
  rewrite H. destruct (f c); [exact IH | reflexivity].
Qed.

(** Lowering the case and trimming commute. *)
Lemma toLowerCase_trim s :
  Str.toLowerCase (Str.trim s) = Str.trim (Str.toLowerCase s).
Proof.
  unfold Str.toLowerCase, Str.trim. rewrite !chars_of_chars. f_equal.
  rewrite (drop_while_map _ _ _ is_space_lower_char), <- map_rev,
    (drop_while_map _ _ _ is_space_lower_char), <- map_rev.
  reflexivity.
Qed.

Lemma toLowerCase_twice s :
  Str.toLowerCase (Str.toLowerCase s) = Str.toLowerCase s.
Proof.
  unfold Str.toLowerCase. rewrite chars_of_chars, map_map. f_equal.
  apply map_ext, lower_char_twice.
Qed.

(** In the default mode the verdict and the data on a string depend on the
    string lowered and trimmed only. *)
Lemma BooleanValidator_word o bo s s' p :
  BooleanValidatorOptions.strict bo = false ->
  BooleanValidatorOptions.truthy bo = false ->
  Str.trim (Str.toLowerCase s) = Str.trim (Str.toLowerCase s') ->
  let r := validate (boolean_validator o bo) (VString s) p in
  let r' := validate (boolean_validator o bo) (VString s') p in
  isValid r = isValid r' /\ data r = data r'
  /\ map message (errors r) = map message (errors r').
Proof.
  intros Hs Ht Hw r r'. subst r r'. simpl.
  destruct (BaseValidator_validate_errors (BooleanValidatorOptions.base o)
              (BooleanValidator.validateValue bo) (VString s) p eq_refl)
    as (He & Hv & Hd).
  { apply (BooleanValidator_well_formed bo (VString s) p). }
  destruct (BaseValidator_validate_errors (BooleanValidatorOptions.base o)
              (BooleanValidator.validateValue bo) (VString s') p eq_refl)
    as (He' & Hv' & Hd').
  { apply (BooleanValidator_well_formed bo (VString s') p). }
  rewrite He, He', Hv, Hv', Hd, Hd'.
  unfold BooleanValidator.validateValue. rewrite Hs, Ht, Hw.
  destruct (BooleanValidator.true_word _); [auto |].
  destruct (BooleanValidator.false_word _); [auto |].
  repeat split. now apply relabel_messages.
Qed.

(** X11.  In its default mode the boolean validator reads a string without
    regard to case and to white space around it: the string, the string
    trimmed and the string in lower case get the same verdict and the same
    data, and their errors carry the same messages. *)
Theorem boolean_words_ignore_case_and_space :
  forall (o bo : BooleanValidatorOptions.t) (s p : string),
    BooleanValidatorOptions.strict bo = false ->
    BooleanValidatorOptions.truthy bo = false ->
    let v := boolean_validator o bo in
    let r := validate v (VString s) p in
    forall s', s' = Str.trim s \/ s' = Str.toLowerCase s ->
      let r' := validate v (VString s') p in
      isValid r' = isValid r /\ data r' = data r
      /\ map message (errors r') = map message (errors r).
Proof.
  intros o bo s p Hs Ht v r s' Hs' r'. subst v r r'.
  apply BooleanValidator_word; [exact Hs | exact Ht |].
  destruct Hs' as [-> | ->].
  - now rewrite toLowerCase_trim, trim_trim.
  - now rewrite toLowerCase_twice.
Qed.

End Booleans.

Lemma boolean_words_witness :
  let v := boolean_validator BooleanValidatorOptions.empty
             BooleanValidatorOptions.empty in
  let r := validate (host := Examples.host) v (VString " YES ") "root" in
  let r' := validate (host := Examples.host) v (VString (Str.trim " YES ")) "root" in
  isValid r = true /\ data r = Some (VBoolean true)
  /\ isValid r' = isValid r /\ data r' = data r
  /\ map message (errors r') = map message (errors r).
Proof.
  split; [reflexivity |]. split; [reflexivity |].
  apply (boolean_words_ignore_case_and_space (host := Examples.host)
           BooleanValidatorOptions.empty BooleanValidatorOptions.empty
           " YES " "root" eq_refl eq_refl (Str.trim " YES ")).
  left. reflexivity.
Defined.

(* ================================================================== *)
(** * Dates: bounds, formats and strings that are no dates *)
(* ================================================================== *)

Section Dates.
Context {host : Host}.

(** The bound checks of the date validator push no error exactly when the
    date is within the bounds. *)
Lemma date_bounds_pass dateOptions ms p x :
  (let errors :=
     match DateValidatorOptions.min dateOptions with
     | Some m =>
         push_if (JsDate.lt (JsDate.At ms) m)
           (createError p
              ("Date must be after "
               ++ match m with
                  | JsDate.At a => Date_toISOString a
                  | JsDate.Invalid => EmptyString
                  end)%string x) []
     | None => []
     end in
   match DateValidatorOptions.max dateOptions with
   | Some m =>
       push_if (JsDate.gt (JsDate.At ms) m)
         (createError p
            ("Date must be before "
             ++ match m with
                | JsDate.At b => Date_toISOString b
                | JsDate.Invalid => EmptyString
                end)%string x) errors
   | None => errors
   end) = []
  <-> within_bounds dateOptions ms.
Proof.
  unfold within_bounds, JsDate.lt, JsDate.gt.
  destruct (DateValidatorOptions.min dateOptions) as [[| a] |],
    (DateValidatorOptions.max dateOptions) as [[| b] |];
    cbn [JsDate.time]; rewrite ?push_if_nil, ?Num_lt_of_Z, ?Num_gt_of_Z,
      ?Z.ltb_ge;
    repeat match goal with
           | |- context [Num.lt ?n Num.NaN] =>
               replace (Num.lt n Num.NaN) with false by (now destruct n as [| [] |])
           | |- context [Num.gt ?n Num.NaN] =>
               replace (Num.gt n Num.NaN) with false by (now destruct n as [| [] |])
           end;
    rewrite ?push_if_nil, ?Z.ltb_ge;
    (split;
     [ intros H; split; intros c Hc; try discriminate Hc;
       injection Hc as <-; tauto
     | intros [Ha Hb];
       repeat split; try reflexivity;
       try (apply Ha; reflexivity); try (apply Hb; reflexivity) ]).
Qed.

(** The valid result of a date validator on a value that is no absence
    sentinel is the success with a valid date. *)
Lemma accepted_date_success o do x p :
  is_absent x = false ->
  isValid (validate (date_validator o do) x p) = true ->
  exists ms, validate (date_validator o do) x p = createSuccess (VDate (JsDate.At ms)).
Proof.
  intros Hx Hvalid. simpl in *.
  apply BaseValidator_validate_data in Hvalid
    as [(_ & Habs & _) | (Hv & ->)]; [congruence |].
  destruct (DateValidator_valid do x p Hv) as (ms & _ & _ & _ & Hr).
  now exists ms.
Qed.

(** X12.  A value that a date validator accepts gives a valid date within
    the bounds of the validator, both bounds included; a [Date] object is
    returned as it is.  Without a format set, every valid [Date] object
    within the bounds is accepted. *)
Theorem accepted_date_within_bounds :
  forall (o do : DateValidatorOptions.t) (x : JsValue) (p : string),
    is_absent x = false ->
    let r := validate (date_validator o do) x p in
    (isValid r = true ->
       exists ms,
         r = createSuccess (VDate (JsDate.At ms))
         /\ within_bounds do ms
         /\ (forall d, x = VDate d -> d = JsDate.At ms))
    /\ (forall ms,
          x = VDate (JsDate.At ms) ->
          DateValidatorOptions.format do = None ->
          within_bounds do ms -> r = createSuccess x).
Proof.
  intros o do x p Hx r. subst r. simpl. split.
  - intros Hvalid.
    apply BaseValidator_validate_data in Hvalid
      as [(_ & Habs & _) | (Hv & ->)]; [congruence |].
    destruct (DateValidator_valid do x p Hv) as (ms & Hf & Hd & Hi & Hr).
    exists ms. split; [exact Hr |].
    unfold DateValidator.validateValue in Hv. rewrite Hf, Hd, Hi in Hv.
    cbn [JsDate.isInvalid JsDate.time Num.isNaN Num.of_Z] in Hv.
    apply isValid_finish in Hv. split; [now apply date_bounds_pass in Hv |].
    intros d ->. simpl in Hd. now injection Hd.
  - intros ms -> Hf Hb.
    assert (Hc : DateValidator.validateValue do (VDate (JsDate.At ms)) p
                 = createSuccess (VDate (JsDate.At ms))).
    { unfold DateValidator.validateValue, DateValidator.check_format,
        DateValidator.implausible_string.
      rewrite Hf. cbn [DateValidator.to_date JsDate.isInvalid JsDate.time
                         Num.isNaN Num.of_Z].
      pose proof (proj2 (date_bounds_pass do ms p (VDate (JsDate.At ms))) Hb)
        as Hnil.
      cbv zeta in Hnil. cbv zeta. rewrite Hnil. reflexivity. }
    unfold BaseValidator.validate. simpl. rewrite andb_false_r, Hc. simpl.
    destruct (custom_message _); reflexivity.
Qed.

(** A date validator with a format rejects what is not of the format before
    it looks at the value. *)
Lemma format_rejects o do f x p :
  DateValidatorOptions.format do = Some f ->
  f <> DateValidatorOptions.string_ ->
  is_absent x = false -> is_string x = false ->
  (f = DateValidatorOptions.timestamp -> is_number x = false) ->
  let r := validate (date_validator o do) x p in
  isValid r = false
  /\ errors r
     = relabel (DateValidatorOptions.base o)
         [createError p (format_message f) x].
Proof.
  intros Hf Hstr Hx Hs Hn r. subst r. simpl.
  destruct (BaseValidator_validate_errors (DateValidatorOptions.base o)
              (DateValidator.validateValue do) x p Hx) as (He & Hv & _).
  { apply (DateValidator_well_formed do x p). }
  rewrite He, Hv.
  unfold DateValidator.validateValue, DateValidator.check_format. rewrite Hf.
  destruct f; [| | contradiction]; destruct x; try discriminate;
    try (split; reflexivity).
  now specialize (Hn eq_refl).
Qed.

(** X13.  With [iso()] or [timestamp()] a date validator rejects every
    [Date] object, with the one error of the format; so it rejects the data
    of its own valid results. *)
Theorem format_rejects_Date_objects :
  forall (o do : DateValidatorOptions.t) (f : DateValidatorOptions.Format)
         (x : JsValue) (p q : string),
    DateValidatorOptions.format do = Some f ->
    f <> DateValidatorOptions.string_ ->
    let v := date_validator o do in
    (forall d,
       isValid (validate v (VDate d) q) = false
       /\ errors (validate v (VDate d) q)
          = relabel (DateValidatorOptions.base o)
              [createError q (format_message f) (VDate d)])
    /\ (is_absent x = false -> isValid (validate v x p) = true ->
        isValid (validate v (read_data (validate v x p)) q) = false).
Proof.
  intros o do f x p q Hf Hstr v. subst v. split.
  - intros d. apply format_rejects; auto; reflexivity.
  - intros Hx Hvalid.
    destruct (accepted_date_success o do x p Hx Hvalid) as (ms & ->).
    cbn [read_data createSuccess data].
    apply (format_rejects o do f (VDate (JsDate.At ms)) q); auto; reflexivity.
Qed.

(** X14.  A date validator with no format rejects, with the single error
    [Invalid date], every string that, trimmed, has fewer than four
    characters or holds no digit, whatever date the host reads from the
    string and whatever bounds are configured. *)
Theorem short_or_digitless_string_is_no_date :
  forall (o do : DateValidatorOptions.t) (s p : string),
    DateValidatorOptions.format do = None ->
    String.length (Str.trim s) < 4 \/ DateValidator.has_digit (Str.trim s) = false ->
    let r := validate (date_validator o do) (VString s) p in
    DateValidator.validateValue do (VString s) p
    = createFailure [createError p "Invalid date" (VString s)]
    /\ isValid r = false
    /\ errors r
       = relabel (DateValidatorOptions.base o)
           [createError p "Invalid date" (VString s)].
Proof.
  intros o do s p Hf Hs r. subst r.
  assert (Hc : DateValidator.validateValue do (VString s) p
               = createFailure [createError p "Invalid date" (VString s)]).
  { unfold DateValidator.validateValue, DateValidator.check_format,
      DateValidator.to_date, DateValidator.implausible_string,
      DateValidator.invalid_date.
    rewrite Hf.
    destruct (DateValidator.clearly_invalid s) eqn:Ec; [reflexivity |].
    destruct (JsDate.isInvalid (Date_parse s)); [reflexivity |].
    unfold DateValidator.clearly_invalid in Ec.
    rewrite !orb_false_iff in Ec. destruct Ec as (((((Hne & _) & _) & _) & _) & _).
    rewrite Hne.
    destruct Hs as [Hs | Hs].
    - apply Nat.ltb_lt in Hs. rewrite Hs. reflexivity.
    - rewrite Hs. simpl. rewrite orb_true_r. reflexivity. }
  split; [exact Hc |]. simpl.
  destruct (BaseValidator_validate_errors (DateValidatorOptions.base o)
              (DateValidator.validateValue do) (VString s) p eq_refl)
    as (He & Hv & _).
  { apply (DateValidator_well_formed do (VString s) p). }
  rewrite He, Hv, Hc. split; reflexivity.
Qed.

End Dates.

Lemma accepted_date_within_bounds_witness :
  let do := DateValidatorOptions.set_max
              (DateValidatorOptions.set_min DateValidatorOptions.empty
                 (Some (JsDate.At 0)))
              (Some (JsDate.At 86400000)) in
  let r := validate (host := Examples.host) (date_validator do do)
             (VString "1970-01-02") "root" in
  isValid r = true
  /\ exists ms,
       r = createSuccess (VDate (JsDate.At ms))
       /\ within_bounds do ms
       /\ (forall d, VString "1970-01-02" = VDate d -> d = JsDate.At ms).
Proof.
  split; [reflexivity |].
  apply (accepted_date_within_bounds (host := Examples.host));
    reflexivity.
Defined.

Lemma format_rejects_Date_objects_witness :
  let do := DateValidatorOptions.set_format DateValidatorOptions.empty
              (Some DateValidatorOptions.timestamp) in
  let v := date_validator do do in
  isValid (validate (host := Examples.host) v (VNumber (Num.of_Z 5)) "root") = true
  /\ isValid
       (validate (host := Examples.host) v
          (read_data
             (validate (host := Examples.host) v (VNumber (Num.of_Z 5)) "root"))
          "root") = false.
Proof.
  split; [reflexivity |].
  apply (format_rejects_Date_objects (host := Examples.host) _ _
           DateValidatorOptions.timestamp);
    (reflexivity || discriminate).
Defined.

Lemma short_or_digitless_string_witness :
  let r := validate (host := Examples.host) Schema.date (VString " 12 ") "root" in
  String.length (Str.trim " 12 ") < 4
  /\ isValid r = false
  /\ errors r = [createError "root" "Invalid date" (VString " 12 ")].
Proof.
  split; [vm_compute; lia |].
  apply (short_or_digitless_string_is_no_date (host := Examples.host)
           DateValidatorOptions.empty DateValidatorOptions.empty " 12 " "root"
           eq_refl).
  left. vm_compute. lia.
Defined.

(* ================================================================== *)
(** * Arrays: the order of the errors, and values of another kind *)
(* ================================================================== *)

Section Arrays.
Context {host : Host}.

(** The loop over the items adds the errors of the failing items and the
    data of the others to what it is given. *)
Lemma validate_items_spec (f : validate_fn) p items :
  forall i es vs,
    ArrayValidator.validate_items f p i items es vs
    = (es ++ item_errors f p i items, vs ++ kept_data f p i items).
Proof.
  induction items as [| x items IH]; intros i es vs; simpl.
  - now rewrite !app_nil_r.
  - destruct (isValid (f x (ArrayValidator.itemPath p i))); simpl.
    + destruct (has_data (f x (ArrayValidator.itemPath p i))); simpl.
      * now rewrite IH, <- app_assoc.
      * now rewrite IH.
    + now rewrite IH, <- app_assoc.
Qed.

Lemma kept_data_length (f : validate_fn) p items :
  forall i, List.length (kept_data f p i items) <= List.length items.
Proof.
  induction items as [| x items IH]; intros i; simpl; [lia |].
  rewrite length_app. specialize (IH (S i)).
  destruct (isValid _ && has_data _); simpl; lia.
Qed.

(** No item fails exactly when the validator accepts every item at the
    path of its index. *)
Lemma item_errors_nil (f : validate_fn) p items :
  (forall x q, isValid (f x q) = true <-> errors (f x q) = []) ->
  forall i,
    item_errors f p i items = []
    <-> Forall (fun ix => isValid (f (snd ix) (ArrayValidator.itemPath p (fst ix)))
                          = true)
          (combine (seq i (List.length items)) items).
Proof.
  intros Hf. induction items as [| x items IH]; intros i; simpl.
  - split; [constructor | reflexivity].
  - rewrite Forall_cons_iff, <- IH. simpl. split.
    + intros H. apply app_eq_nil in H as [Hx Hrest]. split; [| exact Hrest].
      destruct (isValid (f x (ArrayValidator.itemPath p i))) eqn:E;
        [reflexivity |].
      apply Hf in Hx. congruence.
    + intros [Hx Hrest]. now rewrite Hx, Hrest.
Qed.

(** The errors, the verdict and the data of an array validator on an
    array. *)
Lemma array_result item o ao items p :
  let r := validate (array_validator item o ao) (VArray items) p in
  let kept := kept_data (validate item) p 0 items in
  errors r
  = relabel (ArrayValidatorOptions.base o)
      (ArrayValidator.length_errors ao (VArray items) items p
       ++ item_errors (validate item) p 0 items
       ++ duplicate_errors ao p kept)
  /\ (isValid r = true
      <-> ArrayValidator.length_errors ao (VArray items) items p = []
          /\ Forall (fun ix => isValid (validate item (snd ix)
                                          (ArrayValidator.itemPath p (fst ix)))
                               = true)
               (combine (seq 0 (List.length items)) items)
          /\ duplicate_errors ao p kept = [])
  /\ (isValid r = true -> data r = Some (VArray kept)).
Proof.
  intros r kept.
  assert (He : errors r
               = relabel (ArrayValidatorOptions.base o)
                   (ArrayValidator.length_errors ao (VArray items) items p
                    ++ item_errors (validate item) p 0 items
                    ++ duplicate_errors ao p kept)
               /\ (isValid r = true -> data r = Some (VArray kept))).
  { subst r kept. simpl.
    destruct (BaseValidator_validate_errors (ArrayValidatorOptions.base o)
                (ArrayValidator.validateValue (validate item) ao)
                (VArray items) p eq_refl) as (He & Hv & Hd).
    { apply (ArrayValidator_well_formed (validate item) ao (VArray items) p). }
    rewrite He, Hv, Hd.
    unfold ArrayValidator.validateValue, duplicate_errors.
    rewrite validate_items_spec. simpl. split.
    - rewrite errors_finish.
      destruct (ArrayValidatorOptions.unique ao && _);
        now rewrite <- ?app_assoc, ?app_nil_r.
    - intros H. now apply finish_valid in H as [_ ->]. }
  destruct He as [He Hd]. split; [exact He |]. split; [| exact Hd].
  destruct (every_result_well_formed (array_validator item o ao)
              (VArray items) p) as (Hv & _ & _).
  fold r in Hv. rewrite Hv, He, relabel_nil.
  rewrite <- (item_errors_nil (validate item) p items).
  - split.
    + intros H. apply app_eq_nil in H as [H1 H]. now apply app_eq_nil in H.
    + intros (-> & -> & ->). reflexivity.
  - intros x q. now apply (every_result_well_formed item).
Qed.

(** X15.  The errors of an array validator on an array come in a fixed
    order: the errors of the length checks, then the errors of the items
    that fail, by index, then the errors of the scan for duplicates, which
    runs over the data that was kept.  The array is accepted exactly when
    the length checks pass, the item validator accepts every item at the
    path of its index, and the scan finds no duplicate.  The data of a valid
    result is the data of the items without those that gave none, so it is
    never longer than the input. *)
Theorem array_errors_in_order :
  forall (item : Validator) (o ao : ArrayValidatorOptions.t)
         (items : list JsValue) (p : string),
    let r := validate (array_validator item o ao) (VArray items) p in
    let kept := kept_data (validate item) p 0 items in
    errors r
    = relabel (ArrayValidatorOptions.base o)
        (ArrayValidator.length_errors ao (VArray items) items p
         ++ item_errors (validate item) p 0 items
         ++ duplicate_errors ao p kept)
    /\ (isValid r = true
        <-> ArrayValidator.length_errors ao (VArray items) items p = []
            /\ Forall (fun ix => isValid (validate item (snd ix)
                                            (ArrayValidator.itemPath p (fst ix)))
                                 = true)
                 (combine (seq 0 (List.length items)) items)
            /\ duplicate_errors ao p kept = [])
    /\ (isValid r = true -> data r = Some (VArray kept))
    /\ List.length kept <= List.length items.
Proof.
  intros item o ao items p r kept.
  destruct (array_result item o ao items p) as (He & Hv & Hd).
  split; [exact He |]. split; [exact Hv |]. split; [exact Hd |].
  apply kept_data_length.
Qed.

(** When the test for an optional validator does not fire, the base method
    returns the verdict and the data of the check, and its errors with the
    custom message in place. *)
Lemma BaseValidator_validate_checked options validateValue x p :
  ValidatorOptions.optional options && is_absent x = false ->
  (isValid (validateValue x p) = true -> errors (validateValue x p) = []) ->
  errors (BaseValidator.validate options validateValue x p)
  = relabel options (errors (validateValue x p))
  /\ isValid (BaseValidator.validate options validateValue x p)
     = isValid (validateValue x p)
  /\ data (BaseValidator.validate options validateValue x p)
     = data (validateValue x p).
Proof.
  intros Hx Hv. unfold BaseValidator.validate, relabel. rewrite Hx.
  destruct (custom_message options) as [m |]; [| auto].
  destruct (isValid (validateValue x p)) eqn:E; simpl; [| auto].
  rewrite E, (Hv eq_refl). auto.
Qed.

(** X16.  A value of another kind, when it is not a sentinel that an
    optional validator lets pass, gets one error at the path of the call:
    an array validator names the type of a value that is no array (for null
    the type is [object]); an object validator answers null with [Object
    cannot be null] unless null is allowed, calls an array an array, and
    names the type of any other value that is no object. *)
Theorem container_wrong_kind :
  forall (x : JsValue) (p : string),
    (forall item o ao,
       is_array x = false ->
       ArrayValidatorOptions.optional o && is_absent x = false ->
       let r := validate (array_validator item o ao) x p in
       isValid r = false
       /\ errors r
          = relabel (ArrayValidatorOptions.base o)
              [createError p ("Expected array, received " ++ typeof x)%string x])
    /\ (forall schema o oo,
          is_plain_object x = false -> x <> VNull ->
          ObjectValidatorOptions.optional o && is_absent x = false ->
          let r := validate (object_validator schema o oo) x p in
          isValid r = false
          /\ errors r
             = relabel (ObjectValidatorOptions.base o)
                 [createError p
                    ("Expected object, received " ++ kind_for_object x)%string x])
    /\ (forall schema o oo,
          ObjectValidatorOptions.optional o = false ->
          ObjectValidatorOptions.allowNull oo = false ->
          let r := validate (object_validator schema o oo) VNull p in
          isValid r = false
          /\ errors r
             = relabel (ObjectValidatorOptions.base o)
                 [createError p "Object cannot be null" VNull]).
Proof.
  intros x p. split; [| split].
  - intros item o ao Hx Ha r. subst r. simpl.
    destruct (BaseValidator_validate_checked (ArrayValidatorOptions.base o)
                (ArrayValidator.validateValue (validate item) ao) x p Ha)
      as (He & Hv & _).
    { apply (ArrayValidator_well_formed (validate item) ao x p). }
    rewrite He, Hv. destruct x; try discriminate; split; reflexivity.
  - intros schema o oo Hx Hn Ha r. subst r. simpl.
    destruct (BaseValidator_validate_checked (ObjectValidatorOptions.base o)
                (ObjectValidator.validateValue
                   (map (fun kv => (fst kv, validate (snd kv))) schema) oo)
                x p Ha) as (He & Hv & _).
    { apply ObjectValidator_well_formed. }
    rewrite He, Hv. destruct x; try discriminate; try contradiction;
      split; reflexivity.
  - intros schema o oo Ho Ha r. subst r. simpl.
    destruct (BaseValidator_validate_checked (ObjectValidatorOptions.base o)
                (ObjectValidator.validateValue
                   (map (fun kv => (fst kv, validate (snd kv))) schema) oo)
                VNull p) as (He & Hv & _).
    { simpl. now rewrite Ho. }
    { apply ObjectValidator_well_formed. }
    rewrite He, Hv. simpl. rewrite Ha. split; reflexivity.
Qed.

End Arrays.

(* ================================================================== *)
(** * Objects: fields, partial schemas and reshaped schemas *)
(* ================================================================== *)

Section Objects.
Context {host : Host}.

(** The loop over the schema adds the errors of the fields that fail. *)
Lemma validate_fields_errors (fields : list (string * validate_fn)) props p :
  forall es vo,
    fst (ObjectValidator.validate_fields fields props p es vo)
    = es ++ flat_map
              (fun kf =>
                 let r := snd kf (get props (fst kf))
                            (ObjectValidator.fieldPath p (fst kf)) in
                 if isValid r then [] else errors r) fields.
Proof.
  induction fields as [| [key f] fields IH]; intros es vo; simpl.
  - now rewrite app_nil_r.
  - destruct (isValid (f (get props key) (ObjectValidator.fieldPath p key)));
      simpl.
    + destruct (has_data _); apply IH.
    + now rewrite IH, <- app_assoc.
Qed.

Lemma field_errors_in_order schema props p :
  field_errors schema props p
  = flat_map (fun kv => errors (field_result props p kv)) schema.
Proof.
  unfold field_errors. rewrite validate_fields_errors. simpl.
  induction schema as [| [key w] schema IH]; simpl; [reflexivity |].
  rewrite IH. f_equal. unfold field_result. simpl.
  destruct (isValid (validate w (get props key) (ObjectValidator.fieldPath p key)))
    eqn:E; [| reflexivity].
  symmetry. now apply (every_result_well_formed w).
Qed.

(** The errors and the verdict of an object validator on an object. *)
Lemma object_result schema o oo props p :
  let r := validate (object_validator schema o oo) (VObject props) p in
  errors r
  = relabel (ObjectValidatorOptions.base o)
      (flat_map (fun kv => errors (field_result props p kv)) schema
       ++ unexpected_errors oo schema props p)
  /\ (isValid r = true
      <-> Forall (fun kv => isValid (field_result props p kv) = true) schema
          /\ (ObjectValidatorOptions.strict oo = true ->
              ObjectValidator.extra_keys (keys schema) props = [])).
Proof.
  intros r.
  assert (He : errors r
               = relabel (ObjectValidatorOptions.base o)
                   (flat_map (fun kv => errors (field_result props p kv)) schema
                    ++ unexpected_errors oo schema props p)).
  { subst r. simpl.
    destruct (BaseValidator_validate_errors (ObjectValidatorOptions.base o)
                (ObjectValidator.validateValue
                   (map (fun kv => (fst kv, validate (snd kv))) schema) oo)
                (VObject props) p eq_refl) as (He & _ & _).
    { apply ObjectValidator_well_formed. }
    rewrite He. f_equal. rewrite <- field_errors_in_order.
    unfold ObjectValidator.validateValue, ObjectValidator.validate_props,
      field_errors, unexpected_errors.
    rewrite keys_map_validate.
    destruct (ObjectValidator.validate_fields _ props p [] empty_object)
      as [es vo].
    simpl. destruct (ObjectValidatorOptions.strict oo);
      rewrite errors_finish; [reflexivity | now rewrite app_nil_r]. }
  split; [exact He |].
  destruct (every_result_well_formed (object_validator schema o oo)
              (VObject props) p) as (Hv & _ & _).
  fold r in Hv. rewrite Hv, He, relabel_nil. split.
  - intros H. apply app_eq_nil in H as [Hf Hu]. split.
    + apply flat_map_nil in Hf. eapply Forall_impl; [| exact Hf].
      intros kv Hkv. now apply (every_result_well_formed (snd kv)).
    + intros Hs. unfold unexpected_errors in Hu. rewrite Hs in Hu.
      now apply map_eq_nil in Hu.
  - intros [Hf Hs].
    assert (Hfields : flat_map (fun kv => errors (field_result props p kv)) schema
                      = []).
    { apply flat_map_nil. eapply Forall_impl; [| exact Hf].
      intros kv Hkv. now apply (every_result_well_formed (snd kv)). }
    rewrite Hfields. unfold unexpected_errors.
    destruct (ObjectValidatorOptions.strict oo); [| reflexivity].
    now rewrite Hs.
Qed.

(** X17.  On an object, an object validator whose schemas declare their
    fields under keys that no built-in prototype has reports the errors of
    its fields in the order of the schema, each field validated on the own
    property under its key at the path of the key, and a property that the
    object lacks validated as [undefined]; in strict mode the errors for
    undeclared keys follow.  The object is accepted exactly when every field
    accepts its property and, in strict mode, no key is undeclared. *)
Theorem object_fields_in_order :
  forall (schema : list (string * Validator)) (o oo : ObjectValidatorOptions.t)
         (props : list (string * JsValue)) (p : string),
    plain_schema (object_validator schema o oo) = true ->
    let r := validate (object_validator schema o oo) (VObject props) p in
    errors r
    = relabel (ObjectValidatorOptions.base o)
        (flat_map (fun kv => errors (field_result props p kv)) schema
         ++ unexpected_errors oo schema props p)
    /\ (isValid r = true
        <-> Forall (fun kv => isValid (field_result props p kv) = true) schema
            /\ (ObjectValidatorOptions.strict oo = true ->
                ObjectValidator.extra_keys (keys schema) props = []))
    /\ (forall kv, In kv schema -> lookup props (fst kv) = None ->
          field_result props p kv
          = validate (snd kv) VUndefined (ObjectValidator.fieldPath p (fst kv))).
Proof.
  intros schema o oo props p _ r.
  destruct (object_result schema o oo props p) as [He Hv].
  split; [exact He |]. split; [exact Hv |].
  intros kv _ Hk. unfold field_result, get. now rewrite Hk.
Qed.

(** What [optional()] does to the verdict of a validator that is no union. *)
Lemma optional_verdict v x q :
  constructed v -> is_union v = false ->
  isValid (validate (optional v) x q)
  = is_absent x || isValid (validate v x q).
Proof.
  intros Hc Hu. destruct (is_absent x) eqn:Hx; simpl.
  - destruct Hc; try discriminate; simpl;
      try (now rewrite BaseValidator_validate_absent);
      try reflexivity.
    unfold Schema.nullable_validate. now rewrite Hx.
  - destruct Hc; try discriminate; simpl; try reflexivity;
      apply (f_equal isValid);
      now apply BaseValidator_validate_present.
Qed.

(** X18.  [partial()] makes the fields optional: when the schemas declare
    their fields under keys that no built-in prototype has and no field is a
    union, the partial validator accepts an object exactly when every own
    property under a key of the schema is absent (missing, [undefined] or
    null) or accepted by its field and, in strict mode, no key is
    undeclared.  In particular it accepts the empty object. *)
Theorem partial_makes_fields_optional :
  forall (schema : list (string * Validator)) (o : ObjectValidatorOptions.t)
         (props : list (string * JsValue)) (p : string),
    plain_schema (object_validator schema o o) = true ->
    Forall (fun kv => constructed (snd kv) /\ is_union (snd kv) = false) schema ->
    let v := ObjectValidator.partial (object_validator schema o o) in
    (isValid (validate v (VObject props) p) = true
     <-> Forall (fun kv => is_absent (get props (fst kv)) = true
                           \/ isValid (field_result props p kv) = true) schema
         /\ (ObjectValidatorOptions.strict o = true ->
             ObjectValidator.extra_keys (keys schema) props = []))
    /\ isValid (validate v (VObject []) p) = true.
Proof.
  intros schema o props p _ Hschema v. subst v.
  unfold ObjectValidator.partial, new_ObjectValidator.
  set (partialSchema := map (fun kv => (fst kv, optional (snd kv))) schema).
  assert (Hkeys : keys partialSchema = keys schema).
  { unfold partialSchema, keys. rewrite map_map. reflexivity. }
  assert (Hfields : forall props',
            Forall (fun kv => isValid (field_result props' p kv) = true)
              partialSchema
            <-> Forall (fun kv => is_absent (get props' (fst kv)) = true
                                  \/ isValid (field_result props' p kv) = true)
                  schema).
  { intros props'. unfold partialSchema. rewrite Forall_map.
    rewrite !Forall_forall. split; intros H kv Hin;
      specialize (H kv Hin);
      rewrite Forall_forall in Hschema; destruct (Hschema kv Hin) as [Hc Hu];
      unfold field_result in *; simpl in *;
      rewrite (optional_verdict _ _ _ Hc Hu) in *.
    - now apply orb_true_iff in H.
    - now apply orb_true_iff. }
  split.
  - destruct (object_result partialSchema
                (ObjectValidatorOptions.set_partial o true)
                (ObjectValidatorOptions.set_partial o true) props p) as [_ Hv].
    rewrite Hv, Hkeys, Hfields. reflexivity.
  - destruct (object_result partialSchema
                (ObjectValidatorOptions.set_partial o true)
                (ObjectValidatorOptions.set_partial o true) [] p) as [_ Hv].
    apply Hv. split; [| reflexivity].
    apply Hfields. apply Forall_forall. intros kv _. now left.
Qed.

Lemma lookup_not_key {A : Type} (l : list (string * A)) k :
  ~ In k (keys l) -> lookup l k = None.
Proof.
  induction l as [| [k0 a] l IH]; simpl; [reflexivity |].
  intros H. destruct (String.eqb k k0) eqn:E.
  - apply String.eqb_eq in E. subst. tauto.
  - apply IH. tauto.
Qed.

Lemma lookup_pick_from {V : Type} (schema : list (string * V)) ks k :
  forall acc,
    lookup
      (fold_left
         (fun pickedSchema key =>
            match lookup schema key with
            | Some validator => assign pickedSchema key validator
            | None => pickedSchema
            end) ks acc) k
    = if has_key ks k
      then match lookup schema k with
           | Some w => Some w
           | None => lookup acc k
           end
      else lookup acc k.
Proof.
  unfold has_key.
  induction ks as [| key ks IH]; intros acc; simpl; [reflexivity |].
  rewrite IH. destruct (String.eqb k key) eqn:E; simpl.
  - apply String.eqb_eq in E. subst key.
    destruct (lookup schema k) as [w |] eqn:Ek.
    + rewrite lookup_assign, String.eqb_refl.
      destruct (existsb (String.eqb k) ks); reflexivity.
    + destruct (existsb (String.eqb k) ks); reflexivity.
  - destruct (lookup schema key) as [w |]; [| reflexivity].
    rewrite lookup_assign, E. reflexivity.
Qed.

Lemma lookup_filter_keys {V : Type} (schema : list (string * V))
  (keep : string -> bool) k :
  lookup (filter (fun kv => keep (fst kv)) schema) k
  = if keep k then lookup schema k else None.
Proof.
  induction schema as [| [k0 w] schema IH]; simpl.
  - now destruct (keep k).
  - destruct (keep k0) eqn:E0; simpl.
    + destruct (String.eqb k k0) eqn:E.
      * apply String.eqb_eq in E. subst. now rewrite E0.
      * exact IH.
    + rewrite IH. destruct (String.eqb k k0) eqn:E; [| reflexivity].
      apply String.eqb_eq in E. subst. now rewrite E0.
Qed.

Lemma lookup_extend_from {V : Type} (extension : list (string * V)) k :
  NoDup (keys extension) ->
  forall acc,
    lookup (fold_left (fun acc kv => assign acc (fst kv) (snd kv)) extension acc) k
    = match lookup extension k with
      | Some w => Some w
      | None => lookup acc k
      end.
Proof.
  induction extension as [| [k0 w0] extension IH]; intros Hnd acc; simpl;
    [reflexivity |].
  inversion Hnd as [| ? ? Hnotin Hnd']; subst.
  rewrite (IH Hnd'), lookup_assign.
  destruct (String.eqb k k0) eqn:E; [| reflexivity].
  apply String.eqb_eq in E. subst k0.
  now rewrite (lookup_not_key extension k Hnotin).
Qed.

(** X19.  What [pick], [omit] and [extend] put in the schema of the
    validator they return, for a schema and a list [ks] of keys that hold no
    key of a built-in prototype: [pick(ks)] keeps, with its validator, each
    key of [ks] that the schema has and nothing else; [omit(ks)] keeps the
    others; so every field of the schema is in exactly one of the two.
    [extend(e)] holds the fields of [e], and under every other key what the
    schema holds. *)
Theorem reshaped_schema_lookup :
  forall (schema extension : list (string * Validator)) (ks : list string)
         (k : string),
    forallb plain_key (keys schema) = true ->
    forallb plain_key ks = true ->
    lookup (pick_schema schema ks) k
    = (if has_key ks k then lookup schema k else None)
    /\ lookup (omit_schema schema ks) k
       = (if has_key ks k then None else lookup schema k)
    /\ (forall w, lookup schema k = Some w ->
          (lookup (pick_schema schema ks) k = Some w
           /\ lookup (omit_schema schema ks) k = None)
          \/ (lookup (pick_schema schema ks) k = None
              /\ lookup (omit_schema schema ks) k = Some w))
    /\ (NoDup (keys extension) ->
        lookup (extend_schema schema extension) k
        = match lookup extension k with
          | Some w => Some w
          | None => lookup schema k
          end).
Proof.
  intros schema extension ks k _ _.
  assert (Hpick : lookup (pick_schema schema ks) k
                  = if has_key ks k then lookup schema k else None).
  { unfold pick_schema. rewrite lookup_pick_from. simpl.
    destruct (has_key ks k); [| reflexivity].
    now destruct (lookup schema k). }
  assert (Homit : lookup (omit_schema schema ks) k
                  = if has_key ks k then None else lookup schema k).
  { unfold omit_schema.
    rewrite (lookup_filter_keys schema (fun key => negb (has_key ks key))).
    now destruct (has_key ks k). }
  split; [exact Hpick |]. split; [exact Homit |]. split.
  - intros w Hw. rewrite Hpick, Homit, Hw. destruct (has_key ks k); auto.
  - intros Hnd. unfold extend_schema. now apply lookup_extend_from.
Qed.

End Objects.

Lemma object_fields_in_order_witness :
  plain_schema (ObjectValidator.strict (Schema.object Examples.schema_a)) = true
  /\ errors (validate (host := Examples.host)
               (ObjectValidator.strict (Schema.object Examples.schema_a))
               (VObject [("b", VNumber Num.one)]) "root")
     = errors (validate (host := Examples.host) Schema.string VUndefined "a")
       ++ [ObjectValidator.unexpected [("b", VNumber Num.one)] "root" "b"].
Proof.
  split; [reflexivity |].
  exact (proj1 (object_fields_in_order (host := Examples.host)
                  Examples.schema_a ObjectValidatorOptions.empty
                  (ObjectValidatorOptions.set_strict ObjectValidatorOptions.empty
                     true)
                  [("b", VNumber Num.one)] "root" eq_refl)).
Defined.

Lemma partial_makes_fields_optional_witness :
  let v := ObjectValidator.partial
             (object_validator Examples.schema_a ObjectValidatorOptions.empty
                ObjectValidatorOptions.empty) in
  plain_schema (object_validator Examples.schema_a ObjectValidatorOptions.empty
                  ObjectValidatorOptions.empty) = true
  /\ Forall (fun kv => constructed (snd kv) /\ is_union (snd kv) = false)
       Examples.schema_a
  /\ isValid (validate (host := Examples.host) v (VObject []) "root") = true.
Proof.
  assert (H : Forall (fun kv => constructed (snd kv) /\ is_union (snd kv) = false)
                Examples.schema_a).
  { constructor; [| constructor]. split; [apply constructed_string | reflexivity]. }
  split; [reflexivity |]. split; [exact H |].
  exact (proj2 (partial_makes_fields_optional (host := Examples.host)
                  Examples.schema_a ObjectValidatorOptions.empty [] "root"
                  eq_refl H)).
Defined.

Lemma reshaped_schema_lookup_witness :
  forallb plain_key (keys Examples.schema_a) = true
  /\ forallb plain_key ["a"; "b"] = true
  /\ lookup (pick_schema Examples.schema_a ["a"; "b"]) "a"
     = lookup Examples.schema_a "a".
Proof.
  split; [reflexivity |]. split; [reflexivity |].
  exact (proj1 (reshaped_schema_lookup Examples.schema_a [] ["a"; "b"] "a"
                  eq_refl eq_refl)).
Defined.

(* ================================================================== *)
(** * Paths: where the errors are located *)
(* ================================================================== *)

Section Paths.
Context {host : Host}.

Lemma chars_append a b : Str.chars (a ++ b) = Str.chars a ++ Str.chars b.
Proof.
  unfold Str.chars. induction a as [| c a IH]; simpl; [reflexivity |].
  now rewrite IH.
Qed.

Lemma starts_with_iff p l :
  Str.starts_with p l = true <-> exists t, l = p ++ t.
Proof.
  revert l. induction p as [| a p IH]; intros l; simpl.
  - split; [intros _; now exists l | reflexivity].
  - destruct l as [| b l].
    + split; [discriminate | intros (t & H); discriminate].
    + rewrite andb_true_iff, Ascii.eqb_eq, IH. split.
      * intros (-> & t & ->). now exists t.
      * intros (t & H). injection H as -> ->. eauto.
Qed.

Lemma located_under_self p m x : located_under p (createError p m x).
Proof.
  unfold located_under, Str.startsWith. simpl.
  apply starts_with_iff. exists []. now rewrite app_nil_r.
Qed.

(** An error below a path that extends [p] is below [p]. *)
Lemma located_under_longer p t e :
  located_under (p ++ t) e -> located_under p e.
Proof.
  unfold located_under, Str.startsWith. rewrite !starts_with_iff, chars_append.
  intros (u & ->). exists (Str.chars t ++ u). now rewrite app_assoc.
Qed.

Lemma located_with_message p m e :
  located_under p e -> located_under p (with_message m e).
Proof. now unfold located_under. Qed.

Lemma located_relabel p options es :
  Forall (located_under p) es -> Forall (located_under p) (relabel options es).
Proof.
  intros H. unfold relabel. destruct (custom_message options); [| exact H].
  apply Forall_map. eapply Forall_impl; [| exact H].
  intros e. apply located_with_message.
Qed.

Lemma located_BaseValidator p options validateValue x :
  Forall (located_under p) (errors (validateValue x p)) ->
  Forall (located_under p)
    (errors (BaseValidator.validate options validateValue x p)).
Proof.
  intros H. unfold BaseValidator.validate.
  destruct (_ && _); [constructor |].
  destruct (custom_message options) as [m |]; [| exact H].
  destruct (negb _); [| exact H]. simpl.
  apply Forall_map. eapply Forall_impl; [| exact H].
  intros e. apply located_with_message.
Qed.

Lemma located_push_if p c m x es :
  Forall (located_under p) es ->
  Forall (located_under p) (push_if c (createError p m x) es).
Proof.
  intros H. unfold push_if. destruct c; [| exact H].
  apply Forall_app. split; [exact H |].
  constructor; [apply located_under_self | constructor].
Qed.

Ltac located :=
  repeat first
    [ apply located_push_if
    | apply Forall_nil
    | apply Forall_cons; [apply located_under_self |] ].

Lemma located_StringValidator so x p :
  Forall (located_under p) (errors (StringValidator.validateValue so x p)).
Proof.
  unfold StringValidator.validateValue. destruct x; simpl; located.
  rewrite errors_finish.
  destruct (StringValidatorOptions.minLength so),
    (StringValidatorOptions.maxLength so),
    (StringValidatorOptions.pattern so); located.
Qed.

Lemma located_NumberValidator no x p :
  Forall (located_under p) (errors (NumberValidator.validateValue no x p)).
Proof.
  unfold NumberValidator.validateValue. destruct x; simpl; located.
  destruct (Num.isNaN n); simpl; located.
  rewrite errors_finish.
  destruct (NumberValidatorOptions.min no),
    (NumberValidatorOptions.max no),
    (NumberValidatorOptions.multipleOf no); located.
Qed.

Lemma located_BooleanValidator bo x p :
  Forall (located_under p) (errors (BooleanValidator.validateValue bo x p)).
Proof.
  unfold BooleanValidator.validateValue, BooleanValidator.cannot_convert.
  destruct (BooleanValidatorOptions.strict bo); [destruct x; simpl; located |].
  destruct (BooleanValidatorOptions.truthy bo); [simpl; located |].
  destruct x; simpl; located.
  - destruct (Num.eq n Num.one); [simpl; located |].
    destruct (Num.eq n Num.zero); simpl; located.
  - destruct (BooleanValidator.true_word _); [simpl; located |].
    destruct (BooleanValidator.false_word _); simpl; located.
Qed.

Lemma located_DateValidator do x p :
  Forall (located_under p) (errors (DateValidator.validateValue do x p)).
Proof.
  unfold DateValidator.validateValue, DateValidator.check_format,
    DateValidator.to_date, DateValidator.invalid_date.
  destruct (DateValidatorOptions.format do) as [[| |] |]; destruct x;
    simpl; located;
    repeat match goal with
           | |- context [if ?c then _ else _] => destruct c; simpl; located
           end;
    rewrite ?errors_finish;
    destruct (DateValidatorOptions.min do), (DateValidatorOptions.max do);
    located.
Qed.

Lemma not_root_with (c : ascii) (a b : string) :
  ~ In c (Str.chars "root") -> (a ++ String c b)%string <> "root".
Proof.
  intros Hc E. apply Hc. rewrite <- E, chars_append.
  apply in_or_app. right. now left.
Qed.

Lemma itemPath_not_root p i : ArrayValidator.itemPath p i <> "root".
Proof.
  unfold ArrayValidator.itemPath.
  apply (not_root_with "["%char). simpl. intuition discriminate.
Qed.

Lemma fieldPath_not_root p key :
  p <> "root" -> ObjectValidator.fieldPath p key <> "root".
Proof.
  intros Hp. unfold ObjectValidator.fieldPath.
  destruct (String.eqb p "root") eqn:E; [now apply String.eqb_eq in E |].
  apply (not_root_with "."%char). simpl. intuition discriminate.
Qed.

Lemma fieldPath_below p key :
  p <> "root" -> ObjectValidator.fieldPath p key = (p ++ "." ++ key)%string.
Proof.
  intros Hp. unfold ObjectValidator.fieldPath.
  destruct (String.eqb p "root") eqn:E; [now apply String.eqb_eq in E |].
  reflexivity.
Qed.

Lemma located_item_errors (f : validate_fn) p items :
  (forall x q, q <> "root" -> Forall (located_under q) (errors (f x q))) ->
  forall i, Forall (located_under p) (item_errors f p i items).
Proof.
  intros Hf. induction items as [| x items IH]; intros i; simpl; [constructor |].
  apply Forall_app. split; [| apply IH].
  destruct (isValid _); [constructor |].
  eapply Forall_impl; [| apply (Hf x _ (itemPath_not_root p i))].
  intros e. unfold ArrayValidator.itemPath. apply located_under_longer.
Qed.

Lemma located_duplicates p kept l :
  Forall (located_under p) (map (ArrayValidator.duplicate_error p kept) l).
Proof.
  apply Forall_map, Forall_forall. intros i _.
  unfold ArrayValidator.duplicate_error, ArrayValidator.itemPath.
  apply (located_under_longer p ("[" ++ Str.of_nat i ++ "]")).
  apply located_under_self.
Qed.

Lemma located_length_errors ao x items p :
  Forall (located_under p) (ArrayValidator.length_errors ao x items p).
Proof.
  unfold ArrayValidator.length_errors.
  destruct (ArrayValidatorOptions.minLength ao),
    (ArrayValidatorOptions.maxLength ao); located.
Qed.

Lemma located_ArrayValidator (f : validate_fn) ao x p :
  (forall y q, q <> "root" -> Forall (located_under q) (errors (f y q))) ->
  Forall (located_under p) (errors (ArrayValidator.validateValue f ao x p)).
Proof.
  intros Hf. unfold ArrayValidator.validateValue.
  destruct x; simpl; located.
  rewrite validate_items_spec, errors_finish.
  destruct (ArrayValidatorOptions.unique ao && _);
    rewrite ?Forall_app; repeat split;
    auto using located_length_errors, located_item_errors, located_duplicates.
Qed.

Lemma located_fields (fields : list (string * validate_fn)) props p :
  p <> "root" ->
  (forall k f, In (k, f) fields ->
     forall x q, q <> "root" -> Forall (located_under q) (errors (f x q))) ->
  Forall (located_under p)
    (fst (ObjectValidator.validate_fields fields props p [] empty_object)).
Proof.
  intros Hp Hf. rewrite validate_fields_errors. simpl.
  induction fields as [| [key f] fields IH]; simpl; [constructor |].
  apply Forall_app. split.
  - destruct (isValid _); [constructor |].
    eapply Forall_impl;
      [| apply (Hf key f (or_introl eq_refl) _ _ (fieldPath_not_root p key Hp))].
    intros e. rewrite (fieldPath_below p key Hp). apply located_under_longer.
  - apply IH. intros k g Hin. apply (Hf k g). now right.
Qed.

Lemma located_ObjectValidator (fields : list (string * validate_fn)) oo x p :
  p <> "root" ->
  (forall k f, In (k, f) fields ->
     forall y q, q <> "root" -> Forall (located_under q) (errors (f y q))) ->
  Forall (located_under p) (errors (ObjectValidator.validateValue fields oo x p)).
Proof.
  intros Hp Hf.
  assert (Hprops : forall readable props,
            Forall (located_under p)
              (errors (ObjectValidator.validate_props fields oo readable props p))).
  { intros readable props. unfold ObjectValidator.validate_props.
    pose proof (located_fields fields readable p Hp Hf) as Hfields.
    destruct (ObjectValidator.validate_fields fields readable p [] empty_object)
      as [es vo].
    simpl in Hfields.
    destruct (ObjectValidatorOptions.strict oo); rewrite errors_finish;
      [| exact Hfields].
    apply Forall_app. split; [exact Hfields |].
    apply Forall_map, Forall_forall. intros key _.
    unfold ObjectValidator.unexpected. rewrite (fieldPath_below p key Hp).
    apply (located_under_longer p ("." ++ key)). apply located_under_self. }
  unfold ObjectValidator.validateValue. destruct x; simpl; located; auto.
  destruct (ObjectValidatorOptions.allowNull oo); simpl; located.
Qed.

(** X20.  Every error of a validation at a path other than the default
    [root] is located at that path or below it: its path starts with the
    path of the call. *)
Theorem errors_located_under_path :
  forall (v : Validator) (x : JsValue) (p : string),
    p <> "root" ->
    Forall (located_under p) (errors (validate v x p)).
Proof.
  induction v using Validator_ind; intros x p Hp; simpl.
  - apply located_BaseValidator, located_StringValidator.
  - apply located_BaseValidator, located_NumberValidator.
  - apply located_BaseValidator, located_BooleanValidator.
  - apply located_BaseValidator, located_DateValidator.
  - apply located_BaseValidator, located_ArrayValidator. exact IHv.
  - apply located_BaseValidator, located_ObjectValidator; [exact Hp |].
    intros k f Hin. apply in_map_iff in Hin as ([k' w] & [= <- <-] & Hin).
    rewrite Forall_forall in H. exact (H (k', w) Hin).
  - constructor.
  - unfold Schema.nullable_validate. destruct (is_absent x); [constructor |].
    now apply IHv.
  - unfold Schema.union_validate.
    assert (Hfirst : forall r,
              Schema.first_valid (map validate l) x p = Some r -> errors r = []).
    { induction l as [| w l IHl]; simpl; [discriminate |].
      intros r. destruct (isValid (validate w x p)) eqn:E.
      - intros [= <-]. now apply (every_result_well_formed w).
      - inversion H; subst. now apply IHl. }
    destruct (Schema.first_valid (map validate l) x p) as [r |] eqn:E.
    + rewrite (Hfirst r eq_refl). constructor.
    + simpl. constructor; [| constructor].
      apply (located_under_self p
               "Value does not match any of the union types" x).
  - unfold Schema.union_message_validate, Schema.union_validate.
    assert (Hfirst : forall r,
              Schema.first_valid (map validate l) x p = Some r ->
              isValid r = true).
    { induction l as [| w l IHl]; simpl; [discriminate |].
      intros r. destruct (isValid (validate w x p)) eqn:E.
      - now intros [= <-].
      - inversion H; subst. now apply IHl. }
    destruct (Schema.first_valid (map validate l) x p) as [r |] eqn:E.
    + rewrite (Hfirst r eq_refl). simpl.
      pose proof (Hfirst r eq_refl) as Hr. clear Hfirst.
      assert (Her : errors r = []).
      { revert r E Hr. induction l as [| w l IHl]; simpl; [discriminate |].
        intros r. destruct (isValid (validate w x p)) eqn:Ew.
        - intros [= <-] _. now apply (every_result_well_formed w).
        - inversion H; subst. now apply IHl. }
      rewrite Her. constructor.
    + simpl. constructor; [| constructor].
      apply (located_with_message p m
               (createError p "Value does not match any of the union types" x)).
      apply located_under_self.
Qed.

End Paths.

Lemma errors_located_under_path_witness :
  "items" <> "root"
  /\ Forall (located_under "items")
       (errors (validate (host := Examples.host) (Schema.array Schema.number)
                  (VArray [VString "a"]) "items")).
Proof.
  assert (H : "items" <> "root") by discriminate.
  split; [exact H |].
  exact (errors_located_under_path (host := Examples.host) _ _ _ H).
Defined.

(* ================================================================== *)
(** * The combinators and the two methods of the interface *)
(* ================================================================== *)

Section Combinators.
Context {host : Host}.

Lemma first_valid_app (fs gs : list validate_fn) x p :
  Schema.first_valid (fs ++ gs) x p
  = match Schema.first_valid fs x p with
    | Some r => Some r
    | None => Schema.first_valid gs x p
    end.
Proof.
  induction fs as [| f fs IH]; simpl; [reflexivity |].
  destruct (isValid (f x p)); [reflexivity | exact IH].
Qed.

Lemma first_valid_isValid (fs : list validate_fn) x p r :
  Schema.first_valid fs x p = Some r -> isValid r = true.
Proof.
  induction fs as [| f fs IH]; simpl; [discriminate |].
  destruct (isValid (f x p)) eqn:E; [now intros [= <-] | exact IH].
Qed.

Lemma union_validate_flatten (fs1 fs2 fs3 : list validate_fn) x p :
  Schema.union_validate (fs1 ++ Schema.union_validate fs2 :: fs3) x p
  = Schema.union_validate (fs1 ++ fs2 ++ fs3) x p.
Proof.
  unfold Schema.union_validate. rewrite !first_valid_app.
  cbn [Schema.first_valid].
  destruct (Schema.first_valid fs1 x p); [reflexivity |].
  destruct (Schema.first_valid fs2 x p) as [r |] eqn:E.
  - now rewrite (first_valid_isValid _ _ _ _ E).
  - reflexivity.
Qed.

(** X21.  A union inside a union can be flattened: a union that has the
    union of [l2] among its members returns, on every value, what the union
    with the members of [l2] in its place returns. *)
Theorem union_flattens :
  forall (l1 l2 l3 : list Validator) (x : JsValue) (p : string),
    validate (Schema.union (l1 ++ Schema.union l2 :: l3)) x p
    = validate (Schema.union (l1 ++ l2 ++ l3)) x p.
Proof.
  intros l1 l2 l3 x p. unfold Schema.union. cbn [validate].
  rewrite !map_app. cbn [map validate]. apply union_validate_flatten.
Qed.

Lemma optional_twice v : optional (optional v) = optional v.
Proof. destruct v; reflexivity. Qed.

Lemma withMessage_twice m m' v :
  withMessage m' (withMessage m v) = withMessage m' v.
Proof.
  induction v using Validator_ind; simpl; try reflexivity.
  now rewrite IHv.
Qed.

Lemma optional_withMessage m v :
  is_union v = false -> optional (withMessage m v) = withMessage m (optional v).
Proof. destruct v; simpl; try reflexivity; discriminate. Qed.

(** X22.  How [optional()] and [withMessage()] compose.  Calling
    [optional()] twice is calling it once; of two calls of [withMessage] the
    last one decides; on a validator that is no union the two methods can be
    called in either order.  On a union the order matters: [optional()]
    after [withMessage(m)] gives back the plain union, without the
    message. *)
Theorem interface_methods_compose :
  forall (v : Validator) (m m' : string) (x : JsValue) (p : string),
    validate (optional (optional v)) x p = validate (optional v) x p
    /\ validate (withMessage m' (withMessage m v)) x p
       = validate (withMessage m' v) x p
    /\ (is_union v = false ->
        validate (optional (withMessage m v)) x p
        = validate (withMessage m (optional v)) x p)
    /\ (forall l,
          validate (optional (withMessage m (Schema.union l))) x p
          = validate (Schema.union l) x p).
Proof.
  intros v m m' x p.
  rewrite optional_twice, withMessage_twice. repeat split.
  intros Hu. now rewrite optional_withMessage.
Qed.


End Combinators.


(* ================================================================== *)
(** * Lengths, and timestamps written as strings *)
(* ================================================================== *)

Section Lengths.
Context {host : Host}.

Lemma Forall_any_items p items i :
  Forall (fun ix => isValid (validate Schema.any (snd ix)
                               (ArrayValidator.itemPath p (fst ix))) = true)
    (combine (seq i (List.length items)) items).
Proof. apply Forall_forall. reflexivity. Qed.

(** X24.  The bounds of [length] are inclusive: for bounds that are not
    NaN, [Schema.string().length(a, b)] accepts exactly the strings whose
    length is at least [a] and at most [b], and
    [Schema.array(Schema.any()).length(a, b)] exactly the arrays with so
    many items. *)
Theorem length_bounds_inclusive :
  forall (a b : Num.t) (p : string),
    Num.isNaN a = false -> Num.isNaN b = false ->
    (forall s,
       isValid (validate (StringValidator.length a b Schema.string) (VString s) p)
       = true
       <-> Num.le a (Num.of_nat (String.length s)) = true
           /\ Num.le (Num.of_nat (String.length s)) b = true)
    /\ (forall items,
          isValid (validate (ArrayValidator.length a b (Schema.array Schema.any))
                     (VArray items) p) = true
          <-> Num.le a (Num.of_nat (List.length items)) = true
              /\ Num.le (Num.of_nat (List.length items)) b = true).
Proof.
  intros a b p Ha Hb. split.
  - intros s.
    unfold StringValidator.length, Schema.string, new_StringValidator.
    rewrite string_validator_verdict. unfold string_accepted, tested_string.
    cbn [StringValidatorOptions.set_maxLength StringValidatorOptions.set_minLength
           StringValidatorOptions.empty StringValidatorOptions.minLength
           StringValidatorOptions.maxLength StringValidatorOptions.pattern
           StringValidatorOptions.trim StringValidatorOptions.email
           StringValidatorOptions.url StringValidatorOptions.uuid andb negb].
    unfold Num.gt.
    rewrite (Num_not_lt (Num.of_nat (String.length s)) a eq_refl Ha),
      (Num_not_lt b (Num.of_nat (String.length s)) Hb eq_refl).
    rewrite !andb_true_r. apply andb_true_iff.
  - intros items.
    unfold ArrayValidator.length, Schema.array, new_ArrayValidator.
    destruct (array_result Schema.any
                (ArrayValidatorOptions.set_maxLength
                   (ArrayValidatorOptions.set_minLength
                      ArrayValidatorOptions.empty (Some a)) (Some b))
                (ArrayValidatorOptions.set_maxLength
                   (ArrayValidatorOptions.set_minLength
                      ArrayValidatorOptions.empty (Some a)) (Some b))
                items p) as (_ & Hv & _).
    rewrite Hv. unfold ArrayValidator.length_errors, duplicate_errors.
    cbn [ArrayValidatorOptions.set_maxLength ArrayValidatorOptions.set_minLength
           ArrayValidatorOptions.empty ArrayValidatorOptions.minLength
           ArrayValidatorOptions.maxLength ArrayValidatorOptions.noEmpty
           ArrayValidatorOptions.unique andb].
    rewrite !push_if_nil. unfold Num.gt.
    rewrite <- (negb_true_iff (Num.lt (Num.of_nat (List.length items)) a)),
      <- (negb_true_iff (Num.lt b (Num.of_nat (List.length items)))).
    rewrite (Num_not_lt (Num.of_nat (List.length items)) a eq_refl Ha),
      (Num_not_lt b (Num.of_nat (List.length items)) Hb eq_refl).
    pose proof (Forall_any_items p items 0). tauto.
Qed.

Lemma digitsRegex_digits s :
  s <> EmptyString -> forallb Str.is_digit (Str.chars s) = true ->
  Regex.test DateValidator.digitsRegex s = true.
Proof.
  intros Hs Hd. unfold Regex.test, DateValidator.digitsRegex, Regex.digit.
  apply matches_chars_in, in_plus_class. split; [| exact Hd].
  intros E. apply Hs. rewrite <- (of_chars_chars s), E. reflexivity.
Qed.

(** X25.  With [timestamp()] a string of digits is validated as the number
    that [parseInt] reads from it: the string and the number get the same
    verdict and the same data, and their errors carry the same messages. *)
Theorem timestamp_string_is_its_number :
  forall (o do : DateValidatorOptions.t) (s p : string),
    DateValidatorOptions.format do = Some DateValidatorOptions.timestamp ->
    s <> EmptyString -> forallb Str.is_digit (Str.chars s) = true ->
    let v := date_validator o do in
    let r := validate v (VString s) p in
    let r' := validate v (VNumber (parseInt s (Some 10%Z))) p in
    isValid r = isValid r' /\ data r = data r'
    /\ map message (errors r) = map message (errors r').
Proof.
  intros o do s p Hf Hs Hd v r r'. subst v r r'. simpl.
  destruct (BaseValidator_validate_errors (DateValidatorOptions.base o)
              (DateValidator.validateValue do) (VString s) p eq_refl)
    as (He & Hv & Hdata).
  { apply (DateValidator_well_formed do (VString s) p). }
  destruct (BaseValidator_validate_errors (DateValidatorOptions.base o)
              (DateValidator.validateValue do)
              (VNumber (parseInt s (Some 10%Z))) p eq_refl)
    as (He' & Hv' & Hdata').
  { apply (DateValidator_well_formed do (VNumber (parseInt s (Some 10%Z))) p). }
  rewrite He, He', Hv, Hv', Hdata, Hdata'.
  unfold DateValidator.validateValue, DateValidator.check_format,
    DateValidator.to_date, DateValidator.implausible_string,
    DateValidator.invalid_date.
  rewrite Hf, (digitsRegex_digits s Hs Hd).
  destruct (JsDate.isInvalid (JsDate.of_number (parseInt s (Some 10%Z)))).
  { repeat split. now apply relabel_messages. }
  match goal with
  | |- isValid (finish ?es _) = isValid (finish ?es' _) /\ _ =>
      assert (Hm : map message es = map message es');
      [| set (l := es) in *; set (l' := es') in * ]
  end.
  { destruct (DateValidatorOptions.min do), (DateValidatorOptions.max do);
      rewrite ?map_push_if; reflexivity. }
  clearbody l l'.
  destruct l as [| e l]; destruct l' as [| e' l']; try discriminate Hm.
  - repeat split.
  - repeat split. apply relabel_messages. exact Hm.
Qed.

End Lengths.

Lemma length_bounds_inclusive_witness :
  Num.isNaN (Num.of_Z 1) = false /\ Num.isNaN (Num.of_Z 2) = false
  /\ (isValid (validate (host := Examples.host)
                 (StringValidator.length (Num.of_Z 1) (Num.of_Z 2) Schema.string)
                 (VString "ab") "root") = true
      <-> Num.le (Num.of_Z 1) (Num.of_nat (String.length "ab")) = true
          /\ Num.le (Num.of_nat (String.length "ab")) (Num.of_Z 2) = true).
Proof.
  split; [reflexivity |]. split; [reflexivity |].
  exact (proj1 (length_bounds_inclusive (host := Examples.host)
                  (Num.of_Z 1) (Num.of_Z 2) "root" eq_refl eq_refl) "ab").
Defined.

Lemma timestamp_string_witness :
  let do := DateValidatorOptions.set_format DateValidatorOptions.empty
              (Some DateValidatorOptions.timestamp) in
  let v := date_validator do do in
  let r := validate (host := Examples.host) v (VString "86400000") "root" in
  let r' := validate (host := Examples.host) v
              (VNumber (parseInt "86400000" (Some 10%Z))) "root" in
  data r = Some (VDate (JsDate.At 86400000))
  /\ isValid r = isValid r' /\ data r = data r'
  /\ map message (errors r) = map message (errors r').
Proof.
  split; [reflexivity |].
  apply (timestamp_string_is_its_number (host := Examples.host));
    (reflexivity || discriminate).
Defined.

(* ================================================================== *)
(** * Objects: the data under the keys of the schema *)
(* ================================================================== *)

Section ObjectData.
Context {host : Host}.

(** The loop over the schema leaves alone the keys that the schema does not
    have. *)
Lemma validate_fields_other (fields : list (string * validate_fn)) props p k :
  ~ In k (keys fields) ->
  forall es vo,
    lookup (properties
              (snd (ObjectValidator.validate_fields fields props p es vo))) k
    = lookup (properties vo) k.
Proof.
  induction fields as [| [key f] fields IH]; intros Hk es vo; simpl;
    [reflexivity |].
  simpl in Hk.
  assert (Hne : String.eqb k key = false).
  { destruct (String.eqb k key) eqn:E; [| reflexivity].
    apply String.eqb_eq in E. subst. tauto. }
  assert (Hrest : ~ In k (keys fields)) by tauto.
  destruct (negb _); [now apply IH |].
  destruct (has_data _); [| now apply IH].
  rewrite (IH Hrest). now apply lookup_set_property_other.
Qed.

(** Under the key of a field the loop leaves the data of the field, when the
    field passes and gives data. *)
Lemma validate_fields_lookup (fields : list (string * validate_fn)) props p :
  NoDup (keys fields) ->
  (forall k, In k (keys fields) -> String.eqb k "__proto__" = false) ->
  forall es vo,
    (forall k, In k (keys fields) -> lookup (properties vo) k = None) ->
    forall k f, In (k, f) fields ->
      lookup (properties
                (snd (ObjectValidator.validate_fields fields props p es vo))) k
      = let r := f (get props k) (ObjectValidator.fieldPath p k) in
        if isValid r && has_data r then Some (read_data r) else None.
Proof.
  induction fields as [| [key g] fields IH]; intros Hnd Hplain es vo Hvo k f Hin;
    [contradiction |].
  simpl in Hnd. inversion Hnd as [| ? ? Hnotin Hnd']; subst.
  assert (Hplain' : forall k, In k (keys fields) -> String.eqb k "__proto__" = false)
    by (intros k' Hk'; apply Hplain; now right).
  destruct Hin as [[= -> ->] | Hin].
  - simpl. destruct (isValid (f (get props k) (ObjectValidator.fieldPath p k)));
      simpl.
    + destruct (has_data (f (get props k) (ObjectValidator.fieldPath p k))).
      * rewrite (validate_fields_other _ _ _ _ Hnotin),
          (set_property_other _ _ _ (Hplain k (or_introl eq_refl))).
        simpl. now rewrite lookup_assign, String.eqb_refl.
      * rewrite (validate_fields_other _ _ _ _ Hnotin). apply Hvo. now left.
    + rewrite (validate_fields_other _ _ _ _ Hnotin). apply Hvo. now left.
  - assert (Hk : In k (keys fields)).
    { unfold keys. apply in_map_iff. now exists (k, f). }
    assert (Hne : forall k', In k' (keys fields) -> String.eqb k' key = false).
    { intros k' Hk'. destruct (String.eqb k' key) eqn:E; [| reflexivity].
      apply String.eqb_eq in E. subst. contradiction. }
    simpl. destruct (negb _).
    + apply IH; auto. intros k' Hk'. apply Hvo. now right.
    + destruct (has_data _).
      * apply IH; auto. intros k' Hk'.
        rewrite (lookup_set_property_other _ _ _ _ (Hne k' Hk')).
        apply Hvo. now right.
      * apply IH; auto. intros k' Hk'. apply Hvo. now right.
Qed.

Lemma plain_keys_each ks :
  forallb plain_key ks = true ->
  forall k, In k ks -> String.eqb k "__proto__" = false.
Proof.
  intros H k Hin. apply plain_key_not_proto.
  rewrite forallb_forall in H. now apply H.
Qed.

(** X26.  For an object validator whose schemas declare their fields under
    distinct keys that no built-in prototype has, and an object that has no
    own property [__proto__], the data of a valid result is an
    object with the prototype Object.prototype in which the own property
    under the key of a field holds the data of the field, and there is no
    such property when the field gave no data (an optional field on a missing
    property, or on null). *)
Theorem object_data_fields :
  forall (schema : list (string * Validator)) (o oo : ObjectValidatorOptions.t)
         (props : list (string * JsValue)) (p : string),
    NoDup (keys schema) ->
    plain_schema (object_validator schema o oo) = true ->
    has_key (keys props) "__proto__" = false ->
    let r := validate (object_validator schema o oo) (VObject props) p in
    isValid r = true ->
    exists out,
      data r = Some (VObject out)
      /\ forall kv, In kv schema ->
           lookup out (fst kv)
           = if has_data (field_result props p kv)
             then Some (read_data (field_result props p kv))
             else None.
Proof.
  intros schema o oo props p Hnd Hplain Hown r Hvalid.
  apply plain_schema_fields in Hplain as [Hplain _].
  destruct (object_result schema o oo props p) as [_ Hv].
  fold r in Hv. destruct (proj1 Hv Hvalid) as [Hfields _].
  subst r. simpl in Hvalid |- *.
  apply BaseValidator_validate_data in Hvalid
    as [(_ & Habs & _) | (Hc & ->)]; [discriminate |].
  set (fields := map (fun kv => (fst kv, validate (snd kv))) schema) in *.
  assert (Hfk : keys fields = keys schema)
    by (subst fields; apply keys_map_validate).
  assert (Hlookup : forall kv, In kv schema ->
            lookup (properties
                      (snd (ObjectValidator.validate_fields fields props p []
                              empty_object)))
              (fst kv)
            = if has_data (field_result props p kv)
              then Some (read_data (field_result props p kv))
              else None).
  { intros kv Hin.
    rewrite (validate_fields_lookup fields props p) with (f := validate (snd kv)).
    - cbv zeta. rewrite Forall_forall in Hfields.
      pose proof (Hfields kv Hin) as Hkv. unfold field_result in *.
      now rewrite Hkv.
    - now rewrite Hfk.
    - rewrite Hfk. now apply plain_keys_each.
    - reflexivity.
    - subst fields. apply in_map_iff. exists kv. now destruct kv. }
  pose proof (prototype_validate_fields fields props p [] empty_object) as Hp.
  rewrite Hfk in Hp. specialize (Hp (plain_keys_no_proto _ Hplain)).
  unfold ObjectValidator.validateValue, ObjectValidator.validate_props in *.
  destruct (ObjectValidator.validate_fields fields props p [] empty_object)
    as [es vo].
  simpl in Hlookup, Hp.
  destruct (ObjectValidatorOptions.strict oo);
    apply finish_valid in Hc as [_ ->]; unfold object_value; simpl.
  - rewrite Hp. eexists; split; [reflexivity |]. exact Hlookup.
  - rewrite prototype_copy_extra, Hp;
      [| unfold ObjectValidator.extra_keys; now apply has_key_filter].
    eexists; split; [reflexivity |].
    intros kv Hin.
    assert (Hkv : In (fst kv) (keys schema)).
    { unfold keys. apply in_map_iff. now exists kv. }
    rewrite lookup_copy_extra; [| now apply (plain_keys_each (keys schema))].
    rewrite Hfk.
    rewrite has_key_extra_keys; [now apply Hlookup |].
    now apply has_key_In.
Qed.

End ObjectData.

Lemma object_data_fields_witness :
  let schema := [("a", Schema.string); ("b", optional Schema.number)] in
  let props := [("a", VString "x"); ("b", VNull)] in
  let r := validate (host := Examples.host) (Schema.object schema)
             (VObject props) "root" in
  NoDup (keys schema)
  /\ plain_schema (Schema.object schema) = true
  /\ has_key (keys props) "__proto__" = false
  /\ isValid r = true
  /\ exists out,
       data r = Some (VObject out)
       /\ forall kv, In kv schema ->
            lookup out (fst kv)
            = if has_data (field_result (host := Examples.host) props "root" kv)
              then Some (read_data
                           (field_result (host := Examples.host) props "root" kv))
              else None.
Proof.
  assert (Hnd : NoDup (keys [("a", Schema.string); ("b", optional Schema.number)])).
  { repeat constructor; simpl; intuition discriminate. }
  split; [exact Hnd |]. split; [reflexivity |]. split; [reflexivity |].
  split; [reflexivity |].
  exact (object_data_fields (host := Examples.host) _
           ObjectValidatorOptions.empty ObjectValidatorOptions.empty
           [("a", VString "x"); ("b", VNull)] "root" Hnd eq_refl eq_refl eq_refl).
Defined.
